(** * auto_forge.py: blueprint planning, project creation and the test/fix loop

    A shallow embedding of the parts of [auto_forge.py] that decide the
    behaviour of [MistralPlanner], [StructureCreator], [CopilotAutomator]
    and [TestRunner], followed by the properties proved about them.

    Conventions.
    - A Python [str] is a list of Unicode code points ([N]); [len] is the
      length of that list.
    - The JSON values handled by [json.loads] / [json.dumps] are the
      inductive type [json]; a Python [dict] keeps its insertion order, so
      it is an association list updated in place by [dict_set].
    - Objects that the program shares and mutates ([self.fallback_structure]
      and what it points to) live in an explicit heap.
    - Exceptions are values of [exn] carried by [result].
    - The keystrokes sent by [CopilotAutomator] are recorded as a list of
      calls; what a call does is given by the environment.
    - What the console does with a message and where the limits of the
      interpreter lie are given by the environment too ([Runtime]). *)

From Stdlib Require Import NArith ZArith List Bool Ascii String DecimalString Lia.
From stdpp Require Import base option list gmap.
Import ListNotations.

Local Open Scope N_scope.

(* ===================================================================== *)
(** * Python strings *)
(* ===================================================================== *)

Module PyStr.

(** A code point and a string of code points. *)
Definition char := N.
Definition str := list N.

(** A literal of the source text (all of them are ASCII). *)
Definition py (x : string) : str := map N_of_ascii (list_ascii_of_string x).

(** [a == b] *)
Fixpoint eqb (a b : str) : bool :=
  match a, b with
  | [], [] => true
  | x :: a', y :: b' => (x =? y) && eqb a' b'
  | _, _ => false
  end.

(** [str.startswith] and [str.endswith]. *)
Fixpoint startswith (p s : str) : bool :=
  match p, s with
  | [], _ => true
  | a :: p', b :: s' => (a =? b) && startswith p' s'
  | _ :: _, [] => false
  end.

Definition endswith (p s : str) : bool := startswith (rev p) (rev s).

(** [sub in s] for strings: substring test. *)
Fixpoint contains (sub s : str) : bool :=
  startswith sub s ||
  match s with
  | [] => false
  | _ :: s' => contains sub s'
  end.

(** [str.isspace] for one code point (the code points Python treats as
    whitespace in [str.strip()] and [str.split()]). *)
Definition isspace (c : char) : bool :=
  ((9 <=? c) && (c <=? 13)) || ((28 <=? c) && (c <=? 32)) ||
  (c =? 133) || (c =? 160) || (c =? 5760) ||
  ((8192 <=? c) && (c <=? 8202)) || (c =? 8232) || (c =? 8233) ||
  (c =? 8239) || (c =? 8287) || (c =? 12288).

Fixpoint lstrip_by (p : char -> bool) (s : str) : str :=
  match s with
  | [] => []
  | c :: s' => if p c then lstrip_by p s' else s
  end.

Definition rstrip_by (p : char -> bool) (s : str) : str :=
  rev (lstrip_by p (rev s)).

Definition strip_by (p : char -> bool) (s : str) : str :=
  rstrip_by p (lstrip_by p s).

(** [s.strip()] *)
Definition strip (s : str) : str := strip_by isspace s.

(** [s.strip(chars)] *)
Definition strip_chars (chars : str) (s : str) : str :=
  strip_by (fun c => existsb (N.eqb c) chars) s.

(** [s.split()]: maximal runs of non-whitespace. *)
Fixpoint split_ws_go (s : str) (cur : str) : list str :=
  match s with
  | [] => match cur with [] => [] | _ => [rev cur] end
  | c :: s' =>
      if isspace c
      then match cur with
           | [] => split_ws_go s' []
           | _ => rev cur :: split_ws_go s' []
           end
      else split_ws_go s' (c :: cur)
  end.

Definition split (s : str) : list str := split_ws_go s [].

(** ASCII-only lowering, one possible instance of [str.lower] (exact on
    ASCII text). *)
Definition ascii_lower (s : str) : str :=
  map (fun c => if (65 <=? c) && (c <=? 90) then c + 32 else c) s.

End PyStr.
Import PyStr.

(* ===================================================================== *)
(** * Exceptions and results *)
(* ===================================================================== *)

(** The exception classes that the modelled code can raise or let through. *)
Inductive exn :=
| JSONDecodeError
| ValueError
| TypeError
| KeyError
| AttributeError
| OSError
| UnicodeEncodeError
| RecursionError
| OtherException.

Inductive result (A : Type) :=
| Ok (a : A)
| Raise (e : exn).
Arguments Ok {A} a.
Arguments Raise {A} e.

(** Sequencing: an exception skips the rest ([x ← r; k] below). *)
#[global] Instance result_bind : MBind result := fun A B k r =>
  match r with
  | Ok a => k a
  | Raise e => Raise e
  end.

(* ===================================================================== *)
(** * dict items (insertion ordered) *)
(* ===================================================================== *)

Section Dict.
Context {V : Type}.

Fixpoint dict_get (k : str) (d : list (str * V)) : option V :=
  match d with
  | [] => None
  | (k', v) :: d' => if PyStr.eqb k k' then Some v else dict_get k d'
  end.

Definition dict_has (k : str) (d : list (str * V)) : bool :=
  match dict_get k d with Some _ => true | None => false end.

(** [d[k] = v]: an existing key keeps its position, a new key goes last. *)
Fixpoint dict_set (k : str) (v : V) (d : list (str * V)) : list (str * V) :=
  match d with
  | [] => [(k, v)]
  | (k', v') :: d' =>
      if PyStr.eqb k k' then (k, v) :: d' else (k', v') :: dict_set k v d'
  end.
End Dict.

(* ===================================================================== *)
(** * JSON values, [json.dumps(_, indent=2)] and [json.loads] *)
(* ===================================================================== *)

Module Json.

(** What [json.loads] can return.  A float is kept as the text of its
    literal; [NaN], [Infinity] and [-Infinity] are floats too. *)
#[warnings="-register-all"]
Inductive json :=
| JNull
| JBool (b : bool)
| JInt (z : Z)
| JFloat (lit : str)
| JStr (s : str)
| JList (l : list json)
| JDict (d : list (str * json)).

(** Code points written as numbers below: 9 tab, 10 line feed, 13
    carriage return, 32 space, 34 double quote, 44 comma, 45 minus, 46 dot,
    47 slash, 48 to 57 the digits, 58 colon, 91 and 93 the brackets, 92
    backslash, 117 the letter u, 123 and 125 the braces. *)

(** ** Encoding *)

Definition hexdigit (n : N) : char := if n <? 10 then 48 + n else 87 + n.

(** ['{0:04x}'.format(n)] for [n < 0x10000]. *)
Definition hex4 (n : N) : str :=
  [ hexdigit (N.land (N.shiftr n 12) 15); hexdigit (N.land (N.shiftr n 8) 15);
    hexdigit (N.land (N.shiftr n 4) 15); hexdigit (N.land n 15) ].

Definition u_escape (n : N) : str := [92; 117] ++ hex4 n.

(** The replacement of one code point in [py_encode_basestring_ascii]:
    [ESCAPE_ASCII] matches backslash, double quote and every code point
    outside [' '..'~']. *)
Definition escape_char (c : char) : str :=
  if c =? 92 then [92; 92]
  else if c =? 34 then [92; 34]
  else if (32 <=? c) && (c <=? 126) then [c]
  else if c =? 8 then [92; 98]
  else if c =? 12 then [92; 102]
  else if c =? 10 then [92; 110]
  else if c =? 13 then [92; 114]
  else if c =? 9 then [92; 116]
  else if c <? 65536 then u_escape c
  else
    let n := c - 65536 in
    let s1 := N.lor 55296 (N.land (N.shiftr n 10) 1023) in
    let s2 := N.lor 56320 (N.land n 1023) in
    u_escape s1 ++ u_escape s2.

Fixpoint escape (s : str) : str :=
  match s with
  | [] => []
  | c :: s' => escape_char c ++ escape s'
  end.

Definition encode_basestring_ascii (s : str) : str := [34] ++ escape s ++ [34].

(** ['\n' + ' ' * (2 * level)] *)
Definition newline_indent (level : nat) : str := 10 :: repeat 32 (2 * level)%nat.

Definition int_repr (z : Z) : str :=
  py (DecimalString.NilZero.string_of_int (Z.to_int z)).

(** [json.dumps(v, indent=2)] at nesting level [lvl]: the item separator
    is [','] followed by the newline and indentation (written before every
    item but the first), the key separator is [': '], empty containers
    are ['[]'] and ['{}'].  A float is written as the literal it was read
    from. *)
Fixpoint dumps_at (lvl : nat) (v : json) : str :=
  match v with
  | JNull => py "null"
  | JBool true => py "true"
  | JBool false => py "false"
  | JInt z => int_repr z
  | JFloat lit => lit
  | JStr s => encode_basestring_ascii s
  | JList [] => py "[]"
  | JList (x :: xs) =>
      [91] ++ newline_indent (S lvl) ++ dumps_at (S lvl) x ++
      flat_map (fun y => 44 :: newline_indent (S lvl) ++ dumps_at (S lvl) y) xs ++
      newline_indent lvl ++ [93]
  | JDict [] => py "{}"
  | JDict ((k, x) :: xs) =>
      [123] ++ newline_indent (S lvl) ++
      encode_basestring_ascii k ++ [58; 32] ++ dumps_at (S lvl) x ++
      flat_map (fun kv => 44 :: newline_indent (S lvl) ++
                          encode_basestring_ascii (fst kv) ++
                          58 :: 32 :: dumps_at (S lvl) (snd kv)) xs ++
      newline_indent lvl ++ [125]
  end.

Definition dumps_indent2 (v : json) : str := dumps_at 0 v.

(** ** Decoding *)

(** The whitespace of JSON: space, tab, line feed, carriage return. *)
Definition is_ws (c : char) : bool :=
  (c =? 32) || (c =? 9) || (c =? 10) || (c =? 13).

Definition skip_ws (s : str) : str := lstrip_by is_ws s.

Definition hexval (c : char) : option N :=
  if (48 <=? c) && (c <=? 57) then Some (c - 48)
  else if (97 <=? c) && (c <=? 102) then Some (c - 87)
  else if (65 <=? c) && (c <=? 70) then Some (c - 55)
  else None.

Definition decode_hex4 (a b c d : char) : option N :=
  match hexval a, hexval b, hexval c, hexval d with
  | Some x, Some y, Some z, Some w => Some (((x * 16 + y) * 16 + z) * 16 + w)
  | _, _, _, _ => None
  end.

(** The [BACKSLASH] table of the decoder. *)
Definition backslash (e : char) : option char :=
  if e =? 34 then Some 34
  else if e =? 92 then Some 92
  else if e =? 47 then Some 47
  else if e =? 98 then Some 8
  else if e =? 102 then Some 12
  else if e =? 110 then Some 10
  else if e =? 114 then Some 13
  else if e =? 116 then Some 9
  else None.

Definition is_high_surrogate (c : N) : bool := (55296 <=? c) && (c <=? 56319).
Definition is_low_surrogate (c : N) : bool := (56320 <=? c) && (c <=? 57343).
Definition join_surrogates (hi lo : N) : N :=
  65536 + N.lor (N.shiftl (hi - 55296) 10) (lo - 56320).

(** [scanstring] in strict mode, started just after the opening quote:
    the decoded string and the text after the closing quote.  [None] is a
    [JSONDecodeError] (unterminated string, control character, bad
    escape). *)
Fixpoint scanstring (s : str) (acc : str) : option (str * str) :=
  match s with
  | [] => None
  | c :: r =>
      if c =? 34 then Some (rev acc, r)
      else if c =? 92 then
        match r with
        | [] => None
        | e :: r1 =>
            if e =? 117 then
              match r1 with
              | h1 :: h2 :: h3 :: h4 :: r2 =>
                  match decode_hex4 h1 h2 h3 h4 with
                  | None => None
                  | Some uni =>
                      if is_high_surrogate uni then
                        match r2 with
                        | b :: u :: g1 :: g2 :: g3 :: g4 :: r3 =>
                            if (b =? 92) && (u =? 117) then
                              match decode_hex4 g1 g2 g3 g4 with
                              | None => None
                              | Some uni2 =>
                                  if is_low_surrogate uni2
                                  then scanstring r3 (join_surrogates uni uni2 :: acc)
                                  else scanstring r2 (uni :: acc)
                              end
                            else scanstring r2 (uni :: acc)
                        | _ => scanstring r2 (uni :: acc)
                        end
                      else scanstring r2 (uni :: acc)
                  end
              | _ => None
              end
            else
              match backslash e with
              | Some x => scanstring r1 (x :: acc)
              | None => None
              end
        end
      else if c <? 32 then None
      else scanstring r (c :: acc)
  end.

Definition is_digit (c : char) : bool := (48 <=? c) && (c <=? 57).

Fixpoint span_digits (s : str) : str * str :=
  match s with
  | c :: r => if is_digit c then let '(ds, r') := span_digits r in (c :: ds, r') else ([], s)
  | [] => ([], [])
  end.

Definition digits_value (ds : str) : Z :=
  fold_left (fun acc c => (acc * 10 + Z.of_N (c - 48))%Z) ds 0%Z.

(** [NUMBER_RE]: an optional minus sign, then a single zero or a non-zero
    digit followed by digits; then optionally a dot and one or more
    digits; then optionally [e] or [E], an optional sign and one or more
    digits.  A literal with a fraction or an exponent is a float. *)
Definition match_integer (s : str) : option (bool * str * str) :=
  let '(neg, s1) :=
    match s with
    | c :: r => if c =? 45 then (true, r) else (false, s)
    | [] => (false, s)
    end in
  match s1 with
  | d :: r =>
      if d =? 48 then Some (neg, [d], r)
      else if is_digit d then let '(ds, r') := span_digits r in Some (neg, d :: ds, r')
      else None
  | [] => None
  end.

Definition match_frac (s : str) : option (str * str) :=
  match s with
  | dot :: d :: r =>
      if (dot =? 46) && is_digit d
      then let '(ds, r') := span_digits (d :: r) in Some (dot :: ds, r')
      else None
  | _ => None
  end.

Definition match_exp (s : str) : option (str * str) :=
  match s with
  | e :: r =>
      if (e =? 101) || (e =? 69) then
        let '(sign, r1) :=
          match r with
          | c :: r' => if (c =? 43) || (c =? 45) then ([c], r') else ([], r)
          | [] => ([], r)
          end in
        match span_digits r1 with
        | ([], _) => None
        | (ds, r2) => Some (e :: sign ++ ds, r2)
        end
      else None
  | [] => None
  end.

Definition match_number (s : str) : option (json * str) :=
  match match_integer s with
  | None => None
  | Some (neg, ds, r) =>
      let sign := if neg then [45] else [] in
      let '(frac, r1) := match match_frac r with Some (f, r') => (f, r') | None => ([], r) end in
      let '(ex, r2) := match match_exp r1 with Some (x, r') => (x, r') | None => ([], r1) end in
      match frac, ex with
      | [], [] => Some (JInt (if neg then - digits_value ds else digits_value ds)%Z, r2)
      | _, _ => Some (JFloat (sign ++ ds ++ frac ++ ex), r2)
      end
  end.

Definition strip_prefix (p s : str) : option str :=
  if startswith p s then Some (skipn (length p) s) else None.

Definition match_constant (s : str) : option (json * str) :=
  match strip_prefix (py "null") s with Some r => Some (JNull, r) | None =>
  match strip_prefix (py "true") s with Some r => Some (JBool true, r) | None =>
  match strip_prefix (py "false") s with Some r => Some (JBool false, r) | None =>
  match match_number s with Some x => Some x | None =>
  match strip_prefix (py "NaN") s with Some r => Some (JFloat (py "NaN"), r) | None =>
  match strip_prefix (py "Infinity") s with Some r => Some (JFloat (py "Infinity"), r) | None =>
  match strip_prefix (py "-Infinity") s with Some r => Some (JFloat (py "-Infinity"), r) | None =>
  None
  end end end end end end end.

(** [scan_once], [JSONArray] and [JSONObject].  The fuel bounds the number
    of nested calls; [None] is a [JSONDecodeError].  A repeated key keeps
    its first position and its last value, as [dict] does. *)
Fixpoint parse_value (fuel : nat) (s : str) : option (json * str) :=
  match fuel with
  | O => None
  | S fuel' =>
      match s with
      | [] => None
      | c :: r =>
          if c =? 34 then
            match scanstring r [] with
            | Some (x, r') => Some (JStr x, r')
            | None => None
            end
          else if c =? 123 then
            match skip_ws r with
            | c' :: r' =>
                if c' =? 125 then Some (JDict [], r') else parse_members fuel' (c' :: r') []
            | [] => None
            end
          else if c =? 91 then
            match skip_ws r with
            | c' :: r' =>
                if c' =? 93 then Some (JList [], r') else parse_elems fuel' (c' :: r') []
            | [] => None
            end
          else match_constant s
      end
  end
with parse_elems (fuel : nat) (s : str) (acc : list json) : option (json * str) :=
  match fuel with
  | O => None
  | S fuel' =>
      match parse_value fuel' s with
      | None => None
      | Some (v, r) =>
          match skip_ws r with
          | c :: r' =>
              if c =? 93 then Some (JList (acc ++ [v]), r')
              else if c =? 44 then parse_elems fuel' (skip_ws r') (acc ++ [v])
              else None
          | [] => None
          end
      end
  end
with parse_members (fuel : nat) (s : str) (acc : list (str * json)) : option (json * str) :=
  match fuel with
  | O => None
  | S fuel' =>
      match s with
      | q :: r =>
          if q =? 34 then
            match scanstring r [] with
            | None => None
            | Some (k, r1) =>
                match skip_ws r1 with
                | colon :: r2 =>
                    if colon =? 58 then
                      match parse_value fuel' (skip_ws r2) with
                      | None => None
                      | Some (v, r3) =>
                          match skip_ws r3 with
                          | c :: r4 =>
                              if c =? 125 then Some (JDict (dict_set k v acc), r4)
                              else if c =? 44 then parse_members fuel' (skip_ws r4) (dict_set k v acc)
                              else None
                          | [] => None
                          end
                      end
                    else None
                | [] => None
                end
            end
          else None
      | [] => None
      end
  end.

Definition loads_fuel (s : str) : nat := 2 * length s + 2.

(** [json.loads(s)] for a [str], without the limits of the interpreter
    (depth of recursion, number of digits of an integer);
    [Runtime.json_loads] below has them. *)
Definition loads (s : str) : result json :=
  if startswith [65279] s then Raise JSONDecodeError
  else
    match parse_value (loads_fuel s) (skip_ws s) with
    | None => Raise JSONDecodeError
    | Some (v, r) =>
        match skip_ws r with
        | [] => Ok v
        | _ :: _ => Raise JSONDecodeError
        end
    end.

End Json.
Import Json.

(* ===================================================================== *)
(** * The heap of shared objects *)
(* ===================================================================== *)

Module Heap.

Abbreviation loc := nat.

(** A Python value: an immutable string, or a reference to a dict or a
    list that lives in the heap (so that two holders of the reference see
    each other's updates). *)
Inductive pyval :=
| PStr (s : str)
| PRef (l : loc).

Inductive pyobj :=
| ODict (items : list (str * pyval))
| OList (elems : list pyval).

Abbreviation heap := (list pyobj).

(** Heap-passing computations that may raise; the heap written so far
    survives an exception. *)
Definition M (A : Type) : Type := heap -> result A * heap.

#[global] Instance M_ret : MRet M := fun A a h => (Ok a, h).
#[global] Instance M_bind : MBind M := fun A B k m h =>
  match m h with
  | (Ok a, h') => k a h'
  | (Raise e, h') => (Raise e, h')
  end.

#[global] Instance M_fmap : FMap M := fun A B f m h =>
  match m h with
  | (Ok a, h') => (Ok (f a), h')
  | (Raise e, h') => (Raise e, h')
  end.

Definition raise {A} (e : exn) : M A := fun h => (Raise e, h).

Definition alloc (o : pyobj) : M pyval := fun h => (Ok (PRef (length h)), h ++ [o]).

Definition deref (v : pyval) : M (option pyobj) := fun h =>
  match v with
  | PStr _ => (Ok None, h)
  | PRef l => (Ok (h !! l), h)
  end.

(** [v.copy()]: a new object with the same items (a shallow copy). *)
Definition copy (v : pyval) : M pyval :=
  o ← deref v;
  match o with
  | Some o => alloc o
  | None => raise AttributeError
  end.

(** [v[k] = x] *)
Definition setitem (v : pyval) (k : str) (x : pyval) : M unit := fun h =>
  match v with
  | PRef l =>
      match h !! l with
      | Some (ODict items) => (Ok tt, <[l := ODict (dict_set k x items)]> h)
      | _ => (Raise TypeError, h)
      end
  | PStr _ => (Raise TypeError, h)
  end.

(** [v[k]] *)
Definition getitem (v : pyval) (k : str) : M pyval :=
  o ← deref v;
  match o with
  | Some (ODict items) =>
      match dict_get k items with
      | Some x => mret x
      | None => raise KeyError
      end
  | _ => raise TypeError
  end.

(** The values a [for] loop over [v] visits. *)
Definition iterate (v : pyval) : M (list pyval) :=
  o ← deref v;
  match v, o with
  | PStr s, _ => mret (map (fun c => PStr [c]) s)
  | _, Some (OList elems) => mret elems
  | _, Some (ODict items) => mret (map (fun kv => PStr (fst kv)) items)
  | _, None => raise TypeError
  end.

(** [a == b] where [b] is a string. *)
Definition eq_str (a : pyval) (b : str) : bool :=
  match a with
  | PStr s => PyStr.eqb s b
  | PRef _ => false
  end.

Fixpoint for_each {A} (xs : list A) (body : A -> M unit) : M unit :=
  match xs with
  | [] => mret tt
  | x :: xs' => _ ← body x; for_each xs' body
  end.

(** The JSON value reachable from [v]; the fuel runs out only on a
    circular structure. *)
Fixpoint reify (fuel : nat) (h : heap) (v : pyval) : option json :=
  match v with
  | PStr s => Some (JStr s)
  | PRef l =>
      match fuel with
      | O => None
      | S fuel' =>
          match h !! l with
          | Some (ODict items) =>
              JDict <$> mapM (fun kv => pair (fst kv) <$> reify fuel' h (snd kv)) items
          | Some (OList elems) => JList <$> mapM (reify fuel' h) elems
          | None => None
          end
      end
  end.

(** [json.dumps(v, indent=2)]; a circular structure is a [ValueError]. *)
Definition json_dumps (v : pyval) : M str := fun h =>
  match reify (S (length h)) h v with
  | Some j => (Ok (dumps_indent2 j), h)
  | None => (Raise ValueError, h)
  end.

End Heap.
Import Heap.

(* ===================================================================== *)
(** * class MistralPlanner *)
(* ===================================================================== *)

Module MistralPlanner.

(** The planner object: [self.fallback_structure] is a reference that is
    never reassigned; what it points to is in the heap. *)
Record t := { fallback_structure : pyval }.

(** [__init__]: the fallback blueprint is built once.  The three file
    dicts, the folder list, the file list and the top-level dict are six
    objects of the heap. *)
Definition init : M t :=
  folders ← alloc (OList [PStr (py "src"); PStr (py "tests"); PStr (py "docs")]);
  f0 ← alloc (ODict
    [ (py "path", PStr (py "src/main.py"));
      (py "description", PStr (py "Main application entry point"));
      (py "copilot_prompt",
       PStr (py "Create a Python main.py file that serves as the entry point for the application")) ]);
  f1 ← alloc (ODict
    [ (py "path", PStr (py "tests/test_main.py"));
      (py "description", PStr (py "Unit tests for main module"));
      (py "copilot_prompt", PStr (py "Create pytest unit tests for the main.py module")) ]);
  f2 ← alloc (ODict
    [ (py "path", PStr (py "README.md"));
      (py "description", PStr (py "Project documentation"));
      (py "copilot_prompt", PStr (py "Create a comprehensive README.md file for this project")) ]);
  files ← alloc (OList [f0; f1; f2]);
  top ← alloc (ODict
    [ (py "folders", folders);
      (py "files", files);
      (py "interactions",
       PStr (py "Basic project structure with main application file, tests, and documentation."));
      (py "test_command", PStr (py "pytest tests")) ]);
  mret {| fallback_structure := top |}.

(** The dict display of the web branch (a fresh object that nothing else
    references, given by its value). *)
Definition web_structure (topic : str) : json :=
  JDict
    [ (py "folders",
       JList [JStr (py "src"); JStr (py "assets"); JStr (py "css"); JStr (py "js"); JStr (py "tests")]);
      (py "files",
       JList
         [ JDict
             [ (py "path", JStr (py "src/index.html"));
               (py "description", JStr (py "Main HTML file for " ++ topic));
               (py "copilot_prompt",
                JStr (py "Create a complete HTML5 webpage for " ++ topic ++
                      py " with modern structure and semantic elements")) ];
           JDict
             [ (py "path", JStr (py "css/style.css"));
               (py "description", JStr (py "Main stylesheet"));
               (py "copilot_prompt",
                JStr (py "Create modern, responsive CSS styles for " ++ topic ++
                      py " webpage with animations and good typography")) ];
           JDict
             [ (py "path", JStr (py "js/main.js"));
               (py "description", JStr (py "Main JavaScript functionality"));
               (py "copilot_prompt",
                JStr (py "Create JavaScript code for " ++ topic ++
                      py " with interactive features and modern ES6+ syntax")) ] ]);
      (py "interactions",
       JStr (py "A web project for " ++ topic ++
             py " with HTML structure, CSS styling, and JavaScript functionality working together to create an interactive website."));
      (py "test_command", JStr []) ].

(** The dict display of the backend branch. *)
Definition api_structure (topic : str) : json :=
  JDict
    [ (py "folders", JList [JStr (py "src"); JStr (py "tests"); JStr (py "config")]);
      (py "files",
       JList
         [ JDict
             [ (py "path", JStr (py "src/app.py"));
               (py "description", JStr (py "Main application server for " ++ topic));
               (py "copilot_prompt",
                JStr (py "Create a FastAPI or Flask server application for " ++ topic ++
                      py " with RESTful endpoints")) ];
           JDict
             [ (py "path", JStr (py "src/models.py"));
               (py "description", JStr (py "Data models"));
               (py "copilot_prompt",
                JStr (py "Create Pydantic or SQLAlchemy models for " ++ topic ++ py " application")) ];
           JDict
             [ (py "path", JStr (py "tests/test_app.py"));
               (py "description", JStr (py "API tests"));
               (py "copilot_prompt",
                JStr (py "Create comprehensive pytest tests for " ++ topic ++ py " API endpoints")) ] ]);
      (py "interactions",
       JStr (py "A backend API for " ++ topic ++ py " with models, endpoints, and tests working together."));
      (py "test_command", JStr (py "pytest tests")) ].

Definition web_words : list str := [py "web"; py "website"; py "html"; py "css"; py "js"].
Definition api_words : list str := [py "api"; py "server"; py "backend"].

Section WithLower.
(** [str.lower], the full Unicode lowering of the Python runtime. *)
Variable lower : str -> str.

(** The generic branch: a shallow copy of the shared fallback dict whose
    file dicts are then updated in place. *)
Definition generic_fallback (self : t) (topic : str) : M str :=
  structure ← copy (fallback_structure self);
  _ ← setitem structure (py "interactions")
        (PStr (py "A Python project for " ++ topic ++
               py " with main application, tests, and documentation."));
  files ← getitem structure (py "files");
  file_objs ← iterate files;
  _ ← for_each file_objs (fun file_obj =>
        path ← getitem file_obj (py "path");
        if eq_str path (py "src/main.py")
        then setitem file_obj (py "copilot_prompt")
               (PStr (py "Create a Python application for " ++ topic ++
                      py " with proper structure and functionality"))
        else mret tt);
  json_dumps structure.

(** [_get_fallback_structure] *)
Definition _get_fallback_structure (self : t) (topic : str) : M str :=
  let topic_lower := lower topic in
  if existsb (fun word => contains word topic_lower) web_words
  then mret (dumps_indent2 (web_structure topic))
  else if existsb (fun word => contains word topic_lower) api_words
  then mret (dumps_indent2 (api_structure topic))
  else generic_fallback self topic.

(** What one pass through the [try] body of [ask] does: it returns the
    content of the first choice, or raises.  [ApiRequestException] stands
    for every [RequestException] other than a timeout (connection errors,
    an HTTP error status, and in the versions of the library where it is
    one, a response body that is not JSON); [ApiOtherException] for the
    exceptions that no handler of [ask] catches. *)
Inductive api_result :=
| ApiContent (content : str)
| ApiTimeout
| ApiRequestException
| ApiKeyOrIndexError
| ApiOtherException (e : exn).

(** The remote service: the outcome of attempt [attempt] issued with
    timeout [timeout]. *)
Definition api := nat -> Z -> api_result.

Definition timeouts : list Z := [30; 60; 90]%Z.

(** The [for attempt, timeout in enumerate(timeouts, 1)] loop of [ask];
    [None] is the value of a call whose loop ends without [return]. *)
Fixpoint ask_loop (self : t) (topic : str) (remote : api) (total : nat)
    (attempt : nat) (ts : list Z) : M (option str) :=
  match ts with
  | [] => mret None
  | timeout :: ts' =>
      match remote attempt timeout with
      | ApiContent content => mret (Some (strip content))
      | ApiTimeout | ApiRequestException | ApiKeyOrIndexError =>
          if (attempt =? total)%nat
          then Some <$> _get_fallback_structure self topic
          else ask_loop self topic remote total (S attempt) ts'
      | ApiOtherException e => raise e
      end
  end.

Definition ask (self : t) (topic : str) (remote : api) : M (option str) :=
  ask_loop self topic remote (length timeouts) 1 timeouts.
End WithLower.

(** ** Validation of a parsed blueprint *)

(** [key in container] *)
Definition py_in (key : str) (container : json) : result bool :=
  match container with
  | JDict d => Ok (dict_has key d)
  | JList l => Ok (existsb (fun x => match x with JStr s => PyStr.eqb key s | _ => false end) l)
  | JStr s => Ok (contains key s)
  | _ => Raise TypeError
  end.

(** [container[key] = value] *)
Definition py_setitem (container : json) (key : str) (value : json) : result json :=
  match container with
  | JDict d => Ok (JDict (dict_set key value d))
  | _ => Raise TypeError
  end.

(** [container[key]] *)
Definition py_getitem (container : json) (key : str) : result json :=
  match container with
  | JDict d => match dict_get key d with Some v => Ok v | None => Raise KeyError end
  | _ => Raise TypeError
  end.

(** The values a [for] loop over a parsed value visits. *)
Definition py_iter (v : json) : result (list json) :=
  match v with
  | JList l => Ok l
  | JDict d => Ok (map (fun kv => JStr (fst kv)) d)
  | JStr s => Ok (map (fun c => JStr [c]) s)
  | _ => Raise TypeError
  end.

Definition required_keys : list str := [py "path"; py "description"; py "copilot_prompt"].

(** [all(key in file_obj for key in keys)], left to right, stopping at the
    first missing key. *)
Fixpoint all_keys_in (keys : list str) (file_obj : json) : result bool :=
  match keys with
  | [] => Ok true
  | key :: keys' =>
      b ← py_in key file_obj;
      if b : bool then all_keys_in keys' file_obj else Ok false
  end.

Fixpoint validate_files (file_objs : list json) : result unit :=
  match file_objs with
  | [] => Ok tt
  | file_obj :: rest =>
      b ← all_keys_in required_keys file_obj;
      if b : bool then validate_files rest else Raise ValueError
  end.

Definition default_if_missing (key : str) (value : json) (structure : json) : result json :=
  b ← py_in key structure;
  if b : bool then Ok structure else py_setitem structure key value.

(** The part of [parse_structure] after [json.loads]. *)
Definition validate (structure : json) : result json :=
  structure ← default_if_missing (py "folders") (JList []) structure;
  structure ← default_if_missing (py "files") (JList []) structure;
  structure ← default_if_missing (py "interactions") (JStr []) structure;
  files ← py_getitem structure (py "files");
  file_objs ← py_iter files;
  _ ← validate_files file_objs;
  Ok structure.

(** The cleaning of the response text before [json.loads]. *)
Definition clean_response (json_string : str) : str :=
  let json_string := strip json_string in
  let json_string :=
    if startswith (py "```json") json_string then skipn 7 json_string else json_string in
  if endswith (py "```") json_string
  then firstn (length json_string - 3) json_string
  else json_string.

(** [parse_structure]: both handlers print and re-raise.  The messages
    are left out here; [Runtime.parse_structure] below has them, with
    the limits of the interpreter. *)
Definition parse_structure (json_string : str) : result json :=
  structure ← loads (clean_response json_string);
  validate structure.

(** Blueprint acquisition as [main] performs it: [ask], then
    [parse_structure] on what [ask] returned ([None.strip()] is an
    [AttributeError]). *)
Definition acquire_blueprint (lower : str -> str) (self : t) (topic : str)
    (remote : api) : M json :=
  @mbind M _ _ _ (fun json_response : option str =>
    match json_response return M json with
    | Some text => fun h => (parse_structure text, h)
    | None => raise AttributeError
    end) (ask lower self topic remote).

End MistralPlanner.

(* ===================================================================== *)
(** * class StructureCreator *)
(* ===================================================================== *)

Module StructureCreator.

(** The character class of the regular expression in [_sanitize_name]:
    [<], [>], [:], the double quote, [/], the backslash, [|], [?], [*]. *)
Definition illegal_chars : str := [60; 62; 58; 34; 47; 92; 124; 63; 42].

Definition is_illegal (c : char) : bool := existsb (N.eqb c) illegal_chars.

(** [re.sub(class, '_', name)] *)
Definition replace_illegal (name : str) : str :=
  map (fun c => if is_illegal c then 95 else c) name.

(** [_sanitize_name] *)
Definition _sanitize_name (name : str) : str :=
  let sanitized := replace_illegal name in
  let sanitized := strip_chars (py ". ") sanitized in
  firstn 50 sanitized.

(** ** The file system

    An absolute path is the list of its components below the root; the
    file system maps the paths that exist to what they are.  The root
    itself always exists.  Permissions and links are not modelled. *)
Definition path := list str.

Inductive node :=
| Dir
| File (content : str).

Abbreviation filesystem := (gmap path node).

Definition kind (fs : filesystem) (p : path) : option node :=
  match p with
  | [] => Some Dir
  | _ => fs !! p
  end.

(** [p.exists()] *)
Definition exists_ (fs : filesystem) (p : path) : bool :=
  match kind fs p with Some _ => true | None => false end.

(** The components of a path segment: split at [/], empty components and
    [.] dropped. *)
Fixpoint split_slash (s : str) (cur : str) : list str :=
  match s with
  | [] => [rev cur]
  | c :: s' => if c =? 47 then rev cur :: split_slash s' [] else split_slash s' (c :: cur)
  end.

Definition parts (seg : str) : list str :=
  filter (fun c => c ≠ [] ∧ c ≠ py ".") (split_slash seg []).

(** [p / seg] for a string [seg] (POSIX flavour): an absolute segment
    replaces [p], an empty one leaves it unchanged. *)
Definition div (p : path) (seg : str) : path :=
  if startswith [47] seg then parts seg else p ++ parts seg.

(** [shutil.rmtree(p)]: the directory and everything below it go away. *)
Definition rmtree (p : path) (fs : filesystem) : result filesystem :=
  match kind fs p with
  | Some Dir => Ok (filter (fun kv => ¬ (p `prefix_of` kv.1)) fs)
  | Some (File _) => Raise OSError
  | None => Raise OSError
  end.

(** [p.mkdir(parents=True, exist_ok=True)]: every missing directory on the
    way is created; a file in the way is an error. *)
Fixpoint mkdir_from (base : path) (rest : list str) (fs : filesystem) : result filesystem :=
  match rest with
  | [] => Ok fs
  | c :: rest' =>
      let q := base ++ [c] in
      match kind fs q with
      | Some Dir => mkdir_from q rest' fs
      | Some (File _) => Raise OSError
      | None => mkdir_from q rest' (<[q := Dir]> fs)
      end
  end.

Definition mkdir_parents (p : path) (fs : filesystem) : result filesystem :=
  mkdir_from [] p fs.

(** What the conversion of a path for the operating system does with a
    name (POSIX, file system encoding UTF-8 with [surrogateescape]): a
    surrogate outside U+DC80..U+DCFF cannot be encoded, which is a
    [UnicodeEncodeError]; a name with a NUL in it is a [ValueError]. *)
Definition fs_encodable (c : char) : bool :=
  negb ((55296 <=? c) && (c <=? 57343)) || ((56448 <=? c) && (c <=? 56575)).

Definition os_name_error (name : str) : option exn :=
  if negb (forallb fs_encodable name) then Some UnicodeEncodeError
  else if existsb (N.eqb 0) name then Some ValueError
  else None.

(** The first steps of [create_structure], up to and including the
    creation of the project folder: the name, the path, the removal of an
    existing project and [mkdir].  The folders, files and README that
    follow are all written below [project_path].  The desktop folder is a
    path of the file system; the name made from the topic is not, and
    [mkdir] raises when the operating system cannot take it ([exists()]
    answers [False] for such a name, which no file system holds). *)
Definition create_project_folder (desktop_path : path) (topic : str)
    (fs : filesystem) : result (path * filesystem) :=
  let project_name := _sanitize_name topic in
  let project_path := div desktop_path project_name in
  fs ← (if exists_ fs project_path then rmtree project_path fs else Ok fs);
  fs ← match os_name_error project_name with
       | Some e => Raise e
       | None => mkdir_parents project_path fs
       end;
  Ok (project_path, fs).

End StructureCreator.

(* ===================================================================== *)
(** * class TestRunner *)
(* ===================================================================== *)

Module TestRunner.
Import StructureCreator.

(** What [subprocess.run] does when called: it completes with a return
    code and the captured output, or raises. *)
Inductive run_result :=
| Completed (returncode : Z) (stdout stderr : str)
| TimeoutExpired
| RunException.

(** What the outside world does during one attempt: the outcome of the
    test command, whether writing the error file raises, and whether the
    keystroke automation of [_fix_with_copilot] raises. *)
Record attempt_env := {
  run : run_result;
  write_raises : bool;
  fix_raises : bool
}.

(** The calls made by [run_tests], in order. *)
Inductive event :=
| ERun (argv : list str)
| ECreateErrorFixFile (content : str)
| EFixWithCopilot.

Definition is_run (e : event) : bool := match e with ERun _ => true | _ => false end.
Definition is_fix (e : event) : bool := match e with EFixWithCopilot => true | _ => false end.

Definition executions (tr : list event) : nat := length (filter is_run tr).
Definition fix_invocations (tr : list event) : nat := length (filter is_fix tr).

(** The text written by [_create_error_fix_file]. *)
Definition error_fix_content (stderr stdout : str) : str :=
  py "# Fix Prompt: The following errors occurred during testing. Please analyze and fix the issues:"
  ++ [10; 10] ++ py "## STDERR:" ++ [10] ++ stderr ++ [10; 10]
  ++ py "## STDOUT:" ++ [10] ++ stdout ++ [10; 10]
  ++ py "## Instructions:" ++ [10]
  ++ py "Please identify the root cause of these errors and provide fixes for the relevant files."
  ++ [10]
  ++ py "Focus on syntax errors, missing imports, incorrect function signatures, and logical issues."
  ++ [10].

(** The [for attempt in range(max_attempts)] loop with [n] iterations
    left; every exception inside the [try] block ends the call with
    [False]. *)
Fixpoint attempts (n : nat) (attempt : nat) (argv : list str)
    (env : nat -> attempt_env) (tr : list event) : bool * list event :=
  match n with
  | O => (false, tr)
  | S n' =>
      let e := env attempt in
      let tr := tr ++ [ERun argv] in
      match run e with
      | Completed returncode stdout stderr =>
          if (returncode =? 0)%Z then (true, tr)
          else
            let tr := tr ++ [ECreateErrorFixFile (error_fix_content stderr stdout)] in
            if write_raises e then (false, tr)
            else
              let tr := tr ++ [EFixWithCopilot] in
              if fix_raises e then (false, tr)
              else attempts n' (S attempt) argv env tr
      | TimeoutExpired => (false, tr)
      | RunException => (false, tr)
      end
  end.

(** [run_tests]: the result and the calls made.  [fs] is the file system
    when the call starts. *)
Definition run_tests (lower : str -> str) (project_path : path) (fs : filesystem)
    (test_command : str) (max_attempts : Z) (env : nat -> attempt_env)
    : bool * list event :=
  match test_command with
  | [] => (true, [])
  | _ =>
      if contains (py "npm") (lower test_command)
         && negb (exists_ fs (div project_path (py "package.json")))
      then (true, [])
      else attempts (Z.to_nat max_attempts) 0 (split test_command) env []
  end.

End TestRunner.

(* ===================================================================== *)
(** * [main]: reading the topic *)
(* ===================================================================== *)

(** The first steps of [main]: the line read from the user is stripped of
    whitespace, and an empty topic ends the run ([None]) before anything
    is planned or created. *)
Definition main_topic (line : str) : option str :=
  match strip line with
  | [] => None
  | topic => Some topic
  end.

(* ===================================================================== *)
(** * Notions used to state the properties *)
(* ===================================================================== *)

Module Props.
Import MistralPlanner StructureCreator TestRunner.

(** The test command ran to completion with a non-zero return code, and
    the two steps of the fix that follows returned normally. *)
Definition fails_and_is_fixed (e : attempt_env) : Prop :=
  (∃ returncode stdout stderr,
      run e = Completed returncode stdout stderr ∧ returncode ≠ 0%Z)
  ∧ write_raises e = false ∧ fix_raises e = false.

(** The test command ran to completion with return code 0. *)
Definition passes (e : attempt_env) : Prop :=
  ∃ stdout stderr, run e = Completed 0 stdout stderr.

(** The command is not one that [run_tests] skips: it is not empty, and
    if it mentions npm then [package.json] exists in the project. *)
Definition is_executed (lower : str -> str) (project_path : path)
    (fs : filesystem) (test_command : str) : Prop :=
  test_command ≠ [] ∧
  (contains (py "npm") (lower test_command) = false ∨
   exists_ fs (div project_path (py "package.json")) = true).

(** An environment in which the test command exits with code 1 every
    time and the fix steps return normally. *)
Definition always_failing (_ : nat) : attempt_env :=
  {| run := Completed 1 [] (py "1 failed"); write_raises := false; fix_raises := false |}.

(** An environment in which the test command fails once and then
    passes. *)
Definition fails_once (attempt : nat) : attempt_env :=
  match attempt with
  | O => {| run := Completed 1 [] (py "1 failed"); write_raises := false; fix_raises := false |}
  | _ => {| run := Completed 0 (py "1 passed") []; write_raises := false; fix_raises := false |}
  end.

(** A topic of 51 characters: 49 letters [a], a space, a letter [b]. *)
Definition topic_with_space_at_50 : str := repeat 97 49 ++ py " b".

(** The desktop folder and the folders above it exist. *)
Definition desktop_exists (fs : filesystem) (desktop_path : path) : Prop :=
  ∀ q, q `prefix_of` desktop_path → q ≠ [] → fs !! q = Some Dir.

(** A desktop folder that holds a document. *)
Definition desktop_with_document : filesystem :=
  list_to_map
    [ ([py "home"], Dir);
      ([py "home"; py "Desktop"], Dir);
      ([py "home"; py "Desktop"; py "thesis.txt"], File (py "chapter 1")) ].

(** A dict that has the three keys required of a file object. *)
Definition has_required_keys (f : list (str * json)) : bool :=
  forallb (fun key => dict_has key f) required_keys.

(** A file object that carries the three required keys. *)
Definition complete_file (x : json) : Prop :=
  ∃ f, x = JDict f ∧ has_required_keys f = true.

(** A dict to which a default is added, at the end, when the key is
    missing. *)
Definition with_default (key : str) (value : json) (d : list (str * json))
    : list (str * json) :=
  if dict_has key d then d else d ++ [(key, value)].

(** The [files] entry of a top-level dict, when there is one, is a list
    of complete file objects. *)
Definition files_complete (d : list (str * json)) : Prop :=
  match dict_get (py "files") d with
  | None => True
  | Some v => ∃ files, v = JList files ∧ Forall complete_file files
  end.

(** A blueprint whose only file has the empty string as its path. *)
Definition blueprint_with_empty_path : json :=
  JDict
    [ (py "folders", JList [JStr (py "src")]);
      (py "files",
       JList [ JDict [ (py "path", JStr []);
                       (py "description", JStr (py "Entry point"));
                       (py "copilot_prompt", JStr (py "Create the entry point")) ] ]);
      (py "interactions", JStr (py "One file.")) ].

(** An attempt of [ask] that ends in one of the three handlers. *)
Definition handled_failure (r : api_result) : Prop :=
  r = ApiTimeout ∨ r = ApiRequestException ∨ r = ApiKeyOrIndexError.

(** A remote service that answers at once with a text that is not JSON. *)
Definition remote_not_json : api :=
  fun _ _ => ApiContent (py "Sure! Here is your project plan.").

(** A remote service that never answers in time. *)
Definition remote_down : api := fun _ _ => ApiTimeout.

(** The three defaults, in the order of the source. *)
Definition filled (d : list (str * json)) : list (str * json) :=
  with_default (py "interactions") (JStr [])
    (with_default (py "files") (JList [])
       (with_default (py "folders") (JList []) d)).

(** The planner object that [MistralPlanner(api_key)] returns in an empty
    heap, and the heap it leaves. *)
Definition new_planner : t := {| fallback_structure := PRef 5%nat |}.
Definition new_heap : heap := (init []).2.

(** ** What [json.loads] gives back for [json.dumps] *)

(** The string read back from the encoding of [s]: a code point above
    the BMP comes back from its surrogate pair, and a high surrogate
    followed by a low surrogate comes back as the single code point they
    encode. *)
Fixpoint recode (s : str) : str :=
  match s with
  | [] => []
  | c :: s' =>
      if 65536 <=? c then
        join_surrogates (N.lor 55296 (N.land (N.shiftr (c - 65536) 10) 1023))
                        (N.lor 56320 (N.land (c - 65536) 1023)) :: recode s'
      else if is_high_surrogate c then
        match s' with
        | c2 :: s'' =>
            if is_low_surrogate c2 then join_surrogates c c2 :: recode s''
            else c :: recode s'
        | [] => [c]
        end
      else c :: recode s'
  end.

(** The value read back from the encoding of a value made of strings,
    lists and dicts. *)
Fixpoint norm (v : json) : json :=
  match v with
  | JStr s => JStr (recode s)
  | JList l => JList (map norm l)
  | JDict d => JDict (fold_left (fun acc kv => dict_set (recode (fst kv)) (norm (snd kv)) acc) d [])
  | _ => v
  end.

(** Values made of strings, lists and dicts only. *)
Fixpoint str_tree (v : json) : bool :=
  match v with
  | JStr _ => true
  | JList l => forallb str_tree l
  | JDict d => forallb (fun kv => str_tree (snd kv)) d
  | _ => false
  end.

(** Fuel that is enough to read a value back. *)
Fixpoint need (v : json) : nat :=
  match v with
  | JList l => S (list_sum (map (fun x => S (need x)) l))
  | JDict d => S (list_sum (map (fun kv => S (need (snd kv))) d))
  | _ => 1
  end.

(** The bytes after a lone high surrogate do not continue it: if they
    are a [\u] escape, it is not one of a low surrogate. *)
Definition no_low_escape (r : str) : Prop :=
  ∀ g1 g2 g3 g4 r3,
    r = 92 :: 117 :: g1 :: g2 :: g3 :: g4 :: r3 →
    ∃ uni2, decode_hex4 g1 g2 g3 g4 = Some uni2 ∧ is_low_surrogate uni2 = false.

Definition high_unit (c : N) : N := N.lor 55296 (N.land (N.shiftr (c - 65536) 10) 1023).
Definition low_unit (c : N) : N := N.lor 56320 (N.land (c - 65536) 1023).

(** What reading one value back means, for every nesting level, fuel and
    following text. *)
Definition reads_back (v : json) : Prop :=
  str_tree v = true → ∀ lvl fuel rest, (need v ≤ fuel)%nat →
  parse_value fuel (dumps_at lvl v ++ rest) = Some (norm v, rest).

(** ** The heap of the planner *)

Definition initial_main_prompt : str :=
  py "Create a Python main.py file that serves as the entry point for the application".

(** What the generic branch writes into the main file's dict and into
    its copy of the top-level dict. *)
Definition generic_main_prompt (topic : str) : str :=
  py "Create a Python application for " ++ topic ++
  py " with proper structure and functionality".

Definition generic_interactions (topic : str) : str :=
  py "A Python project for " ++ topic ++
  py " with main application, tests, and documentation.".

(** The six objects built by [__init__], with [prompt] as the current
    [copilot_prompt] of the main file. *)
Definition base_heap (prompt : str) : heap :=
  [ OList [PStr (py "src"); PStr (py "tests"); PStr (py "docs")];
    ODict [ (py "path", PStr (py "src/main.py"));
            (py "description", PStr (py "Main application entry point"));
            (py "copilot_prompt", PStr prompt) ];
    ODict [ (py "path", PStr (py "tests/test_main.py"));
            (py "description", PStr (py "Unit tests for main module"));
            (py "copilot_prompt", PStr (py "Create pytest unit tests for the main.py module")) ];
    ODict [ (py "path", PStr (py "README.md"));
            (py "description", PStr (py "Project documentation"));
            (py "copilot_prompt",
             PStr (py "Create a comprehensive README.md file for this project")) ];
    OList [PRef 1%nat; PRef 2%nat; PRef 3%nat];
    ODict [ (py "folders", PRef 0%nat);
            (py "files", PRef 4%nat);
            (py "interactions",
             PStr (py "Basic project structure with main application file, tests, and documentation."));
            (py "test_command", PStr (py "pytest tests")) ] ].

(** The copy of the top-level dict that one call of the generic branch
    leaves in the heap. *)
Definition generic_copy_items (topic : str) : list (str * pyval) :=
  [ (py "folders", PRef 0%nat);
    (py "files", PRef 4%nat);
    (py "interactions", PStr (generic_interactions topic));
    (py "test_command", PStr (py "pytest tests")) ].

Definition generic_copy (topic : str) : pyobj := ODict (generic_copy_items topic).

(** The blueprint that the generic branch serializes. *)
Definition generic_structure (topic : str) : json :=
  JDict
    [ (py "folders", JList [JStr (py "src"); JStr (py "tests"); JStr (py "docs")]);
      (py "files",
       JList
         [ JDict [ (py "path", JStr (py "src/main.py"));
                   (py "description", JStr (py "Main application entry point"));
                   (py "copilot_prompt", JStr (generic_main_prompt topic)) ];
           JDict [ (py "path", JStr (py "tests/test_main.py"));
                   (py "description", JStr (py "Unit tests for main module"));
                   (py "copilot_prompt",
                    JStr (py "Create pytest unit tests for the main.py module")) ];
           JDict [ (py "path", JStr (py "README.md"));
                   (py "description", JStr (py "Project documentation"));
                   (py "copilot_prompt",
                    JStr (py "Create a comprehensive README.md file for this project")) ] ]);
      (py "interactions", JStr (generic_interactions topic));
      (py "test_command", JStr (py "pytest tests")) ].

(** The blueprint of the fallback planner for a topic. *)
Definition fallback_blueprint (lower : str -> str) (topic : str) : json :=
  if existsb (fun word => contains word (lower topic)) web_words then web_structure topic
  else if existsb (fun word => contains word (lower topic)) api_words then api_structure topic
  else generic_structure topic.

(** The heap after the fallback planner has been called with each topic
    of [history] in turn. *)
Fixpoint heap_after (lower : str -> str) (history : list str) (h : heap) : heap :=
  match history with
  | [] => h
  | topic :: history' =>
      heap_after lower history' (_get_fallback_structure lower new_planner topic h).2
  end.

(** The file objects of a blueprint, and the test that one of them
    carries the three required keys. *)
Definition blueprint_files (blueprint : json) : list json :=
  match blueprint with
  | JDict d => match dict_get (py "files") d with Some (JList files) => files | _ => [] end
  | _ => []
  end.

Definition complete_fileb (x : json) : bool :=
  match x with JDict f => has_required_keys f | _ => false end.

(** The blueprint read back from the text of a template passes the
    validation unchanged; it has three file objects, which carry the
    three required keys. *)
Definition accepted (v : json) : Prop :=
  validate (norm v) = Ok (norm v) ∧
  length (blueprint_files (norm v)) = 3%nat ∧
  forallb complete_fileb (blueprint_files (norm v)) = true.

End Props.

(* ===================================================================== *)
(** * The console and the limits of the interpreter *)
(* ===================================================================== *)

(** The definitions above leave out what the program prints and the
    limits that the interpreter puts on [json.loads].  Both can end a
    call with an exception of their own.  This module adds them to
    [json.loads], to [parse_structure] and to [ask]; what the console
    and the interpreter do is given from outside, like the remote
    service. *)
Module Runtime.
Import MistralPlanner.

(** What [print] is given: a text known in full; a text that ends with
    [str(value)] for a value of the blueprint; a text that ends with the
    message of the exception at hand. *)
Inductive message :=
| Text (text : str)
| WithValue (prefix : str) (value : json)
| WithError (prefix : str).

(** The interpreter that runs the program.
    - [recursion_left]: how many containers [json.loads] may enter, one
      inside the other, before the recursion limit is reached.
    - [int_max_str_digits]: the longest integer literal that [int]
      converts ([0] for no limit; [4300] unless the interpreter is
      started otherwise).
    - [print_error]: the exception with which [print] of a message ends
      when the console cannot take it ([UnicodeEncodeError] for a text
      that its encoding cannot hold). *)
Record runtime := {
  recursion_left : nat;
  int_max_str_digits : nat;
  print_error : message -> option exn
}.

(** ** [json.loads] with the limits *)

(** What scanning one value gives: the value and the text after it; a
    [JSONDecodeError]; a [RecursionError]; the [ValueError] of an integer
    literal with too many digits.  [Exhausted] is for a loop over the
    items of a container that ran out of steps (it never does, see
    [scan_value_total]). *)
Inductive scan_result :=
| Scanned (v : json) (rest : str)
| Malformed
| TooDeep
| TooManyDigits
| Exhausted.

Section Decoder.
Variable max_digits : nat.

Definition too_many (digits : nat) : bool :=
  ((0 <? max_digits) && (max_digits <? digits))%nat.

(** A constant or a number.  An integer literal is converted by [int],
    which counts its digits; a float literal is not. *)
Definition scan_scalar (s : str) : scan_result :=
  match match_constant s with
  | None => Malformed
  | Some (JInt z, r) =>
      match match_integer s with
      | Some (_, ds, _) => if too_many (length ds) then TooManyDigits else Scanned (JInt z) r
      | None => Scanned (JInt z) r
      end
  | Some (v, r) => Scanned v r
  end.

(** The items of an array after its opening bracket, [inner] scanning
    one value. *)
Fixpoint array_items (inner : str -> scan_result) (budget : nat) (s : str)
    (acc : list json) : scan_result :=
  match budget with
  | O => Exhausted
  | S budget' =>
      match inner s with
      | Scanned v r =>
          match skip_ws r with
          | c :: r' =>
              if c =? 93 then Scanned (JList (acc ++ [v])) r'
              else if c =? 44 then array_items inner budget' (skip_ws r') (acc ++ [v])
              else Malformed
          | [] => Malformed
          end
      | failure => failure
      end
  end.

Definition scan_array (inner : str -> scan_result) (r : str) : scan_result :=
  match skip_ws r with
  | c :: r' =>
      if c =? 93 then Scanned (JList []) r'
      else array_items inner (S (length r)) (c :: r') []
  | [] => Malformed
  end.

(** The members of an object after its opening brace. *)
Fixpoint object_members (inner : str -> scan_result) (budget : nat) (s : str)
    (acc : list (str * json)) : scan_result :=
  match budget with
  | O => Exhausted
  | S budget' =>
      match s with
      | q :: r =>
          if q =? 34 then
            match scanstring r [] with
            | None => Malformed
            | Some (k, r1) =>
                match skip_ws r1 with
                | colon :: r2 =>
                    if colon =? 58 then
                      match inner (skip_ws r2) with
                      | Scanned v r3 =>
                          match skip_ws r3 with
                          | c :: r4 =>
                              if c =? 125 then Scanned (JDict (dict_set k v acc)) r4
                              else if c =? 44
                              then object_members inner budget' (skip_ws r4) (dict_set k v acc)
                              else Malformed
                          | [] => Malformed
                          end
                      | failure => failure
                      end
                    else Malformed
                | [] => Malformed
                end
            end
          else Malformed
      | [] => Malformed
      end
  end.

Definition scan_object (inner : str -> scan_result) (r : str) : scan_result :=
  match skip_ws r with
  | c :: r' =>
      if c =? 125 then Scanned (JDict []) r'
      else object_members inner (S (length r)) (c :: r') []
  | [] => Malformed
  end.

(** One value.  [nested] scans the values inside a container; there is
    none when the recursion limit is reached, and the check is made on
    entering the container, before its content is looked at. *)
Definition scan_level (nested : option (str -> scan_result)) (s : str) : scan_result :=
  match s with
  | [] => Malformed
  | c :: r =>
      if c =? 34 then
        match scanstring r [] with
        | Some (x, r') => Scanned (JStr x) r'
        | None => Malformed
        end
      else if c =? 123 then
        match nested with
        | Some inner => scan_object inner r
        | None => TooDeep
        end
      else if c =? 91 then
        match nested with
        | Some inner => scan_array inner r
        | None => TooDeep
        end
      else scan_scalar s
  end.

(** [scan_once] with [depth] containers left to enter. *)
Fixpoint scan_value (depth : nat) : str -> scan_result :=
  match depth with
  | O => scan_level None
  | S depth' => scan_level (Some (scan_value depth'))
  end.

End Decoder.

(** [json.loads(s)] for a [str]. *)
Definition json_loads (rt : runtime) (s : str) : result json :=
  if startswith [65279] s then Raise JSONDecodeError
  else
    match scan_value (int_max_str_digits rt) (recursion_left rt) (skip_ws s) with
    | Scanned v r =>
        match skip_ws r with
        | [] => Ok v
        | _ :: _ => Raise JSONDecodeError
        end
    | Malformed => Raise JSONDecodeError
    | TooDeep => Raise RecursionError
    | TooManyDigits => Raise ValueError
    | Exhausted => Raise JSONDecodeError
    end.

(** ** [parse_structure] with its handlers *)

(** [print(m)] *)
Definition print (rt : runtime) (m : message) : result unit :=
  match print_error rt m with
  | Some e => Raise e
  | None => Ok tt
  end.

(** The file object on which the validation raises its [ValueError]:
    the first one that lacks a key. *)
Fixpoint rejected_file (file_objs : list json) : json :=
  match file_objs with
  | [] => JNull
  | file_obj :: rest =>
      match all_keys_in required_keys file_obj with
      | Ok false => file_obj
      | _ => rejected_file rest
      end
  end.

(** [structure["files"]] as the loop of the validation sees it. *)
Definition files_of (structure : json) : list json :=
  match py_getitem structure (py "files") with
  | Ok files => match py_iter files with Ok file_objs => file_objs | Raise _ => [] end
  | Raise _ => []
  end.

(** [parse_structure]: the [JSONDecodeError] handler prints the error and
    the raw response, the [ValueError] handler prints the error, and both
    raise the exception again.  An exception raised by [print] inside a
    handler takes the place of the one handled. *)
Definition parse_structure (rt : runtime) (json_string : str) : result json :=
  let json_string := clean_response json_string in
  match json_loads rt json_string with
  | Ok structure =>
      match validate structure with
      | Raise ValueError =>
          _ ← print rt (WithValue (py "Validation error: Invalid file object: ")
                          (rejected_file (files_of structure)));
          Raise ValueError
      | outcome => outcome
      end
  | Raise JSONDecodeError =>
      _ ← print rt (WithError (py "Error parsing JSON: "));
      _ ← print rt (Text (py "Raw response: " ++ json_string));
      Raise JSONDecodeError
  | Raise ValueError =>
      _ ← print rt (WithError (py "Validation error: "));
      Raise ValueError
  | Raise e => Raise e
  end.

(** ** [ask] with the messages of its handlers *)

Definition say (rt : runtime) (m : message) : M unit := fun h => (print rt m, h).

(** The message of the handler that an attempt ends in. *)
Definition failure_message (r : api_result) (attempt : nat) : message :=
  match r with
  | ApiTimeout =>
      WithError (py "Timeout on attempt " ++ int_repr (Z.of_nat attempt) ++ py ": ")
  | ApiRequestException =>
      WithError (py "API Error on attempt " ++ int_repr (Z.of_nat attempt) ++ py ": ")
  | _ => WithError (py "Error parsing Mistral response: ")
  end.

(** The two handlers of request errors announce the fallback, the
    handler of [KeyError] and [IndexError] does not. *)
Definition announces_fallback (r : api_result) : bool :=
  match r with
  | ApiTimeout | ApiRequestException => true
  | _ => false
  end.

Section WithLower.
Variable lower : str -> str.
Variable rt : runtime.

(** The loop of [ask].  The [print] at the head of the [try] block is
    part of what the attempt does ([remote]); the handlers print before
    they go on. *)
Fixpoint ask_loop (self : t) (topic : str) (remote : api) (total : nat)
    (attempt : nat) (ts : list Z) : M (option str) :=
  match ts with
  | [] => mret None
  | timeout :: ts' =>
      match remote attempt timeout with
      | ApiContent content => mret (Some (strip content))
      | ApiOtherException e => raise e
      | failure =>
          _ ← say rt (failure_message failure attempt);
          if (attempt =? total)%nat
          then
            _ ← (if announces_fallback failure
                 then say rt (Text (py "All API attempts failed. Using fallback structure..."))
                 else mret tt);
            Some <$> _get_fallback_structure lower self topic
          else ask_loop self topic remote total (S attempt) ts'
      end
  end.

Definition ask (self : t) (topic : str) (remote : api) : M (option str) :=
  ask_loop self topic remote (length timeouts) 1 timeouts.

(** Blueprint acquisition as [main] performs it. *)
Definition acquire_blueprint (self : t) (topic : str) (remote : api) : M json :=
  @mbind M _ _ _ (fun json_response : option str =>
    match json_response return M json with
    | Some text => fun h => (parse_structure rt text, h)
    | None => raise AttributeError
    end) (ask self topic remote).

End WithLower.

End Runtime.

(* ===================================================================== *)
(** * class CopilotAutomator *)
(* ===================================================================== *)

Module CopilotAutomator.
Import MistralPlanner StructureCreator.

(** The calls to [pyautogui], to [time.sleep] and to [print], in the
    order in which they are made.  A sleep is given in milliseconds; what
    is typed is the value handed to [pyautogui.write]. *)
Inductive gui :=
| Hotkey (keys : list str)
| Write (message : json)
| Press (key : str)
| Sleep (ms : N)
| Print (what : Runtime.message).

(** What the outside world does to a call of [pyautogui] or of [print],
    given the calls made so far: the call returns, or it raises (the
    fail-safe of the library, its rejection of an argument, a console
    that cannot encode the text). *)
Definition gui_env := list gui -> gui -> option exn.

(** Code that makes such calls and may raise: the calls made so far are
    threaded through, and are kept when an exception is raised. *)
Definition G (A : Type) : Type := list gui -> result A * list gui.

#[global] Instance G_ret : MRet G := fun A a tr => (Ok a, tr).
#[global] Instance G_bind : MBind G := fun A B k m tr =>
  match m tr with
  | (Ok a, tr') => k a tr'
  | (Raise e, tr') => (Raise e, tr')
  end.

(** A pure step that may raise. *)
Definition lift {A} (r : result A) : G A := fun tr => (r, tr).

(** [time.sleep] *)
Definition sleep (ms : N) : G unit := fun tr => (Ok tt, tr ++ [Sleep ms]).

(** [Path(s).name] (POSIX flavour): the last component of the path, the
    empty string when there is none. *)
Definition path_name (s : str) : str := default [] (last (parts s)).

(** [Path(v)]: only a string is a path. *)
Definition as_path (v : json) : result str :=
  match v with
  | JStr s => Ok s
  | _ => Raise TypeError
  end.

Section WithGui.
Variable env : gui_env.

(** One call of [pyautogui] or of [print]. *)
Definition call (c : gui) : G unit := fun tr =>
  (match env tr c with Some e => Raise e | None => Ok tt end, tr ++ [c]).

(** [_open_file] *)
Definition _open_file (filename : str) : G unit :=
  _ ← call (Hotkey [py "ctrl"; py "p"]);
  _ ← sleep 1000;
  _ ← call (Write (JStr filename));
  _ ← sleep 1000;
  _ ← call (Press (py "enter"));
  sleep 2000.

(** [_process_file], up to its last keystroke (lines 365 to 394); the
    message that it prints before it returns is the next step of
    [process_files]. *)
Definition _process_file (file_obj : json) : G unit :=
  p ← lift (py_getitem file_obj (py "path"));
  p ← lift (as_path p);
  _ ← _open_file (path_name p);
  _ ← call (Hotkey [py "ctrl"; py "end"]);
  _ ← sleep 500;
  _ ← call (Hotkey [py "ctrl"; py "i"]);
  _ ← sleep 2000;
  prompt ← lift (py_getitem file_obj (py "copilot_prompt"));
  _ ← call (Write prompt);
  _ ← sleep 1000;
  _ ← call (Press (py "enter"));
  _ ← sleep 3000;
  _ ← call (Press (py "tab"));
  _ ← sleep 1000;
  _ ← call (Hotkey [py "ctrl"; py "s"]);
  sleep 1000.

(** The text before the path in the last message of [_process_file], as
    the source file has it. *)
Definition processed_prefix : str := [8218; 250; 236] ++ py " Processed ".

(** The loop of [automate_copilot]: the path of the file is read and
    printed, the keystrokes of [_process_file] are sent, and the path is
    read and printed again (the last statement of [_process_file]). *)
Fixpoint process_files (file_objs : list json) : G unit :=
  match file_objs with
  | [] => mret tt
  | file_obj :: rest =>
      p ← lift (py_getitem file_obj (py "path"));
      _ ← call (Print (Runtime.WithValue (py "Processing file: ") p));
      _ ← _process_file file_obj;
      p ← lift (py_getitem file_obj (py "path"));
      _ ← call (Print (Runtime.WithValue processed_prefix p));
      _ ← sleep 2000;
      process_files rest
  end.

(** [automate_copilot] *)
Definition automate_copilot (structure : json) : G unit :=
  _ ← call (Print (Runtime.Text (py "Starting Copilot automation...")));
  _ ← sleep 2000;
  _ ← _open_file (py "README.md");
  _ ← sleep 2000;
  files ← lift (py_getitem structure (py "files"));
  file_objs ← lift (py_iter files);
  process_files file_objs.

End WithGui.

(** ** [launch_vscode] *)

(** What [subprocess.run([cmd, path], check=True)] does: it returns, or
    raises one of the two exceptions that [launch_vscode] catches, or
    another one. *)
Inductive launch_result :=
| Launched
| CalledProcessError
| FileNotFoundError
| LaunchException (e : exn).

(** The outside world of [launch_vscode]: the outcome of an editor
    command, and whether opening the folder in the file explorer raises. *)
Record launch_env := {
  run_editor : str -> launch_result;
  explorer_raises : bool
}.

Inductive launch_event :=
| ERunEditor (cmd : str)
| EOpenExplorer.

(** The [for cmd in commands] loop; [None] when no command started the
    editor. *)
Fixpoint try_commands (e : launch_env) (commands : list str) (tr : list launch_event)
    : result (option unit) * list launch_event :=
  match commands with
  | [] => (Ok None, tr)
  | cmd :: rest =>
      match run_editor e cmd with
      | Launched => (Ok (Some tt), tr ++ [ERunEditor cmd])
      | CalledProcessError | FileNotFoundError =>
          try_commands e rest (tr ++ [ERunEditor cmd])
      | LaunchException x => (Raise x, tr ++ [ERunEditor cmd])
      end
  end.

(** [launch_vscode]: the fallback opens the folder in the file explorer
    and returns [False] whether that raised or not. *)
Definition launch_vscode (e : launch_env) : result bool * list launch_event :=
  match try_commands e [py "code"; py "code.cmd"] [] with
  | (Ok (Some _), tr) => (Ok true, tr)
  | (Ok None, tr) =>
      if explorer_raises e
      then (Ok false, tr ++ [EOpenExplorer])
      else (Ok false, tr ++ [EOpenExplorer])
  | (Raise x, tr) => (Raise x, tr)
  end.

End CopilotAutomator.

(* ===================================================================== *)
(** * Further notions: the test loop *)
(* ===================================================================== *)

Module LoopProps.
Import StructureCreator TestRunner Props.





(** The command lines that were run, and the texts that were built for
    the error file, in the order of the calls. *)
Definition commands_run (tr : list event) : list (list str) :=
  flat_map (fun e => match e with ERun argv => [argv] | _ => [] end) tr.

Definition error_files (tr : list event) : list str :=
  flat_map (fun e => match e with ECreateErrorFixFile content => [content] | _ => [] end) tr.

(** The text holds the standard error and then the standard output,
    each under its heading and followed by an empty line, before the
    instructions. *)
Definition holds_output (content stderr stdout : str) : Prop :=
  ∃ intro outro,
    content = intro ++ py "## STDERR:" ++ [10] ++ stderr ++ [10; 10] ++
              py "## STDOUT:" ++ [10] ++ stdout ++ [10; 10] ++
              py "## Instructions:" ++ outro.

(** What the loop keeps true from one attempt to the next: as many error
    files as executions, the file of each execution holding its output. *)
Definition in_step (argv : list str) (env : nat -> attempt_env) (attempt : nat)
    (tr : list event) : Prop :=
  Forall (fun argv' => argv' = argv) (commands_run tr) ∧
  executions tr = attempt ∧
  length (error_files tr) = attempt ∧
  ∀ i content, error_files tr !! i = Some content →
    ∃ returncode stdout stderr,
      run (env i) = Completed returncode stdout stderr ∧ returncode ≠ 0%Z ∧
      holds_output content stderr stdout.

End LoopProps.

(* ===================================================================== *)
(** * Further notions: names and folders *)
(* ===================================================================== *)

Module FolderProps.
Import StructureCreator Props.

(** A dot or a space, the characters that [_sanitize_name] strips. *)
Definition dot_or_space (c : char) : bool := existsb (N.eqb c) (py ". ").

(** Every entry of the file system lies in directories that exist. *)
Definition fs_wf (fs : filesystem) : Prop :=
  ∀ q n, fs !! q = Some n →
  ∀ p, p `prefix_of` q → p ≠ q → p ≠ [] → fs !! p = Some Dir.

(** A desktop folder with an older project [todo app] in it, next to a
    document. *)
Definition desktop_with_project : filesystem :=
  list_to_map
    [ ([py "home"], Dir);
      ([py "home"; py "Desktop"], Dir);
      ([py "home"; py "Desktop"; py "thesis.txt"], File (py "chapter 1"));
      ([py "home"; py "Desktop"; py "todo app"], Dir);
      ([py "home"; py "Desktop"; py "todo app"; py "old.py"], File (py "pass")) ].

(** A desktop folder on which a file has the name of the project. *)
Definition desktop_with_file_in_the_way : filesystem :=
  list_to_map
    [ ([py "home"], Dir);
      ([py "home"; py "Desktop"], Dir);
      ([py "home"; py "Desktop"; py "todo app"], File (py "notes")) ].

(** A test of [fs_wf] that can be run. *)
Definition fs_wfb (fs : filesystem) : bool :=
  forallb (fun entry : path * node =>
             forallb (fun i => match fs !! take i entry.1 with
                               | Some Dir => true
                               | _ => false
                               end)
                     (seq 1 (length entry.1 - 1)))
          (map_to_list fs).

End FolderProps.

(* ===================================================================== *)
(** * Further notions: responses and blueprints *)
(* ===================================================================== *)

Module ParseProps.
Import MistralPlanner Props.

(** A response in a Markdown fence labelled [json]. *)
Definition fenced (body : str) : str := py "```json" ++ body ++ py "```".

(** A code point that [json.dumps] and [json.loads] carry unchanged: a
    Unicode scalar value (no surrogate). *)
Definition scalar (c : char) : bool :=
  (c <? 55296) || ((57343 <? c) && (c <? 1114112)).

(** No string occurs twice. *)
Fixpoint distinct (keys : list str) : bool :=
  match keys with
  | [] => true
  | k :: keys' => negb (existsb (PyStr.eqb k) keys') && distinct keys'
  end.

(** Values made of strings, lists and dicts, all strings free of
    surrogates, the keys of every dict distinct: the values that a
    blueprint built by the program itself can be. *)
Fixpoint plain (v : json) : bool :=
  match v with
  | JStr s => forallb scalar s
  | JList l => forallb plain l
  | JDict d =>
      forallb (fun kv => forallb scalar (fst kv) && plain (snd kv)) d &&
      distinct (map fst d)
  | _ => false
  end.

(** The three entries that [parse_structure] fills in. *)
Definition default_entries : list (str * json) :=
  [ (py "folders", JList []); (py "files", JList []); (py "interactions", JStr []) ].

Definition defaulted_keys : list str := map fst default_entries.

(** A JSON object. *)
Definition is_object (v : json) : Prop := ∃ d, v = JDict d.

(** A file object that lacks one of the three required keys. *)
Definition incomplete_file (x : json) : Prop :=
  ∃ f, x = JDict f ∧ has_required_keys f = false.

End ParseProps.

(* ===================================================================== *)
(** * Further notions: the remote service *)
(* ===================================================================== *)

Module PlannerProps.
Import MistralPlanner Props Runtime.

(** A console that takes every message. *)
Definition quiet (rt : runtime) : Prop := ∀ m, print_error rt m = None.

(** An interpreter with limits as they usually are, on a console that
    takes every message. *)
Definition usual_runtime : runtime :=
  {| recursion_left := 990; int_max_str_digits := 4300; print_error := fun _ => None |}.

(** Every value that [inner] scans is one that the decoder without
    limits reads, given fuel enough. *)
Definition reads_alike (inner : str -> scan_result) : Prop :=
  ∀ s v r, inner s = Scanned v r → ∃ f, parse_value f s = Some (v, r).

(** The three attempts that [ask] makes all end in one of its handlers. *)
Definition three_handled (remote : api) : Prop :=
  handled_failure (remote 1%nat 30%Z) ∧
  handled_failure (remote 2%nat 60%Z) ∧
  handled_failure (remote 3%nat 90%Z).

(** Two remote services that give the same outcome on the first attempt
    with 30 seconds, on the second with 60 and on the third with 90. *)
Definition same_answers (remote remote' : api) : Prop :=
  remote 1%nat 30%Z = remote' 1%nat 30%Z ∧
  remote 2%nat 60%Z = remote' 2%nat 60%Z ∧
  remote 3%nat 90%Z = remote' 3%nat 90%Z.

(** A remote service that is unreachable once and then answers with a
    body whose [choices] entry cannot be indexed, which raises a
    [TypeError]. *)
Definition remote_malformed : api :=
  fun attempt _ =>
    match attempt with
    | 1%nat => ApiRequestException
    | _ => ApiOtherException TypeError
    end.

(** A remote service that answers on the second attempt. *)
Definition remote_slow : api :=
  fun attempt _ =>
    match attempt with
    | 1%nat => ApiTimeout
    | _ => ApiContent (py " {} ")
    end.

(** [structure["files"][0]["copilot_prompt"]], read through the heap. *)
Definition main_prompt_of (structure : pyval) : M pyval :=
  files ← getitem structure (py "files");
  file_objs ← iterate files;
  match file_objs with
  | main_file :: _ => getitem main_file (py "copilot_prompt")
  | [] => raise OtherException
  end.

(** The topic is sent to neither the web nor the backend branch. *)
Definition generic_topic (lower : str -> str) (topic : str) : Prop :=
  existsb (fun word => contains word (lower topic)) web_words = false ∧
  existsb (fun word => contains word (lower topic)) api_words = false.

(** The [interactions] text that [__init__] gives the template. *)
Definition template_interactions : str :=
  py "Basic project structure with main application file, tests, and documentation.".

(** A line feed or a printable ASCII character. *)
Definition printable (c : char) : Prop := c = 10 ∨ 32 ≤ c ≤ 126.

End PlannerProps.

(* ===================================================================== *)
(** * Further notions: the keystroke automation *)
(* ===================================================================== *)

Module CopilotProps.
Import MistralPlanner CopilotAutomator Props.

(** No call of [pyautogui] and no [print] raises. *)
Definition calm (env : gui_env) : Prop := ∀ tr c, env tr c = None.

Definition never_raises : gui_env := fun _ _ => None.

(** A file object whose path is a string and which has a prompt. *)
Definition usable_file (x : json) : Prop :=
  ∃ f s prompt, x = JDict f ∧
                dict_get (py "path") f = Some (JStr s) ∧
                dict_get (py "copilot_prompt") f = Some prompt.

(** What is typed for a file object: the name of its file, then its
    prompt. *)
Definition typed_for (x : json) : list json :=
  match x with
  | JDict f =>
      match dict_get (py "path") f, dict_get (py "copilot_prompt") f with
      | Some (JStr s), Some prompt => [JStr (path_name s); prompt]
      | _, _ => []
      end
  | _ => []
  end.

(** The texts typed during a run, in order. *)
Definition written (tr : list gui) : list json :=
  flat_map (fun c => match c with Write message => [message] | _ => [] end) tr.

Definition is_save (c : gui) : bool :=
  match c with
  | Hotkey [a; b] => PyStr.eqb a (py "ctrl") && PyStr.eqb b (py "s")
  | _ => false
  end.

(** How often the file in the editor was saved. *)
Definition saves (tr : list gui) : nat := length (filter is_save tr).

(** The calls that [_process_file] makes before it looks up the prompt. *)
Definition calls_before_prompt (name : str) : list gui :=
  [ Hotkey [py "ctrl"; py "p"]; Sleep 1000; Write (JStr name); Sleep 1000;
    Press (py "enter"); Sleep 2000;
    Hotkey [py "ctrl"; py "end"]; Sleep 500;
    Hotkey [py "ctrl"; py "i"]; Sleep 2000 ].

(** The calls that [_process_file] makes from the prompt on. *)
Definition calls_from_prompt (prompt : json) : list gui :=
  [ Write prompt; Sleep 1000; Press (py "enter"); Sleep 3000;
    Press (py "tab"); Sleep 1000; Hotkey [py "ctrl"; py "s"]; Sleep 1000 ].

(** All the calls made for one usable file object in the loop of
    [automate_copilot]. *)
Definition file_calls (x : json) : list gui :=
  match x with
  | JDict f =>
      match dict_get (py "path") f, dict_get (py "copilot_prompt") f with
      | Some (JStr s), Some prompt =>
          [Print (Runtime.WithValue (py "Processing file: ") (JStr s))] ++
          calls_before_prompt (path_name s) ++ calls_from_prompt prompt ++
          [Print (Runtime.WithValue processed_prefix (JStr s)); Sleep 2000]
      | _, _ => []
      end
  | _ => []
  end.

(** Two file objects of one blueprint whose files have the same name in
    different folders. *)
Definition two_init_files : json * json :=
  (JDict [ (py "path", JStr (py "src/__init__.py"));
           (py "description", JStr (py "Package marker"));
           (py "copilot_prompt", JStr (py "Create an empty package marker")) ],
   JDict [ (py "path", JStr (py "tests/__init__.py"));
           (py "description", JStr (py "Package marker"));
           (py "copilot_prompt", JStr (py "Create an empty package marker")) ]).

(** An editor that is not installed, one that is installed under the
    second name only. *)
Definition no_editor : launch_env :=
  {| run_editor := fun _ => FileNotFoundError; explorer_raises := true |}.

End CopilotProps.

(* ===================================================================== *)
(** * Properties of [TestRunner.run_tests] *)
(* ===================================================================== *)

Module TestRunnerFacts.
Import StructureCreator TestRunner Props.

Lemma executions_snoc tr e :
  executions (tr ++ [e]) = (executions tr + (if is_run e then 1 else 0))%nat.
Proof.
  unfold executions. rewrite filter_app, length_app. cbn.
  destruct (is_run e); reflexivity.
Qed.

Lemma fix_invocations_snoc tr e :
  fix_invocations (tr ++ [e]) = (fix_invocations tr + (if is_fix e then 1 else 0))%nat.
Proof.
  unfold fix_invocations. rewrite filter_app, length_app. cbn.
  destruct (is_fix e); reflexivity.
Qed.

Ltac count_events :=
  cbn [attempts snd fst];
  rewrite ?fix_invocations_snoc, ?executions_snoc;
  cbn [is_run is_fix]; try lia.




Lemma run_tests_executed lower project_path fs test_command max_attempts env :
  is_executed lower project_path fs test_command →
  run_tests lower project_path fs test_command max_attempts env =
  attempts (Z.to_nat max_attempts) 0 (split test_command) env [].
Proof.
  intros [Hne Hnpm]. unfold run_tests.
  destruct test_command as [|c cmd]; [contradiction|].
  destruct Hnpm as [-> | ->]; [reflexivity|].
  rewrite andb_false_r. reflexivity.
Qed.



Lemma pytest_is_executed : is_executed ascii_lower [py "project"] ∅ (py "pytest tests").
Proof. split; [discriminate | left; reflexivity]. Qed.





(** C8.  [run_tests] returns [True] without executing the command and
    without invoking the fix when the command is the empty string, and
    also when the lowered command contains [npm] and the project has no
    [package.json]. *)
Theorem run_tests_skips
    (lower : str -> str) (project_path : path) (fs : filesystem) (test_command : str)
    (max_attempts : Z) (env : nat -> attempt_env) :
  test_command = [] ∨
  (contains (py "npm") (lower test_command) = true ∧
   exists_ fs (div project_path (py "package.json")) = false) →
  let r := run_tests lower project_path fs test_command max_attempts env in
  r.1 = true ∧ executions r.2 = 0%nat ∧ fix_invocations r.2 = 0%nat.
Proof.
  intros [-> | [Hnpm Hpkg]]; cbn zeta; unfold run_tests.
  - auto.
  - destruct test_command; [auto|]. rewrite Hnpm, Hpkg. auto.
Qed.

Lemma run_tests_skips_witness :
  (let r := run_tests ascii_lower [py "project"] ∅ [] 3 always_failing in
   r.1 = true ∧ executions r.2 = 0%nat ∧ fix_invocations r.2 = 0%nat) ∧
  (let r := run_tests ascii_lower [py "project"] ∅ (py "NPM test") 3 always_failing in
   r.1 = true ∧ executions r.2 = 0%nat ∧ fix_invocations r.2 = 0%nat).
Proof.
  split.
  - apply (run_tests_skips ascii_lower [py "project"] ∅ [] 3 always_failing).
    left. reflexivity.
  - apply (run_tests_skips ascii_lower [py "project"] ∅ (py "NPM test") 3 always_failing).
    right. split; reflexivity.
Defined.

End TestRunnerFacts.

(* ===================================================================== *)
(** * Properties of [StructureCreator] *)
(* ===================================================================== *)

Module StructureCreatorFacts.
Import StructureCreator Props.

(** ** [_sanitize_name] *)

Lemma lstrip_by_suffix p s : ∃ pre, s = pre ++ lstrip_by p s.
Proof.
  induction s as [|c s [pre IH]]; cbn.
  - exists []. reflexivity.
  - destruct (p c).
    + exists (c :: pre). cbn. congruence.
    + exists []. reflexivity.
Qed.

Lemma lstrip_by_head p s c : head (lstrip_by p s) = Some c → p c = false.
Proof.
  induction s as [|a s IH]; cbn; [discriminate|].
  destruct (p a) eqn:Ha; [exact IH|].
  cbn. intros [= <-]. exact Ha.
Qed.

Lemma lstrip_by_snoc_keep p s c :
  p c = false → lstrip_by p (s ++ [c]) = lstrip_by p s ++ [c].
Proof.
  intros Hc. induction s as [|a s IH]; cbn.
  - rewrite Hc. reflexivity.
  - destruct (p a); [exact IH | reflexivity].
Qed.

Lemma Forall_lstrip_by (P : char → Prop) p s : Forall P s → Forall P (lstrip_by p s).
Proof.
  intros H. destruct (lstrip_by_suffix p s) as [pre Hs].
  rewrite Hs in H. apply Forall_app in H. tauto.
Qed.

Lemma Forall_strip_by (P : char → Prop) p s : Forall P s → Forall P (strip_by p s).
Proof.
  intros H. unfold strip_by, rstrip_by.
  apply Forall_rev, Forall_lstrip_by, Forall_rev, Forall_lstrip_by, H.
Qed.

(** What is left of a string stripped on both sides does not start with
    a stripped character. *)
Lemma strip_by_head p s c : head (strip_by p s) = Some c → p c = false.
Proof.
  unfold strip_by, rstrip_by.
  destruct (lstrip_by p s) as [|a t] eqn:Ht; [discriminate|].
  assert (Ha : p a = false) by (apply (lstrip_by_head p s); rewrite Ht; reflexivity).
  cbn [rev]. rewrite (lstrip_by_snoc_keep p _ a Ha), rev_app_distr. cbn.
  intros [= <-]. exact Ha.
Qed.

Lemma replace_illegal_legal name : Forall (fun c => is_illegal c = false) (replace_illegal name).
Proof.
  unfold replace_illegal. apply Forall_map, Forall_forall. intros c _.
  destruct (is_illegal c) eqn:Hc; [reflexivity | exact Hc].
Qed.

(** The parts of C2 that hold for every topic: the sanitized name has at
    most 50 characters, none of them is one of the replaced characters,
    and it does not start with a dot or a space. *)
Lemma sanitize_name_guarantees name :
  (length (_sanitize_name name) ≤ 50)%nat ∧
  Forall (fun c => is_illegal c = false) (_sanitize_name name) ∧
  (∀ c, head (_sanitize_name name) = Some c → c ≠ 46 ∧ c ≠ 32).
Proof.
  unfold _sanitize_name. split; [|split].
  - rewrite length_firstn. lia.
  - apply Forall_take. unfold strip_chars. apply Forall_strip_by, replace_illegal_legal.
  - intros c Hc.
    assert (H : head (strip_chars (py ". ") (replace_illegal name)) = Some c).
    { destruct (strip_chars (py ". ") (replace_illegal name)); [discriminate | exact Hc]. }
    apply strip_by_head in H. cbn in H.
    apply orb_false_iff in H as [H1 H2]. apply orb_false_iff in H2 as [H2 _].
    apply N.eqb_neq in H1, H2. auto.
Qed.

(** C2 fails on the code: [main] passes [topic_with_space_at_50] on as it
    is, nothing in it is replaced or stripped, and the cut at 50
    characters leaves a name that ends with a space. *)
Theorem sanitize_name_trailing_space :
  main_topic topic_with_space_at_50 = Some topic_with_space_at_50 ∧
  _sanitize_name topic_with_space_at_50 = repeat 97 49 ++ [32] ∧
  last (_sanitize_name topic_with_space_at_50) = Some 32.
Proof. repeat split; vm_compute; reflexivity. Qed.

(** ** The project folder *)

Lemma kind_snoc fs (base : path) c : kind fs (base ++ [c]) = fs !! (base ++ [c]).
Proof. destruct base; reflexivity. Qed.

Lemma prefix_of_snoc_lt (base : path) : ∀ (q : path) c rest,
  q `prefix_of` (base ++ c :: rest) → (length base < length q)%nat →
  (base ++ [c]) `prefix_of` q.
Proof.
  induction base as [|b base IH]; intros q c rest Hq Hlen; destruct q as [|a q]; cbn in *; try lia.
  - apply prefix_cons_inv_1 in Hq as ->. apply prefix_cons, prefix_nil.
  - pose proof (prefix_cons_inv_1 _ _ _ _ Hq) as ->.
    apply prefix_cons, (IH q c rest); [exact (prefix_cons_inv_2 _ _ _ _ Hq) | lia].
Qed.

(** [mkdir] with [parents=True] succeeds when no file is in the way, and
    then touches nothing but the directories on the way. *)
Lemma mkdir_from_spec rest : ∀ (base : path) (fs : filesystem),
  (∀ q, q `prefix_of` (base ++ rest) → (length base < length q)%nat →
        ∀ content, fs !! q ≠ Some (File content)) →
  ∃ fs', mkdir_from base rest fs = Ok fs' ∧
         ∀ q, ¬ (q `prefix_of` (base ++ rest)) → fs' !! q = fs !! q.
Proof.
  induction rest as [|c rest IH]; intros base fs Hfree.
  - exists fs. split; [reflexivity | auto].
  - cbn [mkdir_from]. rewrite kind_snoc.
    assert (Happ : (base ++ [c]) ++ rest = base ++ c :: rest)
      by (rewrite <- app_assoc; reflexivity).
    assert (Hq0 : (base ++ [c]) `prefix_of` (base ++ c :: rest))
      by (exists rest; symmetry; exact Happ).
    assert (Hlen0 : (length base < length (base ++ [c]))%nat)
      by (rewrite length_app; cbn; lia).
    destruct (fs !! (base ++ [c])) as [[|content]|] eqn:E.
    + destruct (IH (base ++ [c]) fs) as (fs' & Hok & Hframe).
      { intros q Hq Hlen. apply Hfree; [rewrite <- Happ; exact Hq | lia]. }
      exists fs'. split; [exact Hok|]. intros q Hq. apply Hframe. rewrite Happ. exact Hq.
    + exfalso. exact (Hfree _ Hq0 Hlen0 content E).
    + destruct (IH (base ++ [c]) (<[base ++ [c] := Dir]> fs)) as (fs' & Hok & Hframe).
      { intros q Hq Hlen content. rewrite lookup_insert_ne.
        - apply Hfree; [rewrite <- Happ; exact Hq | lia].
        - intros Heq. rewrite <- Heq in Hlen. lia. }
      exists fs'. split; [exact Hok|]. intros q Hq.
      rewrite Hframe by (rewrite Happ; exact Hq).
      apply lookup_insert_ne. intros Heq. apply Hq. rewrite <- Heq. exact Hq0.
Qed.

Lemma div_empty (p : path) : div p [] = p.
Proof. unfold div. cbn. apply app_nil_r. Qed.

(** C3 fails on the code.  For a topic whose sanitized name is empty no
    error is raised: the project path is the desktop folder itself, which
    is removed with all it contains and created again empty. *)
Theorem create_project_folder_empty_name
    (desktop_path : path) (topic : str) (fs : filesystem) :
  _sanitize_name topic = [] →
  desktop_exists fs desktop_path →
  ∃ fs', create_project_folder desktop_path topic fs = Ok (desktop_path, fs') ∧
         ∀ q, desktop_path `prefix_of` q → q ≠ desktop_path → fs' !! q = None.
Proof.
  intros Hname Hdesk. unfold create_project_folder. rewrite Hname, div_empty.
  assert (Hkind : kind fs desktop_path = Some Dir).
  { destruct desktop_path as [|c p]; [reflexivity|]. apply Hdesk; [reflexivity | discriminate]. }
  unfold exists_, rmtree. rewrite Hkind. cbn [mbind result_bind].
  destruct (mkdir_from_spec desktop_path []
              (filter (fun kv => ¬ (desktop_path `prefix_of` kv.1)) fs)) as (fs' & Hok & Hframe).
  { intros q Hq Hlen content Hlook.
    apply map_lookup_filter_Some in Hlook as [Hlook _].
    rewrite Hdesk in Hlook; [discriminate | exact Hq |].
    intros ->. cbn in Hlen. lia. }
  exists fs'. change (os_name_error []) with (@None exn). cbv iota.
  unfold mkdir_parents. rewrite Hok. split; [reflexivity|].
  intros q Hq Hne. rewrite Hframe.
  - apply map_lookup_filter_None. right. intros x _ Hx. apply Hx. exact Hq.
  - intros Hq'. apply Hne. apply (anti_symm prefix); assumption.
Qed.

Lemma create_project_folder_empty_name_witness :
  main_topic (py "...") = Some (py "...") ∧
  _sanitize_name (py "...") = [] ∧
  desktop_with_document !! [py "home"; py "Desktop"; py "thesis.txt"]
    = Some (File (py "chapter 1")) ∧
  ∃ fs', create_project_folder [py "home"; py "Desktop"] (py "...") desktop_with_document
           = Ok ([py "home"; py "Desktop"], fs') ∧
         fs' !! [py "home"; py "Desktop"; py "thesis.txt"] = None.
Proof.
  split; [reflexivity|]. split; [reflexivity|]. split; [vm_compute; reflexivity|].
  destruct (create_project_folder_empty_name [py "home"; py "Desktop"] (py "...")
              desktop_with_document) as (fs' & Hok & Hgone).
  - reflexivity.
  - intros q Hq Hne.
    assert (Hcases : q = [] ∨ q = [py "home"] ∨ q = [py "home"; py "Desktop"]).
    { destruct Hq as [k Hk]. destruct q as [|a [|b [|c q]]]; auto.
      - injection Hk as -> _. auto.
      - injection Hk as -> -> _. auto.
      - discriminate. }
    destruct Hcases as [-> | [-> | ->]]; [contradiction | |]; vm_compute; reflexivity.
  - exists fs'. split; [exact Hok|]. apply Hgone.
    + exists [py "thesis.txt"]. reflexivity.
    + discriminate.
Defined.

End StructureCreatorFacts.

(* ===================================================================== *)
(** * Properties of the validation in [parse_structure] *)
(* ===================================================================== *)

Module ValidationFacts.
Import MistralPlanner Props.

Lemma eqb_eq (a : str) : ∀ b, PyStr.eqb a b = true ↔ a = b.
Proof.
  induction a as [|x a IH]; intros [|y b]; cbn [PyStr.eqb]; try (split; [discriminate | discriminate]).
  - split; reflexivity.
  - rewrite andb_true_iff, N.eqb_eq, IH. split; [intros [-> ->]; reflexivity | intros [= -> ->]; auto].
Qed.

Lemma eqb_neq (a b : str) : PyStr.eqb a b = false ↔ a ≠ b.
Proof.
  rewrite <- (eqb_eq a b). destruct (PyStr.eqb a b); split; congruence.
Qed.

Section DictFacts.
Context {V : Type}.
Implicit Types (d : list (str * V)) (k : str) (v : V).

Lemma dict_get_set_eq k v d : dict_get k (dict_set k v d) = Some v.
Proof.
  induction d as [|[k' v'] d IH]; cbn.
  - replace (PyStr.eqb k k) with true by (symmetry; apply eqb_eq; reflexivity). reflexivity.
  - destruct (PyStr.eqb k k') eqn:E; cbn.
    + replace (PyStr.eqb k k) with true by (symmetry; apply eqb_eq; reflexivity). reflexivity.
    + rewrite E. exact IH.
Qed.

Lemma dict_get_set_ne k k' v d : k ≠ k' → dict_get k (dict_set k' v d) = dict_get k d.
Proof.
  intros Hne. apply eqb_neq in Hne.
  induction d as [|[k0 v0] d IH]; cbn.
  - rewrite Hne. reflexivity.
  - destruct (PyStr.eqb k' k0) eqn:E; cbn.
    + apply eqb_eq in E as <-. rewrite Hne. reflexivity.
    + destruct (PyStr.eqb k k0); [reflexivity | exact IH].
Qed.

Lemma dict_set_missing k v d : dict_has k d = false → dict_set k v d = d ++ [(k, v)].
Proof.
  unfold dict_has. induction d as [|[k' v'] d IH]; cbn; [reflexivity|].
  destruct (PyStr.eqb k k'); [discriminate|]. intros H. rewrite IH by exact H. reflexivity.
Qed.
End DictFacts.

Lemma all_keys_in_dict keys f :
  all_keys_in keys (JDict f) = Ok (forallb (fun key => dict_has key f) keys).
Proof.
  induction keys as [|k keys IH]; cbn; [reflexivity|].
  destruct (dict_has k f); [exact IH | reflexivity].
Qed.

Lemma validate_files_complete files :
  Forall complete_file files → validate_files files = Ok tt.
Proof.
  induction 1 as [|x files (f & -> & Hf) _ IH]; [reflexivity|].
  cbn [validate_files]. rewrite all_keys_in_dict.
  unfold has_required_keys in Hf. rewrite Hf. exact IH.
Qed.

Lemma validate_files_incomplete files f :
  In (JDict f) files → has_required_keys f = false →
  ∃ e, validate_files files = Raise e.
Proof.
  intros Hin Hf. induction files as [|x files IH]; [destruct Hin|].
  cbn [validate_files].
  destruct (all_keys_in required_keys x) as [[|]|e] eqn:E; cbn.
  - destruct Hin as [-> | Hin]; [|exact (IH Hin)].
    rewrite all_keys_in_dict in E. unfold has_required_keys in Hf. congruence.
  - exists ValueError. reflexivity.
  - exists e. reflexivity.
Qed.

Lemma default_if_missing_dict key value d :
  default_if_missing key value (JDict d) = Ok (JDict (with_default key value d)).
Proof.
  unfold default_if_missing, with_default. cbn.
  destruct (dict_has key d) eqn:E; [reflexivity|].
  cbn. rewrite dict_set_missing by exact E. reflexivity.
Qed.

Lemma dict_get_app_l {V} k (d d' : list (str * V)) v :
  dict_get k d = Some v → dict_get k (d ++ d') = Some v.
Proof.
  induction d as [|[k0 v0] d IH]; cbn; [discriminate|].
  destruct (PyStr.eqb k k0); [auto | exact IH].
Qed.

Lemma dict_get_with_default_ne k key value d :
  k ≠ key → dict_get k (with_default key value d) = dict_get k d.
Proof.
  intros Hne. unfold with_default. destruct (dict_has key d) eqn:E; [reflexivity|].
  rewrite <- (dict_set_missing key value d E). apply dict_get_set_ne. exact Hne.
Qed.

Lemma dict_get_with_default_eq key value d :
  dict_get key (with_default key value d) =
  Some (match dict_get key d with Some v => v | None => value end).
Proof.
  unfold with_default, dict_has. destruct (dict_get key d) eqn:E; [exact E|].
  rewrite <- (dict_set_missing key value d) by (unfold dict_has; rewrite E; reflexivity).
  apply dict_get_set_eq.
Qed.

Lemma dict_get_files_filled d :
  dict_get (py "files") (filled d) =
  Some (match dict_get (py "files") d with Some v => v | None => JList [] end).
Proof.
  unfold filled.
  rewrite dict_get_with_default_ne by discriminate.
  rewrite dict_get_with_default_eq.
  rewrite dict_get_with_default_ne by discriminate. reflexivity.
Qed.

Lemma validate_dict d :
  validate (JDict d) =
  (file_objs ← py_iter (match dict_get (py "files") d with Some v => v | None => JList [] end);
   _ ← validate_files file_objs;
   Ok (JDict (filled d))).
Proof.
  unfold validate. rewrite default_if_missing_dict. cbn [mbind result_bind].
  rewrite default_if_missing_dict. cbn [mbind result_bind].
  rewrite default_if_missing_dict. cbn [mbind result_bind].
  fold (filled d). unfold py_getitem. rewrite (dict_get_files_filled d). reflexivity.
Qed.

(** C5.  A blueprint (a JSON object) with a file object that lacks
    [path], [description] or [copilot_prompt] is rejected as a whole; a
    blueprint that lacks [folders], [files] or [interactions] at the top
    level gets the empty list, the empty list and the empty string for
    them, which by itself raises nothing. *)
Theorem validate_rejects_incomplete_files_and_fills_defaults (d : list (str * json)) :
  (∀ files f,
      dict_get (py "files") d = Some (JList files) →
      In (JDict f) files →
      has_required_keys f = false →
      ∃ e, validate (JDict d) = Raise e)
  ∧
  (files_complete d →
   validate (JDict d) =
   Ok (JDict (with_default (py "interactions") (JStr [])
                (with_default (py "files") (JList [])
                   (with_default (py "folders") (JList []) d))))).
Proof.
  split.
  - intros files f Hfiles Hin Hf. rewrite validate_dict, Hfiles. cbn [py_iter mbind result_bind].
    destruct (validate_files_incomplete files f Hin Hf) as [e ->]. exists e. reflexivity.
  - unfold files_complete. intros Hc. rewrite validate_dict.
    destruct (dict_get (py "files") d) as [v|].
    + destruct Hc as (files & -> & Hall). cbn [py_iter mbind result_bind].
      rewrite (validate_files_complete files Hall). reflexivity.
    + reflexivity.
Qed.

Lemma validate_rejects_incomplete_files_and_fills_defaults_witness :
  (∃ e, validate (JDict [ (py "files",
                           JList [ JDict [ (py "path", JStr (py "a.py"));
                                           (py "description", JStr (py "A")) ] ]) ])
        = Raise e)
  ∧
  validate (JDict [ (py "test_command", JStr (py "pytest")) ]) =
  Ok (JDict [ (py "test_command", JStr (py "pytest"));
              (py "folders", JList []);
              (py "files", JList []);
              (py "interactions", JStr []) ]).
Proof.
  split.
  - apply (proj1 (validate_rejects_incomplete_files_and_fills_defaults _)
             [ JDict [ (py "path", JStr (py "a.py")); (py "description", JStr (py "A")) ] ]
             [ (py "path", JStr (py "a.py")); (py "description", JStr (py "A")) ]).
    + reflexivity.
    + left. reflexivity.
    + reflexivity.
  - apply (proj2 (validate_rejects_incomplete_files_and_fills_defaults
                    [ (py "test_command", JStr (py "pytest")) ])).
    exact I.
Defined.

(** Outside C5: what the validation does with values of other types.  A
    top-level value that is not an object cannot take the defaults, and
    an element of [files] that is a string is tested for the three names
    as substrings. *)
Remark validate_other_types :
  validate (JList []) = Raise TypeError ∧
  validate (JDict [ (py "files", JList [ JStr (py "path, description, copilot_prompt") ]) ])
  = Ok (JDict [ (py "files", JList [ JStr (py "path, description, copilot_prompt") ]);
                (py "folders", JList []);
                (py "interactions", JStr []) ]).
Proof. split; reflexivity. Qed.

(** C6 as stated does not hold: the text of a blueprint whose file has
    the empty string as its path is parsed and accepted. *)
Lemma parse_structure_empty_path_counterexample :
  (∃ f, In (JDict f) [ JDict [ (py "path", JStr []);
                               (py "description", JStr (py "Entry point"));
                               (py "copilot_prompt", JStr (py "Create the entry point")) ] ]
        ∧ dict_get (py "path") f = Some (JStr [])) ∧
  parse_structure (dumps_indent2 blueprint_with_empty_path) = Ok blueprint_with_empty_path ∧
  validate blueprint_with_empty_path = Ok blueprint_with_empty_path.
Proof.
  split; [|split; vm_compute; reflexivity].
  eexists. split; [left; reflexivity | reflexivity].
Qed.

(** C6 (as the code has it).  Validation looks at the keys of a file
    object only, never at the values: a blueprint whose file objects all
    carry the three required keys is accepted, also when the path of one
    of them is the empty string. *)
Theorem validate_accepts_empty_path (d : list (str * json)) (files : list json)
    (f : list (str * json)) :
  dict_get (py "files") d = Some (JList files) →
  Forall complete_file files →
  In (JDict f) files →
  dict_get (py "path") f = Some (JStr []) →
  ∃ structure, validate (JDict d) = Ok structure ∧
               dict_get (py "files") (match structure with JDict d' => d' | _ => [] end)
               = Some (JList files).
Proof.
  intros Hfiles Hall _ _. rewrite validate_dict, Hfiles. cbn [py_iter mbind result_bind].
  rewrite (validate_files_complete files Hall). eexists. split; [reflexivity|].
  cbv beta iota. rewrite dict_get_files_filled, Hfiles. reflexivity.
Qed.

Lemma validate_accepts_empty_path_witness :
  ∃ structure, validate blueprint_with_empty_path = Ok structure ∧
               dict_get (py "files") (match structure with JDict d' => d' | _ => [] end)
               = Some (JList [ JDict [ (py "path", JStr []);
                                       (py "description", JStr (py "Entry point"));
                                       (py "copilot_prompt", JStr (py "Create the entry point")) ] ]).
Proof.
  eapply (validate_accepts_empty_path _ _
            [ (py "path", JStr []);
              (py "description", JStr (py "Entry point"));
              (py "copilot_prompt", JStr (py "Create the entry point")) ]).
  - reflexivity.
  - constructor; [|constructor]. eexists. split; reflexivity.
  - left. reflexivity.
  - reflexivity.
Defined.

End ValidationFacts.

(* ===================================================================== *)
(** * Properties of [ask] followed by [parse_structure] *)
(* ===================================================================== *)

Module AcquisitionFacts.
Import MistralPlanner Props PlannerProps.

Section WithLower.
Variable lower : str -> str.

(** An attempt that ends in a handler goes on to the next attempt unless
    it is the last one. *)
Lemma ask_loop_handled self topic remote total attempt timeout ts h :
  handled_failure (remote attempt timeout) →
  ask_loop lower self topic remote total attempt (timeout :: ts) h =
  if (attempt =? total)%nat
  then (Some <$> _get_fallback_structure lower self topic) h
  else ask_loop lower self topic remote total (S attempt) ts h.
Proof.
  intros [H | [H | H]]; cbn [ask_loop]; rewrite H; destruct (attempt =? total)%nat; reflexivity.
Qed.

(** When every attempt ends in a handler, [ask] returns the fallback
    blueprint, built on the third attempt. *)
Lemma ask_all_handled self topic remote h :
  (∀ attempt timeout, handled_failure (remote attempt timeout)) →
  ask lower self topic remote h = (Some <$> _get_fallback_structure lower self topic) h.
Proof.
  intros Hall. unfold ask, timeouts.
  rewrite !ask_loop_handled by apply Hall. reflexivity.
Qed.

(** The first attempt that gets a content returns it, stripped. *)
Lemma ask_content self topic remote h (k : nat) content :
  (k < 3)%nat →
  (∀ j, (j < k)%nat → handled_failure (remote (S j) (nth j timeouts 0%Z))) →
  remote (S k) (nth k timeouts 0%Z) = ApiContent content →
  ask lower self topic remote h = (Ok (Some (strip content)), h).
Proof.
  intros Hk Hbefore Hcontent. unfold ask, timeouts.
  destruct k as [|[|[|k]]]; try lia.
  - cbn [ask_loop]. cbn in Hcontent. rewrite Hcontent. reflexivity.
  - rewrite ask_loop_handled by (apply (Hbefore 0%nat); lia).
    cbn [length Nat.eqb ask_loop]. cbn in Hcontent. rewrite Hcontent. reflexivity.
  - rewrite ask_loop_handled by (apply (Hbefore 0%nat); lia).
    cbn [length Nat.eqb].
    rewrite ask_loop_handled by (apply (Hbefore 1%nat); lia).
    cbn [length Nat.eqb ask_loop]. cbn in Hcontent. rewrite Hcontent. reflexivity.
Qed.

(** With a console that takes every message, the handlers of [ask]
    print and go on: the call is the one without the messages. *)
Lemma ask_loop_quiet rt self topic remote total (Hquiet : quiet rt) : ∀ ts attempt h,
  Runtime.ask_loop lower rt self topic remote total attempt ts h =
  ask_loop lower self topic remote total attempt ts h.
Proof.
  assert (Hsay : ∀ {B} m (k : unit → M B) h, (Runtime.say rt m ≫= k) h = k tt h).
  { intros B m k h. unfold mbind, M_bind, Runtime.say, Runtime.print.
    rewrite Hquiet. reflexivity. }
  induction ts as [|timeout ts IH]; intros attempt h; [reflexivity|].
  cbn [Runtime.ask_loop ask_loop].
  destruct (remote attempt timeout); try reflexivity;
    rewrite Hsay; destruct (attempt =? total)%nat; try apply IH;
    cbn [Runtime.announces_fallback]; try rewrite Hsay; reflexivity.
Qed.

Lemma ask_quiet rt self topic remote h :
  quiet rt →
  Runtime.ask lower rt self topic remote h = ask lower self topic remote h.
Proof. intros Hquiet. apply ask_loop_quiet, Hquiet. Qed.

(** An attempt that ends with an exception that no handler names ends
    the call. *)
Lemma ask_raises self topic remote h (k : nat) e :
  (k < 3)%nat →
  (∀ j, (j < k)%nat → handled_failure (remote (S j) (nth j timeouts 0%Z))) →
  remote (S k) (nth k timeouts 0%Z) = ApiOtherException e →
  ask lower self topic remote h = (Raise e, h).
Proof.
  intros Hk Hbefore He. unfold ask, timeouts.
  destruct k as [|[|[|k]]]; try lia.
  - cbn [ask_loop]. cbn in He. rewrite He. reflexivity.
  - rewrite ask_loop_handled by (apply (Hbefore 0%nat); lia).
    cbn [length Nat.eqb ask_loop]. cbn in He. rewrite He. reflexivity.
  - rewrite ask_loop_handled by (apply (Hbefore 0%nat); lia).
    cbn [length Nat.eqb].
    rewrite ask_loop_handled by (apply (Hbefore 1%nat); lia).
    cbn [length Nat.eqb ask_loop]. cbn in He. rewrite He. reflexivity.
Qed.

(** Every outcome of an attempt is a handled failure, a content or an
    exception that no handler names. *)
Lemma attempt_cases (r : api_result) :
  handled_failure r ∨ (∃ content, r = ApiContent content) ∨ (∃ e, r = ApiOtherException e).
Proof.
  unfold handled_failure. destruct r; eauto 6.
Qed.

(** When a failure of [json.loads] is handled, the handler prints and
    raises the exception again; an exception raised by [print] takes its
    place. *)
Lemma parse_structure_decode_failure rt text e :
  Runtime.json_loads rt (clean_response text) = Raise e →
  ∃ e', Runtime.parse_structure rt text = Raise e' ∧
        (e' = e ∨ ∃ m, Runtime.print_error rt m = Some e') ∧
        (quiet rt → e' = e).
Proof.
  intros Hloads. unfold Runtime.parse_structure. cbv zeta. rewrite Hloads.
  unfold Runtime.print.
  destruct e; try (eexists; split; [reflexivity | split; [left|]; reflexivity]).
  - destruct (Runtime.print_error rt (Runtime.WithError _)) as [e1|] eqn:E1;
      cbn [mbind result_bind].
    + exists e1. split; [reflexivity|]. split; [right; eexists; exact E1|].
      intros Hquiet. rewrite Hquiet in E1. discriminate.
    + destruct (Runtime.print_error rt (Runtime.Text _)) as [e2|] eqn:E2;
        cbn [mbind result_bind].
      * exists e2. split; [reflexivity|]. split; [right; eexists; exact E2|].
        intros Hquiet. rewrite Hquiet in E2. discriminate.
      * eexists. split; [reflexivity|]. split; [left|]; reflexivity.
  - destruct (Runtime.print_error rt (Runtime.WithError _)) as [e1|] eqn:E1;
      cbn [mbind result_bind].
    + exists e1. split; [reflexivity|]. split; [right; eexists; exact E1|].
      intros Hquiet. rewrite Hquiet in E1. discriminate.
    + eexists. split; [reflexivity|]. split; [left|]; reflexivity.
Qed.

(** C4 (as the code has it).  A response on which [json.loads] raises is
    fatal: [parse_structure] has no way out but an exception (the one
    handled, raised again after the handler has printed, or the one of a
    [print] that failed), blueprint acquisition ends with it, and no
    fallback blueprint is built.  On a console that takes every message,
    [ask] returns the text of the fallback planner when its three
    attempts all end in a handler, and only then: otherwise the first
    attempt that does not end in a handler decides, and [ask] returns its
    content, stripped, or ends with its exception, the heap untouched. *)
Theorem acquire_blueprint_parse_error
    (rt : Runtime.runtime) (self : t) (topic : str) (remote : api) (h : heap) :
  (∀ text h' e,
      Runtime.ask lower rt self topic remote h = (Ok (Some text), h') →
      Runtime.json_loads rt (clean_response text) = Raise e →
      ∃ e', Runtime.acquire_blueprint lower rt self topic remote h = (Raise e', h') ∧
            (quiet rt → e' = e))
  ∧
  (quiet rt →
   (three_handled remote →
    Runtime.ask lower rt self topic remote h
    = (Some <$> _get_fallback_structure lower self topic) h)
   ∧
   (¬ three_handled remote →
    ∃ k, (k < 3)%nat ∧
         (∀ j, (j < k)%nat → handled_failure (remote (S j) (nth j timeouts 0%Z))) ∧
         ((∃ content, remote (S k) (nth k timeouts 0%Z) = ApiContent content ∧
                      Runtime.ask lower rt self topic remote h
                      = (Ok (Some (strip content)), h))
          ∨
          (∃ e, remote (S k) (nth k timeouts 0%Z) = ApiOtherException e ∧
                Runtime.ask lower rt self topic remote h = (Raise e, h))))).
Proof.
  split.
  - intros text h' e Hask Hloads.
    destruct (parse_structure_decode_failure rt text e Hloads) as (e' & Hparse & _ & He').
    exists e'. split; [|exact He'].
    unfold Runtime.acquire_blueprint, mbind, M_bind. rewrite Hask, Hparse. reflexivity.
  - intros Hquiet. rewrite (ask_quiet rt self topic remote h Hquiet). split.
    + intros (H1 & H2 & H3). unfold ask, timeouts.
      rewrite !ask_loop_handled by assumption. reflexivity.
    + intros Hnot.
      assert (Hfirst : ∀ k, (k < 3)%nat →
                (∀ j, (j < k)%nat → handled_failure (remote (S j) (nth j timeouts 0%Z))) →
                ¬ handled_failure (remote (S k) (nth k timeouts 0%Z)) →
                (∃ content, remote (S k) (nth k timeouts 0%Z) = ApiContent content ∧
                            ask lower self topic remote h = (Ok (Some (strip content)), h))
                ∨
                (∃ e, remote (S k) (nth k timeouts 0%Z) = ApiOtherException e ∧
                      ask lower self topic remote h = (Raise e, h))).
      { intros k Hk Hbefore Hk'.
        destruct (attempt_cases (remote (S k) (nth k timeouts 0%Z)))
          as [Hh | [[content Hc] | [e He]]]; [contradiction | left | right].
        - exists content. split; [exact Hc|]. apply (ask_content self topic remote h k); assumption.
        - exists e. split; [exact He|]. apply (ask_raises self topic remote h k); assumption. }
      destruct (attempt_cases (remote 1%nat 30%Z)) as [H1 | H1].
      2:{ exists 0%nat. split; [lia|]. split; [intros j Hj; lia|].
          apply Hfirst; [lia | intros j Hj; lia |].
          intros [Hh | [Hh | Hh]]; destruct H1 as [[c Hc] | [e He]]; cbn in *; congruence. }
      destruct (attempt_cases (remote 2%nat 60%Z)) as [H2 | H2].
      2:{ assert (Hbefore : ∀ j, (j < 1)%nat →
                     handled_failure (remote (S j) (nth j timeouts 0%Z))).
          { intros j Hj. assert (j = 0%nat) as -> by lia. exact H1. }
          exists 1%nat. split; [lia|]. split; [exact Hbefore|].
          apply Hfirst; [lia | exact Hbefore |].
          intros [Hh | [Hh | Hh]]; destruct H2 as [[c Hc] | [e He]]; cbn in *; congruence. }
      destruct (attempt_cases (remote 3%nat 90%Z)) as [H3 | H3].
      { exfalso. apply Hnot. split; [|split]; assumption. }
      assert (Hbefore : ∀ j, (j < 2)%nat →
                 handled_failure (remote (S j) (nth j timeouts 0%Z))).
      { intros j Hj. destruct j as [|[|j]]; [exact H1 | exact H2 | lia]. }
      exists 2%nat. split; [lia|]. split; [exact Hbefore|].
      apply Hfirst; [lia | exact Hbefore |].
      intros [Hh | [Hh | Hh]]; destruct H3 as [[c Hc] | [e He]]; cbn in *; congruence.
Qed.

End WithLower.

Lemma acquire_blueprint_parse_error_witness :
  ∃ e', Runtime.acquire_blueprint ascii_lower usual_runtime new_planner (py "todo app")
          remote_not_json new_heap = (Raise e', new_heap) ∧
        (quiet usual_runtime → e' = JSONDecodeError).
Proof.
  apply (proj1 (acquire_blueprint_parse_error ascii_lower usual_runtime new_planner
                  (py "todo app") remote_not_json new_heap)
           (py "Sure! Here is your project plan.")).
  - reflexivity.
  - vm_compute. reflexivity.
Defined.

(** C4 as stated does not hold: the remote service answers with a text
    that is not JSON, and blueprint acquisition ends with the decode error
    instead of a blueprint. *)
Lemma text_that_is_not_json_counterexample :
  init [] = (Ok new_planner, new_heap) ∧
  Runtime.json_loads usual_runtime (clean_response (py "Sure! Here is your project plan."))
  = Raise JSONDecodeError ∧
  (Runtime.acquire_blueprint ascii_lower usual_runtime new_planner (py "todo app")
     remote_not_json new_heap).1
  = Raise JSONDecodeError ∧
  ∃ blueprint,
    (Runtime.acquire_blueprint ascii_lower usual_runtime new_planner (py "todo app")
       remote_down new_heap).1
    = Ok blueprint.
Proof.
  split; [reflexivity|]. split; [vm_compute; reflexivity|].
  split; [vm_compute; reflexivity|].
  eexists. vm_compute. reflexivity.
Qed.

End AcquisitionFacts.

(* ===================================================================== *)
(** * The fuel of [json.loads] never runs out *)
(* ===================================================================== *)

Module ParserFacts.

#[local] Open Scope nat_scope.

Lemma lstrip_by_length p s : length (lstrip_by p s) ≤ length s.
Proof.
  induction s as [|c s IH]; cbn; [lia|]. destruct (p c); cbn; lia.
Qed.

Lemma skip_ws_length s : length (skip_ws s) ≤ length s.
Proof. apply lstrip_by_length. Qed.

(** ** Every parser consumes input *)

Lemma scanstring_shorter n : ∀ s, length s ≤ n → ∀ acc x r,
  scanstring s acc = Some (x, r) → length r < length s.
Proof.
  induction n as [|n IH]; intros s Hlen acc x r; destruct s as [|c s];
    cbn [length] in Hlen; cbn [scanstring]; try discriminate; try lia.
  assert (Hrec : ∀ t a, length t ≤ length s →
            scanstring t a = Some (x, r) → length r < S (length s)).
  { intros t a Ht H. apply IH in H; lia. }
  cbn [length].
  destruct (c =? 34)%N; [intros [= _ <-]; lia|].
  destruct (c =? 92)%N.
  - destruct s as [|e r1]; [discriminate|].
    destruct (e =? 117)%N.
    + destruct r1 as [|h1 [|h2 [|h3 [|h4 r2]]]]; try discriminate.
      destruct (decode_hex4 h1 h2 h3 h4) as [uni|]; [|discriminate].
      destruct (is_high_surrogate uni).
      * destruct r2 as [|b [|u [|g1 [|g2 [|g3 [|g4 r3]]]]]];
          try (apply Hrec; cbn [length]; lia).
        destruct ((b =? 92)%N && (u =? 117)%N); [|apply Hrec; cbn [length]; lia].
        destruct (decode_hex4 g1 g2 g3 g4) as [uni2|]; [|discriminate].
        destruct (is_low_surrogate uni2); apply Hrec; cbn [length]; lia.
      * apply Hrec. cbn [length]. lia.
    + destruct (backslash e); [|discriminate]. apply Hrec. cbn [length]. lia.
  - destruct (c <? 32)%N; [discriminate|]. apply Hrec. lia.
Qed.

Lemma span_digits_length s : ∀ ds r, span_digits s = (ds, r) → length r ≤ length s.
Proof.
  induction s as [|c s IH]; intros ds r; cbn [span_digits].
  - intros [= _ <-]. lia.
  - destruct (is_digit c).
    + destruct (span_digits s) as [ds' r'] eqn:E. intros [= _ <-].
      specialize (IH ds' r' eq_refl). cbn [length]. lia.
    + intros [= _ <-]. lia.
Qed.

Lemma match_integer_shorter s neg ds r :
  match_integer s = Some (neg, ds, r) → length r < length s.
Proof.
  unfold match_integer.
  destruct s as [|c s']; [discriminate|].
  destruct (c =? 45)%N; intros H.
  - destruct s' as [|d r0]; [discriminate|]. revert H.
    destruct (d =? 48)%N; [intros [= _ _ <-]; cbn [length]; lia|].
    destruct (is_digit d); [|discriminate].
    destruct (span_digits r0) as [ds0 r'] eqn:E. intros [= _ _ <-].
    apply span_digits_length in E. cbn [length]. lia.
  - revert H.
    destruct (c =? 48)%N; [intros [= _ _ <-]; cbn [length]; lia|].
    destruct (is_digit c); [|discriminate].
    destruct (span_digits s') as [ds0 r'] eqn:E. intros [= _ _ <-].
    apply span_digits_length in E. cbn [length]. lia.
Qed.


Lemma match_frac_length s f r : match_frac s = Some (f, r) → length r ≤ length s.
Proof.
  unfold match_frac. destruct s as [|dot [|d s']]; try discriminate.
  destruct ((dot =? 46)%N && is_digit d); [|discriminate].
  destruct (span_digits (d :: s')) as [ds r'] eqn:E. intros [= _ <-].
  apply span_digits_length in E. cbn [length] in *. lia.
Qed.

Lemma match_exp_length s x r : match_exp s = Some (x, r) → length r ≤ length s.
Proof.
  unfold match_exp. destruct s as [|e s']; [discriminate|].
  destruct ((e =? 101)%N || (e =? 69)%N); [|discriminate].
  destruct s' as [|c r'].
  - cbn. discriminate.
  - destruct ((c =? 43)%N || (c =? 45)%N).
    + destruct (span_digits r') as [[|d ds] r2] eqn:E; [discriminate|].
      intros [= _ <-]. apply span_digits_length in E. cbn [length]. lia.
    + destruct (span_digits (c :: r')) as [[|d ds] r2] eqn:E; [discriminate|].
      intros [= _ <-]. apply span_digits_length in E. cbn [length] in *. lia.
Qed.

Lemma match_number_shorter s v r : match_number s = Some (v, r) → length r < length s.
Proof.
  unfold match_number.
  destruct (match_integer s) as [[[neg ds] r0]|] eqn:Ei; [|discriminate].
  apply match_integer_shorter in Ei.
  destruct (match_frac r0) as [[f r1]|] eqn:Ef.
  - apply match_frac_length in Ef.
    destruct (match_exp r1) as [[x r2]|] eqn:Ex.
    + apply match_exp_length in Ex. destruct f, x; intros [= _ <-]; lia.
    + destruct f; intros [= _ <-]; lia.
  - destruct (match_exp r0) as [[x r2]|] eqn:Ex.
    + apply match_exp_length in Ex. destruct x; intros [= _ <-]; lia.
    + intros [= _ <-]. lia.
Qed.

Lemma startswith_length p : ∀ s, startswith p s = true → length p ≤ length s.
Proof.
  induction p as [|a p IH]; intros [|b s]; cbn; try discriminate; try lia.
  intros H. apply andb_true_iff in H as [_ H]. apply IH in H. lia.
Qed.

Lemma strip_prefix_shorter p s r :
  p ≠ [] → strip_prefix p s = Some r → length r < length s.
Proof.
  unfold strip_prefix. intros Hp. destruct (startswith p s) eqn:E; [|discriminate].
  intros [= <-]. apply startswith_length in E. rewrite length_skipn.
  destruct p; [contradiction|]. cbn [length] in *. lia.
Qed.

Lemma match_constant_shorter s v r : match_constant s = Some (v, r) → length r < length s.
Proof.
  unfold match_constant.
  repeat match goal with
  | |- context [strip_prefix ?p s] =>
      let E := fresh "E" in
      destruct (strip_prefix p s) eqn:E;
      [apply strip_prefix_shorter in E; [|discriminate]; intros [= _ <-]; exact E|]
  | |- context [match_number s] =>
      let E := fresh "E" in
      destruct (match_number s) as [[? ?]|] eqn:E;
      [apply match_number_shorter in E; intros [= _ <-]; exact E|]
  end.
  discriminate.
Qed.

(** [parse_value], [parse_elems] and [parse_members] return a text that
    is shorter than the one they were given. *)
Lemma parse_shorter f :
  (∀ s v r, parse_value f s = Some (v, r) → length r < length s) ∧
  (∀ s acc v r, parse_elems f s acc = Some (v, r) → length r < length s) ∧
  (∀ s acc v r, parse_members f s acc = Some (v, r) → length r < length s).
Proof.
  induction f as [|f (IHv & IHe & IHm)]; [repeat split; intros; discriminate|].
  split; [|split].
  - intros s v r. cbn [parse_value]. destruct s as [|c s']; [discriminate|].
    destruct (c =? 34)%N.
    { destruct (scanstring s' []) as [[x r']|] eqn:E; [|discriminate].
      intros [= _ <-]. apply (scanstring_shorter _ _ (le_n _)) in E. cbn [length]. lia. }
    destruct (c =? 123)%N.
    { pose proof (skip_ws_length s') as Hws.
      destruct (skip_ws s') as [|c' r']; [discriminate|]. cbn [length] in Hws.
      destruct (c' =? 125)%N; [intros [= _ <-]; cbn [length]; lia|].
      intros H. apply IHm in H. cbn [length] in *. lia. }
    destruct (c =? 91)%N.
    { pose proof (skip_ws_length s') as Hws.
      destruct (skip_ws s') as [|c' r']; [discriminate|]. cbn [length] in Hws.
      destruct (c' =? 93)%N; [intros [= _ <-]; cbn [length]; lia|].
      intros H. apply IHe in H. cbn [length] in *. lia. }
    apply match_constant_shorter.
  - intros s acc v r. cbn [parse_elems].
    destruct (parse_value f s) as [[v0 r0]|] eqn:Ev; [|discriminate].
    apply IHv in Ev. pose proof (skip_ws_length r0) as Hws.
    destruct (skip_ws r0) as [|c r']; [discriminate|]. cbn [length] in Hws.
    destruct (c =? 93)%N; [intros [= _ <-]; lia|].
    destruct (c =? 44)%N; [|discriminate].
    intros H. apply IHe in H. pose proof (skip_ws_length r'). lia.
  - intros s acc v r. cbn [parse_members].
    destruct s as [|q s']; [discriminate|].
    destruct (q =? 34)%N; [|discriminate].
    destruct (scanstring s' []) as [[k r1]|] eqn:Ek; [|discriminate].
    apply (scanstring_shorter _ _ (le_n _)) in Ek.
    pose proof (skip_ws_length r1) as Hws1.
    destruct (skip_ws r1) as [|colon r2]; [discriminate|]. cbn [length] in Hws1.
    destruct (colon =? 58)%N; [|discriminate].
    pose proof (skip_ws_length r2) as Hws2.
    destruct (parse_value f (skip_ws r2)) as [[v0 r3]|] eqn:Ev; [|discriminate].
    apply IHv in Ev. pose proof (skip_ws_length r3) as Hws3.
    destruct (skip_ws r3) as [|c r4]; [discriminate|]. cbn [length] in Hws3.
    destruct (c =? 125)%N; [intros [= _ <-]; cbn [length]; lia|].
    destruct (c =? 44)%N; [|discriminate].
    intros H. apply IHm in H. pose proof (skip_ws_length r4). cbn [length]. lia.
Qed.


(** ** More fuel changes nothing *)

(** With at least [2 * n + 1] units of fuel for a value ([2 * n + 2] for
    the items of a list or a dict) on a text of at most [n] characters,
    the result does not depend on the fuel. *)
Lemma parse_fuel_enough n :
  (∀ s, length s ≤ n → ∀ f f', 2 * n + 1 ≤ f → 2 * n + 1 ≤ f' →
        parse_value f s = parse_value f' s) ∧
  (∀ s acc, length s ≤ n → ∀ f f', 2 * n + 2 ≤ f → 2 * n + 2 ≤ f' →
        parse_elems f s acc = parse_elems f' s acc) ∧
  (∀ s acc, length s ≤ n → ∀ f f', 2 * n + 2 ≤ f → 2 * n + 2 ≤ f' →
        parse_members f s acc = parse_members f' s acc).
Proof.
  induction n as [n IH] using lt_wf_ind.
  assert (Hval : ∀ s, length s ≤ n → ∀ f f', 2 * n + 1 ≤ f → 2 * n + 1 ≤ f' →
                 parse_value f s = parse_value f' s).
  { intros s Hlen [|g] [|g'] Hf Hf'; try lia. cbn [parse_value].
    destruct s as [|c s']; [reflexivity|]. cbn [length] in Hlen.
    destruct (c =? 34)%N; [reflexivity|].
    destruct (c =? 123)%N.
    { pose proof (skip_ws_length s') as Hws.
      destruct (skip_ws s') as [|c' r']; [reflexivity|]. cbn [length] in Hws.
      destruct (c' =? 125)%N; [reflexivity|].
      apply (IH (n - 1)); cbn [length]; lia. }
    destruct (c =? 91)%N; [|reflexivity].
    pose proof (skip_ws_length s') as Hws.
    destruct (skip_ws s') as [|c' r']; [reflexivity|]. cbn [length] in Hws.
    destruct (c' =? 93)%N; [reflexivity|].
    apply (IH (n - 1)); cbn [length]; lia. }
  split; [exact Hval|]. split.
  - intros s acc Hlen [|g] [|g'] Hf Hf'; try lia. cbn [parse_elems].
    rewrite (Hval s Hlen g g') by lia.
    destruct (parse_value g' s) as [[v0 r0]|] eqn:Ev; [|reflexivity].
    apply (proj1 (parse_shorter g')) in Ev. pose proof (skip_ws_length r0) as Hws.
    destruct (skip_ws r0) as [|c r']; [reflexivity|]. cbn [length] in Hws.
    destruct (c =? 93)%N; [reflexivity|].
    destruct (c =? 44)%N; [|reflexivity].
    pose proof (skip_ws_length r').
    apply (IH (n - 1)); lia.
  - intros s acc Hlen [|g] [|g'] Hf Hf'; try lia. cbn [parse_members].
    destruct s as [|q s']; [reflexivity|]. cbn [length] in Hlen.
    destruct (q =? 34)%N; [|reflexivity].
    destruct (scanstring s' []) as [[k r1]|] eqn:Ek; [|reflexivity].
    apply (scanstring_shorter _ _ (le_n _)) in Ek.
    pose proof (skip_ws_length r1) as Hws1.
    destruct (skip_ws r1) as [|colon r2]; [reflexivity|]. cbn [length] in Hws1.
    destruct (colon =? 58)%N; [|reflexivity].
    pose proof (skip_ws_length r2) as Hws2.
    rewrite (Hval (skip_ws r2) ltac:(lia) g g') by lia.
    destruct (parse_value g' (skip_ws r2)) as [[v0 r3]|] eqn:Ev; [|reflexivity].
    apply (proj1 (parse_shorter g')) in Ev. pose proof (skip_ws_length r3) as Hws3.
    destruct (skip_ws r3) as [|c r4]; [reflexivity|]. cbn [length] in Hws3.
    destruct (c =? 125)%N; [reflexivity|].
    destruct (c =? 44)%N; [|reflexivity].
    pose proof (skip_ws_length r4).
    apply (IH (n - 1)); lia.
Qed.

(** The fuel that [loads] takes is enough: no larger amount gives another
    result, so that [loads] fails only where the text is not JSON. *)
Lemma loads_fuel_enough s f :
  loads_fuel s ≤ f →
  parse_value f (skip_ws s) = parse_value (loads_fuel s) (skip_ws s).
Proof.
  intros Hf. unfold loads_fuel in *.
  apply (proj1 (parse_fuel_enough (length s))); [apply skip_ws_length | lia | lia].
Qed.

End ParserFacts.

(* ===================================================================== *)
(** * [json.loads] reads back what [json.dumps] wrote *)
(* ===================================================================== *)

Module JsonFacts.
Import MistralPlanner Props.

Ltac Zify.zify_post_hook ::= Z.to_euclidean_division_equations.

(** ** Hexadecimal digits and surrogates *)

(** A property checked on every number below a bound. *)
Lemma forall_below (P : N → bool) (n : nat) :
  forallb P (map N.of_nat (seq 0 n)) = true → ∀ x, x < N.of_nat n → P x = true.
Proof.
  intros H x Hx. rewrite forallb_forall in H. apply H.
  apply in_map_iff. exists (N.to_nat x). split; [lia|].
  apply in_seq. lia.
Qed.

Lemma hexval_hexdigit d : d < 16 → hexval (hexdigit d) = Some d.
Proof.
  intros Hd.
  pose proof (forall_below
                (fun d => match hexval (hexdigit d) with Some x => x =? d | None => false end) 16
                ltac:(vm_compute; reflexivity) d Hd) as H.
  cbv beta in H. destruct (hexval (hexdigit d)); [|discriminate].
  apply N.eqb_eq in H as ->. reflexivity.
Qed.

Lemma nibble_lt x : N.land x 15 < 16.
Proof.
  change 15 with (N.ones 4). rewrite N.land_ones. apply N.mod_lt. discriminate.
Qed.

Lemma nibbles_value n :
  n < 65536 →
  ((N.land (N.shiftr n 12) 15 * 16 + N.land (N.shiftr n 8) 15) * 16
   + N.land (N.shiftr n 4) 15) * 16 + N.land n 15 = n.
Proof.
  intros Hn. change 15 with (N.ones 4). rewrite !N.land_ones, !N.shiftr_div_pow2.
  change (2 ^ 12) with 4096. change (2 ^ 8) with 256. change (2 ^ 4) with 16.
  lia.
Qed.

(** Four hexadecimal digits are read back as the number they were
    written from. *)
Lemma decode_hex4_hex4 n h1 h2 h3 h4 :
  n < 65536 → hex4 n = [h1; h2; h3; h4] → decode_hex4 h1 h2 h3 h4 = Some n.
Proof.
  intros Hn [= <- <- <- <-]. unfold decode_hex4.
  rewrite !hexval_hexdigit by apply nibble_lt.
  rewrite nibbles_value by exact Hn. reflexivity.
Qed.

Lemma lor_surrogate_base base y :
  (base = 55296 ∨ base = 56320) → y < 1024 → N.lor base y = base + y.
Proof.
  intros Hb Hy.
  pose proof (forall_below
                (fun y => (N.lor 55296 y =? 55296 + y) && (N.lor 56320 y =? 56320 + y)) 1024
                ltac:(vm_compute; reflexivity) y Hy) as H.
  apply andb_true_iff in H as [H1 H2]. apply N.eqb_eq in H1, H2.
  destruct Hb as [-> | ->]; assumption.
Qed.

Lemma land_1023_lt x : N.land x 1023 < 1024.
Proof.
  change 1023 with (N.ones 10). rewrite N.land_ones. apply N.mod_lt. discriminate.
Qed.

Lemma high_unit_range x :
  55296 ≤ N.lor 55296 (N.land x 1023) ≤ 56319.
Proof.
  rewrite lor_surrogate_base by (auto using land_1023_lt).
  pose proof (land_1023_lt x). lia.
Qed.

Lemma low_unit_range x :
  56320 ≤ N.lor 56320 (N.land x 1023) ≤ 57343.
Proof.
  rewrite lor_surrogate_base by (auto using land_1023_lt).
  pose proof (land_1023_lt x). lia.
Qed.


(** ** One step of [scanstring] *)

Lemma scan_quote r acc : scanstring (34 :: r) acc = Some (rev acc, r).
Proof. reflexivity. Qed.

Lemma scan_plain c r acc :
  c ≠ 34 → c ≠ 92 → 32 ≤ c → scanstring (c :: r) acc = scanstring r (c :: acc).
Proof.
  intros H34 H92 H32. cbn [scanstring].
  rewrite (proj2 (N.eqb_neq c 34) H34), (proj2 (N.eqb_neq c 92) H92),
    (proj2 (N.ltb_ge c 32) H32).
  reflexivity.
Qed.

Lemma scan_backslash e x r acc :
  e ≠ 117 → backslash e = Some x →
  scanstring (92 :: e :: r) acc = scanstring r (x :: acc).
Proof.
  intros He Hx. cbn [scanstring].
  change (92 =? 34) with false. change (92 =? 92) with true. cbv iota.
  rewrite (proj2 (N.eqb_neq e 117) He), Hx. reflexivity.
Qed.

Lemma scan_u_plain h1 h2 h3 h4 r acc uni :
  decode_hex4 h1 h2 h3 h4 = Some uni → is_high_surrogate uni = false →
  scanstring (92 :: 117 :: h1 :: h2 :: h3 :: h4 :: r) acc = scanstring r (uni :: acc).
Proof.
  intros Hd Hh. cbn [scanstring].
  change (92 =? 34) with false. change (92 =? 92) with true.
  change (117 =? 117) with true. cbv iota.
  rewrite Hd, Hh. reflexivity.
Qed.

Lemma scan_u_pair h1 h2 h3 h4 g1 g2 g3 g4 r acc uni uni2 :
  decode_hex4 h1 h2 h3 h4 = Some uni → is_high_surrogate uni = true →
  decode_hex4 g1 g2 g3 g4 = Some uni2 → is_low_surrogate uni2 = true →
  scanstring (92 :: 117 :: h1 :: h2 :: h3 :: h4 :: 92 :: 117 :: g1 :: g2 :: g3 :: g4 :: r) acc
  = scanstring r (join_surrogates uni uni2 :: acc).
Proof.
  intros Hd Hh Hd2 Hl. cbn [scanstring].
  change (92 =? 34) with false. change (92 =? 92) with true.
  change (117 =? 117) with true. cbv iota.
  rewrite Hd, Hh. cbn [andb]. rewrite Hd2, Hl. reflexivity.
Qed.

Lemma scan_u_lone h1 h2 h3 h4 r acc uni :
  decode_hex4 h1 h2 h3 h4 = Some uni → is_high_surrogate uni = true →
  no_low_escape r →
  scanstring (92 :: 117 :: h1 :: h2 :: h3 :: h4 :: r) acc = scanstring r (uni :: acc).
Proof.
  intros Hd Hh Hr. cbn [scanstring].
  change (92 =? 34) with false. change (92 =? 92) with true.
  change (117 =? 117) with true. cbv iota.
  rewrite Hd, Hh.
  destruct r as [|b [|u [|g1 [|g2 [|g3 [|g4 r3]]]]]]; try reflexivity.
  destruct (N.eqb_spec b 92) as [-> | Hb]; [|reflexivity].
  destruct (N.eqb_spec u 117) as [-> | Hu]; [|reflexivity].
  cbn [andb].
  destruct (Hr g1 g2 g3 g4 r3 eq_refl) as (uni2 & -> & ->). reflexivity.
Qed.

(** ** The shapes of an escaped code point *)

Lemma escape_char_cases c :
  (escape_char c = [c] ∧ c ≠ 34 ∧ c ≠ 92 ∧ 32 ≤ c ∧ c ≤ 126)
  ∨ (∃ e, escape_char c = [92; e] ∧ e ≠ 117 ∧ backslash e = Some c ∧ c ≤ 126)
  ∨ (escape_char c = 92 :: 117 :: hex4 c ∧ c < 65536)
  ∨ (escape_char c = 92 :: 117 :: hex4 (high_unit c) ++ 92 :: 117 :: hex4 (low_unit c)
     ∧ 65536 ≤ c).
Proof.
  unfold escape_char.
  destruct (N.eqb_spec c 92) as [-> | H92].
  { right. left. exists 92. repeat split; [discriminate | lia]. }
  destruct (N.eqb_spec c 34) as [-> | H34].
  { right. left. exists 34. repeat split; [discriminate | lia]. }
  destruct (N.leb_spec 32 c) as [H32 | H32]; cbn [andb].
  { destruct (N.leb_spec c 126) as [H126 | H126].
    - left. repeat split; assumption.
    - destruct (N.eqb_spec c 8); [lia|]. destruct (N.eqb_spec c 12); [lia|].
      destruct (N.eqb_spec c 10); [lia|]. destruct (N.eqb_spec c 13); [lia|].
      destruct (N.eqb_spec c 9); [lia|].
      destruct (N.ltb_spec c 65536).
      + right. right. left. split; [reflexivity | assumption].
      + right. right. right. split; [reflexivity | assumption]. }
  destruct (N.eqb_spec c 8) as [-> | H8].
  { right. left. exists 98. repeat split; [discriminate | lia]. }
  destruct (N.eqb_spec c 12) as [-> | H12].
  { right. left. exists 102. repeat split; [discriminate | lia]. }
  destruct (N.eqb_spec c 10) as [-> | H10].
  { right. left. exists 110. repeat split; [discriminate | lia]. }
  destruct (N.eqb_spec c 13) as [-> | H13].
  { right. left. exists 114. repeat split; [discriminate | lia]. }
  destruct (N.eqb_spec c 9) as [-> | H9].
  { right. left. exists 116. repeat split; [discriminate | lia]. }
  destruct (N.ltb_spec c 65536); [|lia].
  right. right. left. split; [reflexivity | assumption].
Qed.

Lemma is_high_surrogate_true c : is_high_surrogate c = true ↔ 55296 ≤ c ≤ 56319.
Proof. unfold is_high_surrogate. rewrite andb_true_iff, !N.leb_le. reflexivity. Qed.

Lemma is_low_surrogate_true c : is_low_surrogate c = true ↔ 56320 ≤ c ≤ 57343.
Proof. unfold is_low_surrogate. rewrite andb_true_iff, !N.leb_le. reflexivity. Qed.

Lemma is_high_surrogate_false c : is_high_surrogate c = false ↔ ¬ (55296 ≤ c ≤ 56319).
Proof. rewrite <- is_high_surrogate_true. destruct (is_high_surrogate c); intuition congruence. Qed.

Lemma is_low_surrogate_false c : is_low_surrogate c = false ↔ ¬ (56320 ≤ c ≤ 57343).
Proof. rewrite <- is_low_surrogate_true. destruct (is_low_surrogate c); intuition congruence. Qed.

Lemma hex4_shape n : ∃ h1 h2 h3 h4, hex4 n = [h1; h2; h3; h4].
Proof. unfold hex4. eauto. Qed.

Lemma no_low_escape_quote rest : no_low_escape (34 :: rest).
Proof. intros g1 g2 g3 g4 r3 [=]. Qed.

Lemma no_low_escape_char c tail :
  is_low_surrogate c = false → no_low_escape (escape_char c ++ tail).
Proof.
  intros Hlow g1 g2 g3 g4 r3 Heq.
  destruct (escape_char_cases c)
    as [(He & _ & H92 & _) | [(e & He & Hu & _) | [(He & Hc) | (He & Hc)]]];
    rewrite He in Heq.
  - injection Heq as -> _. contradiction.
  - injection Heq as -> _. contradiction.
  - destruct (hex4_shape c) as (h1 & h2 & h3 & h4 & Hh). rewrite Hh in Heq.
    injection Heq as <- <- <- <- _.
    exists c. split; [apply decode_hex4_hex4; assumption | exact Hlow].
  - destruct (hex4_shape (high_unit c)) as (h1 & h2 & h3 & h4 & Hh). rewrite Hh in Heq.
    injection Heq as <- <- <- <- _.
    pose proof (high_unit_range (N.shiftr (c - 65536) 10)) as Hr. fold (high_unit c) in Hr.
    exists (high_unit c). split.
    + apply decode_hex4_hex4; [lia | assumption].
    + apply is_low_surrogate_false. lia.
Qed.


(** ** Strings *)

Lemma recode_cons_bmp c s :
  c < 65536 → is_high_surrogate c = false → recode (c :: s) = c :: recode s.
Proof.
  intros Hc Hh. cbn [recode].
  destruct (N.leb_spec 65536 c); [lia|]. rewrite Hh. reflexivity.
Qed.

Lemma escape_app s t : escape (s ++ t) = escape s ++ escape t.
Proof.
  induction s as [|c s IH]; cbn [escape app]; [reflexivity|].
  rewrite IH, app_assoc. reflexivity.
Qed.

(** [scanstring] reads the escaped form of any string up to the closing
    quote and returns [recode] of the string. *)
Lemma scanstring_escape_bounded n : ∀ s, (length s ≤ n)%nat → ∀ acc rest,
  scanstring (escape s ++ 34 :: rest) acc = Some (rev acc ++ recode s, rest).
Proof.
  induction n as [|n IH]; intros s Hlen acc rest.
  { destruct s; [|cbn in Hlen; lia]. cbn. rewrite app_nil_r. reflexivity. }
  destruct s as [|c s]; [cbn; rewrite app_nil_r; reflexivity|].
  cbn [length] in Hlen. cbn [escape]. rewrite <- app_assoc.
  assert (Hplain : ∀ x, rev (x :: acc) ++ recode s = rev acc ++ x :: recode s).
  { intros x. cbn [rev]. rewrite <- app_assoc. reflexivity. }
  destruct (escape_char_cases c)
    as [(He & H34 & H92 & H32 & H126) | [(e & He & Hu & Hb & H126) | [(He & Hc) | (He & Hc)]]];
    rewrite He.
  - cbn [app]. rewrite scan_plain by assumption. rewrite IH by lia.
    rewrite recode_cons_bmp by (try apply is_high_surrogate_false; lia). rewrite Hplain. reflexivity.
  - cbn [app]. rewrite (scan_backslash e c) by assumption. rewrite IH by lia.
    rewrite recode_cons_bmp by (try apply is_high_surrogate_false; lia). rewrite Hplain. reflexivity.
  - destruct (hex4_shape c) as (h1 & h2 & h3 & h4 & Hh). rewrite Hh. cbn [app].
    pose proof (decode_hex4_hex4 c h1 h2 h3 h4 Hc Hh) as Hd.
    destruct (is_high_surrogate c) eqn:Hhigh.
    + destruct s as [|c2 s2].
      * cbn [escape app]. rewrite (scan_u_lone _ _ _ _ _ _ c Hd Hhigh) by apply no_low_escape_quote.
        rewrite scan_quote. cbn [recode].
        destruct (N.leb_spec 65536 c); [lia|]. rewrite Hhigh. cbn [rev]. reflexivity.
      * destruct (is_low_surrogate c2) eqn:Hlow.
        -- assert (Hc2 : escape_char c2 = 92 :: 117 :: hex4 c2 ∧ c2 < 65536).
           { apply is_low_surrogate_true in Hlow.
             destruct (escape_char_cases c2)
               as [(_ & _ & _ & _ & H) | [(e & _ & _ & _ & H) | [H | (_ & H)]]];
               try lia. exact H. }
           destruct Hc2 as [He2 Hc2].
           destruct (hex4_shape c2) as (g1 & g2 & g3 & g4 & Hg).
           cbn [escape]. rewrite He2, Hg. cbn [app].
           rewrite (scan_u_pair _ _ _ _ _ _ _ _ _ _ c c2 Hd Hhigh
                      (decode_hex4_hex4 c2 _ _ _ _ Hc2 Hg) Hlow).
           cbn [length] in Hlen. rewrite IH by lia.
           cbn [recode]. destruct (N.leb_spec 65536 c); [lia|]. rewrite Hhigh, Hlow.
           cbn [rev]. rewrite <- app_assoc. reflexivity.
        -- rewrite (scan_u_lone _ _ _ _ _ _ c Hd Hhigh).
           2:{ cbn [escape]. rewrite <- app_assoc. apply no_low_escape_char. exact Hlow. }
           rewrite IH by lia.
           cbn [recode]. destruct (N.leb_spec 65536 c); [lia|]. rewrite Hhigh, Hlow.
           cbn [rev]. rewrite <- app_assoc. reflexivity.
    + rewrite (scan_u_plain _ _ _ _ _ _ c Hd Hhigh). rewrite IH by lia.
      rewrite recode_cons_bmp by assumption. rewrite Hplain. reflexivity.
  - destruct (hex4_shape (high_unit c)) as (h1 & h2 & h3 & h4 & Hh).
    destruct (hex4_shape (low_unit c)) as (g1 & g2 & g3 & g4 & Hg).
    rewrite Hh, Hg. cbn [app].
    pose proof (high_unit_range (N.shiftr (c - 65536) 10)) as Hhr. fold (high_unit c) in Hhr.
    pose proof (low_unit_range (c - 65536)) as Hlr. fold (low_unit c) in Hlr.
    rewrite (scan_u_pair _ _ _ _ _ _ _ _ _ _ (high_unit c) (low_unit c)).
    + rewrite IH by lia. cbn [recode].
      destruct (N.leb_spec 65536 c); [|lia].
      fold (high_unit c) (low_unit c). cbn [rev]. rewrite <- app_assoc. reflexivity.
    + apply decode_hex4_hex4; [lia | assumption].
    + apply is_high_surrogate_true. lia.
    + apply decode_hex4_hex4; [lia | assumption].
    + apply is_low_surrogate_true. lia.
Qed.

Lemma scanstring_escape s rest :
  scanstring (escape s ++ 34 :: rest) [] = Some (recode s, rest).
Proof. exact (scanstring_escape_bounded (length s) s (le_n _) [] rest). Qed.

Lemma lor_shiftl_10 a b : b < 1024 → N.lor (N.shiftl a 10) b = a * 1024 + b.
Proof.
  intros Hb.
  assert (Hdisj : N.land (N.shiftl a 10) b = 0).
  { apply N.bits_inj. intros i. rewrite N.land_spec, N.bits_0.
    destruct (N.ltb_spec i 10) as [Hi | Hi].
    - rewrite N.shiftl_spec_low by assumption. reflexivity.
    - replace b with (N.land b (N.ones 10))
        by (rewrite N.land_ones; apply N.mod_small; exact Hb).
      rewrite N.land_spec, N.ones_spec_high by assumption.
      rewrite !andb_false_r. reflexivity. }
  rewrite <- N.lxor_lor, <- N.add_nocarry_lxor by exact Hdisj.
  rewrite N.shiftl_mul_pow2. reflexivity.
Qed.

(** A string without surrogates and without code points beyond the
    Unicode range is read back unchanged. *)
Lemma recode_scalar s :
  Forall (fun c => c < 1114112 ∧ ¬ (55296 ≤ c ≤ 57343)) s → recode s = s.
Proof.
  induction 1 as [|c s [Hc Hs] _ IH]; [reflexivity|].
  cbn [recode]. destruct (N.leb_spec 65536 c) as [Hbig | Hsmall].
  - rewrite IH. f_equal.
    rewrite (lor_surrogate_base 55296), (lor_surrogate_base 56320)
      by (auto using land_1023_lt).
    unfold join_surrogates.
    replace (55296 + N.land (N.shiftr (c - 65536) 10) 1023 - 55296)
      with (N.land (N.shiftr (c - 65536) 10) 1023) by lia.
    replace (56320 + N.land (c - 65536) 1023 - 56320) with (N.land (c - 65536) 1023) by lia.
    rewrite lor_shiftl_10 by apply land_1023_lt.
    change 1023 with (N.ones 10). rewrite !N.land_ones, N.shiftr_div_pow2.
    change (2 ^ 10) with 1024. lia.
  - rewrite (proj2 (is_high_surrogate_false c)) by lia. rewrite IH. reflexivity.
Qed.


(** ** Values *)

Lemma json_nested_ind (P : json → Prop) :
  P JNull → (∀ b, P (JBool b)) → (∀ z, P (JInt z)) → (∀ lit, P (JFloat lit)) →
  (∀ s, P (JStr s)) →
  (∀ l, Forall P l → P (JList l)) →
  (∀ d, Forall (fun kv => P kv.2) d → P (JDict d)) →
  ∀ v, P v.
Proof.
  intros Hnull Hbool Hint Hfloat Hstr Hlist Hdict.
  fix IH 1. intros [| b | z | lit | s | l | d].
  - exact Hnull.
  - apply Hbool.
  - apply Hint.
  - apply Hfloat.
  - apply Hstr.
  - apply Hlist. induction l as [|x l IHl]; constructor; [apply IH | exact IHl].
  - apply Hdict. induction d as [|[k x] d IHd]; constructor; [apply IH | exact IHd].
Qed.

Lemma skip_ws_keep c r : is_ws c = false → skip_ws (c :: r) = c :: r.
Proof. intros H. unfold skip_ws. cbn. rewrite H. reflexivity. Qed.

Lemma skip_ws_spaces k s : skip_ws (repeat 32 k ++ s) = skip_ws s.
Proof. induction k as [|k IH]; [reflexivity | exact IH]. Qed.

Lemma skip_ws_newline_indent lvl s : skip_ws (newline_indent lvl ++ s) = skip_ws s.
Proof. unfold newline_indent. cbn [app]. exact (skip_ws_spaces _ s). Qed.

(** The text of a string, a list or a dict starts with a quote, a
    bracket or a brace. *)
Lemma dumps_at_head lvl v :
  str_tree v = true → ∃ c r, dumps_at lvl v = c :: r ∧ (c = 34 ∨ c = 91 ∨ c = 123).
Proof.
  destruct v as [| | | | s | [|x l] | [|[k x] d]]; try discriminate; intros _; cbn; eauto 10.
Qed.

Lemma skip_ws_dumps lvl v s :
  str_tree v = true → skip_ws (dumps_at lvl v ++ s) = dumps_at lvl v ++ s.
Proof.
  intros Hv. destruct (dumps_at_head lvl v Hv) as (c & r & -> & Hc).
  cbn [app]. apply skip_ws_keep. destruct Hc as [-> | [-> | ->]]; reflexivity.
Qed.

Lemma parse_value_quote f r :
  parse_value (S f) (34 :: r) =
  match scanstring r [] with Some (x, r') => Some (JStr x, r') | None => None end.
Proof. reflexivity. Qed.

Lemma parse_value_bracket f r :
  parse_value (S f) (91 :: r) =
  match skip_ws r with
  | c' :: r' => if c' =? 93 then Some (JList [], r') else parse_elems f (c' :: r') []
  | [] => None
  end.
Proof. reflexivity. Qed.

Lemma parse_value_brace f r :
  parse_value (S f) (123 :: r) =
  match skip_ws r with
  | c' :: r' => if c' =? 125 then Some (JDict [], r') else parse_members f (c' :: r') []
  | [] => None
  end.
Proof. reflexivity. Qed.

Lemma parse_elems_step f s acc :
  parse_elems (S f) s acc =
  match parse_value f s with
  | None => None
  | Some (v, r) =>
      match skip_ws r with
      | c :: r' =>
          if c =? 93 then Some (JList (acc ++ [v]), r')
          else if c =? 44 then parse_elems f (skip_ws r') (acc ++ [v])
          else None
      | [] => None
      end
  end.
Proof. reflexivity. Qed.

Lemma parse_members_step f r acc :
  parse_members (S f) (34 :: r) acc =
  match scanstring r [] with
  | None => None
  | Some (k, r1) =>
      match skip_ws r1 with
      | colon :: r2 =>
          if colon =? 58 then
            match parse_value f (skip_ws r2) with
            | None => None
            | Some (v, r3) =>
                match skip_ws r3 with
                | c :: r4 =>
                    if c =? 125 then Some (JDict (dict_set k v acc), r4)
                    else if c =? 44 then parse_members f (skip_ws r4) (dict_set k v acc)
                    else None
                | [] => None
                end
            end
          else None
      | [] => None
      end
  end.
Proof. reflexivity. Qed.

Lemma parse_elems_dumps lvl rest : ∀ xs x acc fuel,
  Forall reads_back (x :: xs) →
  forallb str_tree (x :: xs) = true →
  (list_sum (map (fun y => S (need y)) (x :: xs)) ≤ fuel)%nat →
  parse_elems fuel
    (dumps_at (S lvl) x ++
     flat_map (fun y => 44 :: newline_indent (S lvl) ++ dumps_at (S lvl) y) xs ++
     newline_indent lvl ++ 93 :: rest) acc
  = Some (JList (acc ++ map norm (x :: xs)), rest).
Proof.
  induction xs as [|y ys IH]; intros x acc fuel Hall Htree Hfuel;
    cbn [map list_sum fold_right] in Hfuel; destruct fuel as [|f]; try lia;
    apply Forall_cons in Hall as [Hx Hall];
    cbn [forallb] in Htree; apply andb_true_iff in Htree as [Hxt Htree];
    rewrite parse_elems_step, (Hx Hxt) by lia.
  - cbn [flat_map app]. rewrite skip_ws_newline_indent, skip_ws_keep by reflexivity.
    reflexivity.
  - cbn [flat_map app]. rewrite <- ?app_assoc. cbn [app].
    rewrite skip_ws_keep by reflexivity.
    change (44 =? 93) with false. change (44 =? 44) with true. cbv iota.
    pose proof Htree as Hyt. cbn [forallb] in Hyt. apply andb_true_iff in Hyt as [Hyt _].
    rewrite skip_ws_newline_indent, skip_ws_dumps by exact Hyt.
    rewrite (IH y (acc ++ [norm x]) f Hall Htree) by (cbn [map list_sum fold_right]; lia).
    rewrite <- app_assoc. reflexivity.
Qed.

Lemma parse_members_dumps lvl rest : ∀ xs k x acc fuel,
  Forall (fun kv => reads_back kv.2) ((k, x) :: xs) →
  forallb (fun kv => str_tree kv.2) ((k, x) :: xs) = true →
  (list_sum (map (fun kv => S (need kv.2)) ((k, x) :: xs)) ≤ fuel)%nat →
  parse_members fuel
    (encode_basestring_ascii k ++ [58; 32] ++ dumps_at (S lvl) x ++
     flat_map (fun kv => 44 :: newline_indent (S lvl) ++
                         encode_basestring_ascii kv.1 ++
                         58 :: 32 :: dumps_at (S lvl) kv.2) xs ++
     newline_indent lvl ++ 125 :: rest) acc
  = Some (JDict (fold_left (fun a kv => dict_set (recode kv.1) (norm kv.2) a)
                   ((k, x) :: xs) acc), rest).
Proof.
  induction xs as [|[k' y] ys IH]; intros k x acc fuel Hall Htree Hfuel;
    cbn [map list_sum fold_right snd] in Hfuel; destruct fuel as [|f]; try lia;
    apply Forall_cons in Hall as [Hx Hall]; cbn [snd] in Hx;
    cbn [forallb snd] in Htree; apply andb_true_iff in Htree as [Hxt Htree];
    unfold encode_basestring_ascii at 1; rewrite <- !app_assoc; cbn [app];
    rewrite parse_members_step, scanstring_escape;
    rewrite skip_ws_keep by reflexivity;
    change (58 =? 58) with true; cbv iota;
    change (32 :: dumps_at (S lvl) x ++ ?t) with (repeat 32 1 ++ dumps_at (S lvl) x ++ t).
  - rewrite skip_ws_spaces, skip_ws_dumps by exact Hxt.
    rewrite (Hx Hxt) by lia.
    cbn [flat_map app]. rewrite skip_ws_newline_indent, skip_ws_keep by reflexivity.
    reflexivity.
  - rewrite skip_ws_spaces, skip_ws_dumps by exact Hxt.
    rewrite (Hx Hxt) by lia.
    cbn [flat_map fst snd app]. rewrite <- ?app_assoc. cbn [app].
    rewrite skip_ws_keep by reflexivity.
    change (44 =? 125) with false. change (44 =? 44) with true. cbv iota.
    rewrite skip_ws_newline_indent.
    unfold encode_basestring_ascii at 1. rewrite <- !app_assoc. cbn [app].
    rewrite skip_ws_keep by reflexivity.
    pose proof (IH k' y (dict_set (recode k) (norm x) acc) f Hall Htree) as IH'.
    unfold encode_basestring_ascii at 1 in IH'. rewrite <- !app_assoc in IH'. cbn [app] in IH'.
    cbn [fold_left fst snd]. apply IH'. cbn [map list_sum fold_right snd]. lia.
Qed.

(** [parse_value] reads back the text of every value made of strings,
    lists and dicts, whatever follows it, and returns [norm] of the
    value. *)
Lemma parse_value_dumps_at v : reads_back v.
Proof.
  induction v as [| | | | s | l IHl | d IHd] using json_nested_ind;
    intros Htree lvl fuel rest Hfuel; try discriminate;
    cbn [str_tree] in Htree; cbn [need] in Hfuel; destruct fuel as [|f]; try lia.
  - cbn [dumps_at]. unfold encode_basestring_ascii. rewrite <- !app_assoc. cbn [app].
    rewrite parse_value_quote, scanstring_escape. reflexivity.
  - destruct l as [|x xs]; [reflexivity|].
    cbn [dumps_at]. rewrite <- !app_assoc. cbn [app].
    rewrite parse_value_bracket, skip_ws_newline_indent.
    pose proof Htree as Hxt. cbn [forallb] in Hxt. apply andb_true_iff in Hxt as [Hxt _].
    rewrite skip_ws_dumps by exact Hxt.
    destruct (dumps_at_head (S lvl) x Hxt) as (c & r & Hd & Hc).
    pose proof (parse_elems_dumps lvl rest xs x [] f IHl Htree ltac:(lia)) as Hp.
    rewrite Hd in *. cbn [app] in *.
    replace (c =? 93) with false by (destruct Hc as [-> | [-> | ->]]; reflexivity).
    exact Hp.
  - destruct d as [|[k x] xs]; [reflexivity|].
    cbn [dumps_at]. rewrite <- !app_assoc. cbn [app].
    rewrite parse_value_brace, skip_ws_newline_indent.
    pose proof (parse_members_dumps lvl rest xs k x [] f IHd Htree ltac:(lia)) as Hp.
    unfold encode_basestring_ascii at 1. unfold encode_basestring_ascii at 1 in Hp.
    rewrite <- !app_assoc in *. cbn [app] in *.
    rewrite skip_ws_keep by reflexivity.
    change (34 =? 125) with false. cbv iota.
    exact Hp.
Qed.


(** The fuel that [loads] gives itself is enough. *)
Lemma need_le_length v : str_tree v = true → ∀ lvl, (need v ≤ length (dumps_at lvl v))%nat.
Proof.
  induction v as [| | | | s | l IHl | d IHd] using json_nested_ind;
    intros Htree lvl; try discriminate; cbn [str_tree] in Htree.
  - cbn [need dumps_at]. unfold encode_basestring_ascii. rewrite !length_app. cbn. lia.
  - destruct l as [|x xs]; [cbn; lia|].
    cbn [forallb] in Htree. apply andb_true_iff in Htree as [Hxt Htree].
    apply Forall_cons in IHl as [Hx IHl].
    cbn [need dumps_at map list_sum fold_right]. rewrite !length_app. cbn [length].
    specialize (Hx Hxt (S lvl)).
    assert (Hxs : (list_sum (map (fun y => S (need y)) xs) ≤
                   length (flat_map (fun y => 44%N :: newline_indent (S lvl) ++ dumps_at (S lvl) y) xs))%nat).
    { clear Hx Hxt. induction IHl as [|y ys Hy _ IH]; [cbn; lia|].
      cbn [forallb] in Htree. apply andb_true_iff in Htree as [Hyt Htree].
      cbn [map list_sum fold_right flat_map]. rewrite length_app. cbn [length]. rewrite length_app.
      specialize (Hy Hyt (S lvl)). specialize (IH Htree). unfold list_sum in IH. lia. }
    unfold list_sum in Hxs. lia.
  - destruct d as [|[k x] xs]; [cbn; lia|].
    cbn [forallb snd] in Htree. apply andb_true_iff in Htree as [Hxt Htree].
    apply Forall_cons in IHd as [Hx IHd]. cbn [snd] in Hx.
    cbn [need dumps_at map list_sum fold_right snd]. rewrite !length_app. cbn [length].
    specialize (Hx Hxt (S lvl)).
    assert (Hxs : (list_sum (map (fun kv => S (need kv.2)) xs) ≤
                   length (flat_map (fun kv => 44%N :: newline_indent (S lvl) ++
                                               encode_basestring_ascii kv.1 ++
                                               58%N :: 32%N :: dumps_at (S lvl) kv.2) xs))%nat).
    { clear Hx Hxt. induction IHd as [|[k' y] ys Hy _ IH]; [cbn; lia|].
      cbn [forallb snd] in Htree. apply andb_true_iff in Htree as [Hyt Htree].
      cbn [map list_sum fold_right flat_map fst snd]. rewrite length_app. cbn [length].
      rewrite !length_app. cbn [length].
      cbn [snd] in Hy. specialize (Hy Hyt (S lvl)). specialize (IH Htree).
      unfold list_sum in IH. lia. }
    unfold list_sum in Hxs. lia.
Qed.

(** [json.loads(json.dumps(v, indent=2))] succeeds for every value made
    of strings, lists and dicts, and returns [norm v]. *)
Lemma loads_dumps v : str_tree v = true → loads (dumps_indent2 v) = Ok (norm v).
Proof.
  intros Htree. unfold loads, dumps_indent2.
  destruct (dumps_at_head 0%nat v Htree) as (c & r & Hd & Hc).
  assert (Hbom : startswith [65279] (dumps_at 0%nat v) = false).
  { rewrite Hd. destruct Hc as [-> | [-> | ->]]; reflexivity. }
  rewrite Hbom.
  rewrite <- (app_nil_r (dumps_at 0%nat v)) at 2.
  rewrite skip_ws_dumps by exact Htree.
  rewrite (parse_value_dumps_at v Htree 0%nat (loads_fuel (dumps_at 0%nat v)) []).
  - reflexivity.
  - unfold loads_fuel. pose proof (need_le_length v Htree 0%nat). lia.
Qed.

(** The text of a string, a list or a dict ends with a quote, a bracket
    or a brace. *)
Lemma dumps_at_last lvl v :
  str_tree v = true → ∃ r c, dumps_at lvl v = r ++ [c] ∧ (c = 34 ∨ c = 93 ∨ c = 125).
Proof.
  destruct v as [| | | | s | [|x l] | [|[k x] d]]; try discriminate; intros _; cbn [dumps_at].
  - exists (34 :: escape s), 34. auto.
  - exists [91], 93. auto.
  - eexists _, 93. split; [|auto]. rewrite !app_assoc. reflexivity.
  - exists [123], 125. auto.
  - eexists _, 125. split; [|auto]. rewrite !app_assoc. reflexivity.
Qed.

Lemma strip_by_keep p c r c' :
  p c = false → p c' = false →
  ∀ r', c :: r = r' ++ [c'] → strip_by p (c :: r) = c :: r.
Proof.
  intros Hc Hc' r' Heq. unfold strip_by, rstrip_by. cbn [lstrip_by]. rewrite Hc.
  rewrite Heq, rev_app_distr. cbn [rev app lstrip_by]. rewrite Hc'.
  cbn [rev]. rewrite rev_involutive. reflexivity.
Qed.

(** The response cleaning of [parse_structure] leaves the text of a
    [json.dumps] untouched. *)
Lemma clean_response_dumps v :
  str_tree v = true → clean_response (dumps_indent2 v) = dumps_indent2 v.
Proof.
  intros Htree. unfold clean_response, dumps_indent2.
  destruct (dumps_at_head 0%nat v Htree) as (c & r & Hd & Hc).
  destruct (dumps_at_last 0%nat v Htree) as (r' & c' & Hl & Hc').
  assert (Hstrip : strip (dumps_at 0%nat v) = dumps_at 0%nat v).
  { rewrite Hd. apply (strip_by_keep isspace c r c') with (r' := r').
    - destruct Hc as [-> | [-> | ->]]; reflexivity.
    - destruct Hc' as [-> | [-> | ->]]; reflexivity.
    - exact (eq_trans (eq_sym Hd) Hl). }
  rewrite Hstrip.
  assert (Hstart : startswith (py "```json") (dumps_at 0%nat v) = false).
  { rewrite Hd. destruct Hc as [-> | [-> | ->]]; reflexivity. }
  rewrite Hstart.
  assert (Hend : endswith (py "```") (dumps_at 0%nat v) = false).
  { unfold endswith. rewrite Hl, rev_app_distr.
    destruct Hc' as [-> | [-> | ->]]; reflexivity. }
  rewrite Hend. reflexivity.
Qed.

(** [parse_structure] applied to the text of a [json.dumps] validates
    the value read back. *)
Lemma parse_structure_dumps v :
  str_tree v = true → parse_structure (dumps_indent2 v) = validate (norm v).
Proof.
  intros Htree. unfold parse_structure.
  rewrite clean_response_dumps, loads_dumps by exact Htree. reflexivity.
Qed.

End JsonFacts.

(* ===================================================================== *)
(** * Properties of the fallback planner *)
(* ===================================================================== *)

Module FallbackFacts.
Import MistralPlanner Props JsonFacts.

#[local] Arguments py : simpl never.
#[local] Open Scope nat_scope.

Lemma new_heap_base : new_heap = base_heap initial_main_prompt.
Proof. reflexivity. Qed.

Lemma init_new_planner : init [] = (Ok new_planner, new_heap).
Proof. reflexivity. Qed.

(** ** The heap operations on a known heap *)

Lemma M_bind_ok {A B} (m : M A) (k : A → M B) h a h' :
  m h = (Ok a, h') → (m ≫= k) h = k a h'.
Proof. intros H. unfold mbind, M_bind. rewrite H. reflexivity. Qed.

Lemma copy_ref l o (h : heap) :
  h !! l = Some o → copy (PRef l) h = (Ok (PRef (length h)), h ++ [o]).
Proof. intros H. unfold copy, deref, mbind, M_bind. rewrite H. reflexivity. Qed.

Lemma setitem_dict l items k x (h : heap) :
  h !! l = Some (ODict items) →
  setitem (PRef l) k x h = (Ok tt, <[l := ODict (dict_set k x items)]> h).
Proof. intros H. unfold setitem. rewrite H. reflexivity. Qed.

Lemma getitem_dict l items k x (h : heap) :
  h !! l = Some (ODict items) → dict_get k items = Some x →
  getitem (PRef l) k h = (Ok x, h).
Proof. intros H Hk. unfold getitem, deref, mbind, M_bind. rewrite H, Hk. reflexivity. Qed.

Lemma iterate_list l elems (h : heap) :
  h !! l = Some (OList elems) → iterate (PRef l) h = (Ok elems, h).
Proof. intros H. unfold iterate, deref, mbind, M_bind. rewrite H. reflexivity. Qed.

Lemma lookup_last (h : heap) o : (h ++ [o]) !! length h = Some o.
Proof. apply list_lookup_middle. reflexivity. Qed.

Lemma insert_last (h : heap) o o' : <[length h := o']> (h ++ [o]) = h ++ [o'].
Proof.
  rewrite insert_app_r_alt by lia. rewrite Nat.sub_diag. reflexivity.
Qed.

Lemma bind_getitem {B} l items k x (cont : pyval → M B) (h : heap) :
  h !! l = Some (ODict items) → dict_get k items = Some x →
  (getitem (PRef l) k ≫= cont) h = cont x h.
Proof. intros H Hk. exact (M_bind_ok _ _ _ _ _ (getitem_dict l items k x h H Hk)). Qed.

Lemma bind_setitem {B} l items k x (cont : unit → M B) (h : heap) :
  h !! l = Some (ODict items) →
  (setitem (PRef l) k x ≫= cont) h = cont tt (<[l := ODict (dict_set k x items)]> h).
Proof. intros H. exact (M_bind_ok _ _ _ _ _ (setitem_dict l items k x h H)). Qed.

Lemma bind_iterate {B} l elems (cont : list pyval → M B) (h : heap) :
  h !! l = Some (OList elems) → (iterate (PRef l) ≫= cont) h = cont elems h.
Proof. intros H. exact (M_bind_ok _ _ _ _ _ (iterate_list l elems h H)). Qed.

Lemma bind_copy {B} l o (cont : pyval → M B) (h : heap) :
  h !! l = Some o → (copy (PRef l) ≫= cont) h = cont (PRef (length h)) (h ++ [o]).
Proof. intros H. exact (M_bind_ok _ _ _ _ _ (copy_ref l o h H)). Qed.

Lemma bind_bind {A B C} (m : M A) (f : A → M B) (g : B → M C) (h : heap) :
  ((m ≫= f) ≫= g) h = (m ≫= (fun a => f a ≫= g)) h.
Proof. unfold mbind, M_bind. destruct (m h) as [[a|e] h']; reflexivity. Qed.

Lemma bind_ret {A B} (a : A) (f : A → M B) (h : heap) : (mret a ≫= f) h = f a h.
Proof. reflexivity. Qed.

(** ** The generic branch *)

(** The items of the copy, read through the heap, are the items of
    [generic_structure]. *)
Lemma reify_copy_items f tail topic :
  mapM (fun kv => pair kv.1 <$>
                  reify (S (S (S f))) (base_heap (generic_main_prompt topic) ++ tail) kv.2)
       (generic_copy_items topic)
  = Some (match generic_structure topic with JDict d => d | _ => [] end).
Proof. reflexivity. Qed.

Lemma json_dumps_copy prompt extra topic :
  json_dumps (PRef (length (base_heap prompt ++ extra)))
    (base_heap (generic_main_prompt topic) ++ extra ++ [generic_copy topic]) =
  (Ok (dumps_indent2 (generic_structure topic)),
   base_heap (generic_main_prompt topic) ++ extra ++ [generic_copy topic]).
Proof.
  unfold json_dumps.
  set (h := base_heap (generic_main_prompt topic) ++ extra ++ [generic_copy topic]).
  assert (Hlen : length h = S (S (S (S (length (extra ++ [generic_copy topic]) + 2))))).
  { unfold h. rewrite length_app. cbn [length base_heap]. lia. }
  assert (Hlook : h !! length (base_heap prompt ++ extra) = Some (generic_copy topic)).
  { unfold h. rewrite app_assoc.
    replace (length (base_heap prompt ++ extra))
      with (length (base_heap (generic_main_prompt topic) ++ extra))
      by (rewrite !length_app; reflexivity).
    apply lookup_last. }
  cbn [reify]. rewrite Hlook. unfold generic_copy. rewrite Hlen.
  unfold h. rewrite reify_copy_items. reflexivity.
Qed.

Lemma generic_fallback_spec prompt extra topic :
  generic_fallback new_planner topic (base_heap prompt ++ extra) =
  (Ok (dumps_indent2 (generic_structure topic)),
   base_heap (generic_main_prompt topic) ++ extra ++ [generic_copy topic]).
Proof.
  unfold generic_fallback, new_planner, fallback_structure.
  erewrite bind_copy by reflexivity.
  erewrite bind_setitem by apply lookup_last.
  rewrite insert_last.
  change (ODict (dict_set (py "interactions") _ _)) with (generic_copy topic).
  erewrite (bind_getitem _ (generic_copy_items topic)); [| apply lookup_last | reflexivity].
  set (n := length (base_heap prompt ++ extra)).
  rewrite <- app_assoc.
  erewrite bind_iterate by reflexivity.
  cbn [for_each].
  rewrite !bind_bind.
  erewrite bind_getitem; [| reflexivity | reflexivity].
  change (eq_str (PStr (py "src/main.py")) (py "src/main.py")) with true. cbv iota.
  erewrite bind_setitem by reflexivity.
  change (<[1 := _]> (base_heap prompt ++ extra ++ [generic_copy topic]))
    with (base_heap (generic_main_prompt topic) ++ extra ++ [generic_copy topic]).
  rewrite !bind_bind.
  erewrite bind_getitem; [| reflexivity | reflexivity].
  change (eq_str (PStr (py "tests/test_main.py")) (py "src/main.py")) with false. cbv iota.
  rewrite bind_ret, !bind_bind.
  erewrite bind_getitem; [| reflexivity | reflexivity].
  change (eq_str (PStr (py "README.md")) (py "src/main.py")) with false. cbv iota.
  rewrite !bind_ret.
  apply json_dumps_copy.
Qed.

(** ** Every call *)

(** Whatever the fallback planner did before, a call returns the text
    of [fallback_blueprint] and leaves the six shared objects in place. *)
Lemma get_fallback_spec lower prompt extra topic :
  ∃ prompt' extra',
    _get_fallback_structure lower new_planner topic (base_heap prompt ++ extra) =
    (Ok (dumps_indent2 (fallback_blueprint lower topic)), base_heap prompt' ++ extra').
Proof.
  unfold _get_fallback_structure, fallback_blueprint.
  destruct (existsb _ web_words); [exists prompt, extra; reflexivity|].
  destruct (existsb _ api_words); [exists prompt, extra; reflexivity|].
  rewrite generic_fallback_spec. eauto.
Qed.

Lemma heap_after_shape lower history : ∀ prompt extra,
  ∃ prompt' extra', heap_after lower history (base_heap prompt ++ extra) =
                    base_heap prompt' ++ extra'.
Proof.
  induction history as [|topic history IH]; intros prompt extra; cbn [heap_after].
  - eauto.
  - destruct (get_fallback_spec lower prompt extra topic) as (p' & e' & ->). apply IH.
Qed.

Lemma get_fallback_text lower history topic :
  ∃ h1, _get_fallback_structure lower new_planner topic (heap_after lower history new_heap)
        = (Ok (dumps_indent2 (fallback_blueprint lower topic)), h1).
Proof.
  rewrite new_heap_base, <- (app_nil_r (base_heap initial_main_prompt)).
  destruct (heap_after_shape lower history initial_main_prompt []) as (p & e & ->).
  destruct (get_fallback_spec lower p e topic) as (p1 & e1 & H1). eauto.
Qed.

(** C9.  Whatever topics the fallback planner was called with before,
    two successive calls with the same topic return the same text, which
    is the serialization of a blueprint that depends on the topic only. *)
Theorem fallback_is_deterministic (lower : str → str) (history : list str) (topic : str) :
  let h := heap_after lower history new_heap in
  ∃ text h1 h2,
    _get_fallback_structure lower new_planner topic h = (Ok text, h1) ∧
    _get_fallback_structure lower new_planner topic h1 = (Ok text, h2) ∧
    text = dumps_indent2 (fallback_blueprint lower topic).
Proof.
  cbn zeta. rewrite new_heap_base, <- (app_nil_r (base_heap initial_main_prompt)).
  destruct (heap_after_shape lower history initial_main_prompt []) as (p & e & ->).
  destruct (get_fallback_spec lower p e topic) as (p1 & e1 & H1).
  destruct (get_fallback_spec lower p1 e1 topic) as (p2 & e2 & H2).
  eexists _, _, _. rewrite H1, H2. auto.
Qed.

(** ** Parsing the fallback blueprint *)

Lemma complete_fileb_spec x : complete_fileb x = true → complete_file x.
Proof. destruct x; try discriminate. intros H. eexists. eauto. Qed.

Lemma fallback_blueprint_tree lower topic : str_tree (fallback_blueprint lower topic) = true.
Proof.
  unfold fallback_blueprint.
  destruct (existsb _ web_words); [reflexivity|].
  destruct (existsb _ api_words); reflexivity.
Qed.

Lemma web_structure_accepted topic : accepted (web_structure topic).
Proof. unfold accepted. split; [|split]; reflexivity. Qed.

Lemma api_structure_accepted topic : accepted (api_structure topic).
Proof. unfold accepted. split; [|split]; reflexivity. Qed.

Lemma generic_structure_accepted topic : accepted (generic_structure topic).
Proof. unfold accepted. split; [|split]; reflexivity. Qed.

Lemma fallback_blueprint_accepted lower topic : accepted (fallback_blueprint lower topic).
Proof.
  unfold fallback_blueprint.
  destruct (existsb _ web_words); [apply web_structure_accepted|].
  destruct (existsb _ api_words); [apply api_structure_accepted|].
  apply generic_structure_accepted.
Qed.

(** C10.  Whatever topics the fallback planner was called with before,
    [parse_structure] applied to the text it returns raises nothing and
    yields a blueprint with three file objects, each of which carries
    [path], [description] and [copilot_prompt]. *)
Theorem fallback_blueprint_parses (lower : str → str) (history : list str) (topic : str) :
  let h := heap_after lower history new_heap in
  ∃ text h1 blueprint,
    _get_fallback_structure lower new_planner topic h = (Ok text, h1) ∧
    parse_structure text = Ok blueprint ∧
    length (blueprint_files blueprint) = 3 ∧
    Forall complete_file (blueprint_files blueprint).
Proof.
  cbn zeta.
  destruct (get_fallback_text lower history topic) as (h1 & H1).
  destruct (fallback_blueprint_accepted lower topic) as (Hv & Hn & Hc).
  exists (dumps_indent2 (fallback_blueprint lower topic)), h1,
    (norm (fallback_blueprint lower topic)).
  split; [exact H1|]. split; [|split; [exact Hn|]].
  - rewrite parse_structure_dumps by apply fallback_blueprint_tree. exact Hv.
  - apply Forall_forall. intros x Hx. apply complete_fileb_spec.
    rewrite forallb_forall in Hc. apply Hc, list_elem_of_In, Hx.
Qed.

End FallbackFacts.

(* ===================================================================== *)
(** * More on [TestRunner.run_tests] *)
(* ===================================================================== *)

Module TestRunnerLoop.
Import StructureCreator TestRunner Props LoopProps TestRunnerFacts.

#[local] Open Scope nat_scope.







(** With a budget that is zero or negative, a command that is not
    skipped is never executed and [run_tests] still returns [False]. *)
Theorem run_tests_no_budget
    (lower : str → str) (project_path : path) (fs : filesystem) (test_command : str)
    (max_attempts : Z) (env : nat → attempt_env) :
  is_executed lower project_path fs test_command →
  (max_attempts ≤ 0)%Z →
  run_tests lower project_path fs test_command max_attempts env = (false, []).
Proof.
  intros Hexec Hmax. rewrite (run_tests_executed _ _ _ _ _ _ Hexec).
  replace (Z.to_nat max_attempts) with 0 by lia. reflexivity.
Qed.

Lemma run_tests_no_budget_witness :
  run_tests ascii_lower [py "project"] ∅ (py "pytest tests") 0 fails_once = (false, []).
Proof.
  apply (run_tests_no_budget ascii_lower [py "project"] ∅ (py "pytest tests") 0 fails_once
           pytest_is_executed).
  lia.
Defined.






Lemma attempts_true n : ∀ attempt argv env tr tr',
  attempts n attempt argv env tr = (true, tr') →
  ∃ k, k < n ∧
       (∀ j, j < k → fails_and_is_fixed (env (attempt + j))) ∧
       passes (env (attempt + k)) ∧
       executions tr' = executions tr + S k ∧
       fix_invocations tr' = fix_invocations tr + k.
Proof.
  induction n as [|n IH]; intros attempt argv env tr tr'; cbn [attempts]; [discriminate|].
  destruct (run (env attempt)) as [rc out err| |] eqn:Hrun; try discriminate.
  destruct (Z.eqb_spec rc 0) as [-> | Hrc].
  - intros [= <-]. exists 0. rewrite Nat.add_0_r.
    split; [lia|]. split; [intros j Hj; lia|].
    split; [exists out, err; exact Hrun|]. count_events.
  - destruct (write_raises (env attempt)) eqn:Hw; [discriminate|].
    destruct (fix_raises (env attempt)) eqn:Hf; [discriminate|].
    intros H. apply IH in H as (k & Hk & Hfail & Hpass & He & Hfx).
    exists (S k). split; [lia|]. split; [|split].
    + intros [|j] Hj.
      * rewrite Nat.add_0_r. split; [|split; assumption]. eauto 6.
      * replace (attempt + S j) with (S attempt + j) by lia. apply Hfail. lia.
    + replace (attempt + S k) with (S attempt + k) by lia. exact Hpass.
    + rewrite He, Hfx. count_events.
Qed.

(** X4.  [run_tests] returns [True] for a command it does not skip only when
    an execution within the budget exited 0, every execution before it
    having failed and been followed by a fix; that execution is the last
    call made. *)
Theorem run_tests_true_means_passed
    (lower : str → str) (project_path : path) (fs : filesystem) (test_command : str)
    (max_attempts : Z) (env : nat → attempt_env) :
  is_executed lower project_path fs test_command →
  (run_tests lower project_path fs test_command max_attempts env).1 = true →
  ∃ k, k < Z.to_nat max_attempts ∧
       (∀ j, j < k → fails_and_is_fixed (env j)) ∧
       passes (env k) ∧
       executions (run_tests lower project_path fs test_command max_attempts env).2 = S k ∧
       fix_invocations (run_tests lower project_path fs test_command max_attempts env).2 = k.
Proof.
  intros Hexec. rewrite (run_tests_executed _ _ _ _ _ _ Hexec).
  destruct (attempts _ _ _ _ _) as [b tr'] eqn:E. cbn [fst snd]. intros ->.
  apply attempts_true in E as (k & Hk & Hfail & Hpass & He & Hf).
  exists k. cbn [Nat.add] in *. rewrite He, Hf. cbn. auto with lia.
Qed.

Lemma run_tests_true_means_passed_witness :
  ∃ k, k < 3 ∧
       (∀ j, j < k → fails_and_is_fixed (fails_once j)) ∧
       passes (fails_once k) ∧
       executions (run_tests ascii_lower [py "project"] ∅ (py "pytest tests") 3 fails_once).2
       = S k ∧
       fix_invocations (run_tests ascii_lower [py "project"] ∅ (py "pytest tests") 3 fails_once).2
       = k.
Proof.
  apply (run_tests_true_means_passed ascii_lower [py "project"] ∅ (py "pytest tests") 3
           fails_once pytest_is_executed).
  reflexivity.
Defined.

Lemma commands_run_snoc tr e :
  commands_run (tr ++ [e]) =
  commands_run tr ++ match e with ERun argv => [argv] | _ => [] end.
Proof. unfold commands_run. rewrite flat_map_app. cbn. rewrite app_nil_r. reflexivity. Qed.

Lemma error_files_snoc tr e :
  error_files (tr ++ [e]) =
  error_files tr ++ match e with ECreateErrorFixFile content => [content] | _ => [] end.
Proof. unfold error_files. rewrite flat_map_app. cbn. rewrite app_nil_r. reflexivity. Qed.

Lemma error_fix_content_holds stderr stdout :
  holds_output (error_fix_content stderr stdout) stderr stdout.
Proof.
  unfold holds_output, error_fix_content.
  exists (py "# Fix Prompt: The following errors occurred during testing. Please analyze and fix the issues:"
          ++ [10; 10]%N),
    ([10]%N
     ++ py "Please identify the root cause of these errors and provide fixes for the relevant files."
     ++ [10]%N
     ++ py "Focus on syntax errors, missing imports, incorrect function signatures, and logical issues."
     ++ [10]%N).
  rewrite <- !app_assoc. reflexivity.
Qed.

Lemma attempts_in_step n : ∀ attempt argv env tr,
  in_step argv env attempt tr →
  let tr' := (attempts n attempt argv env tr).2 in
  Forall (fun argv' => argv' = argv) (commands_run tr') ∧
  length (error_files tr') ≤ executions tr' ∧
  ∀ i content, error_files tr' !! i = Some content →
    ∃ returncode stdout stderr,
      run (env i) = Completed returncode stdout stderr ∧ returncode ≠ 0%Z ∧
      holds_output content stderr stdout.
Proof.
  induction n as [|n IH]; intros attempt argv env tr (Hcmd & Hexec & Hlen & Hfiles);
    cbn zeta; cbn [attempts snd].
  - split; [exact Hcmd|]. split; [lia | exact Hfiles].
  - assert (Hcmd1 : Forall (fun argv' => argv' = argv) (commands_run (tr ++ [ERun argv]))).
    { rewrite commands_run_snoc. apply Forall_app. split; [exact Hcmd|]. repeat constructor. }
    assert (Hexec1 : executions (tr ++ [ERun argv]) = S attempt).
    { rewrite executions_snoc. cbn [is_run]. lia. }
    assert (Hfiles1 : error_files (tr ++ [ERun argv]) = error_files tr).
    { rewrite error_files_snoc. apply app_nil_r. }
    assert (Hrun : Forall (fun argv' => argv' = argv) (commands_run (tr ++ [ERun argv])) ∧
                   length (error_files (tr ++ [ERun argv])) ≤ executions (tr ++ [ERun argv]) ∧
                   ∀ i content, error_files (tr ++ [ERun argv]) !! i = Some content →
                     ∃ returncode stdout stderr,
                       run (env i) = Completed returncode stdout stderr ∧ returncode ≠ 0%Z ∧
                       holds_output content stderr stdout).
    { split; [exact Hcmd1|]. rewrite Hfiles1, Hexec1. split; [lia | exact Hfiles]. }
    destruct (run (env attempt)) as [rc out err| |] eqn:E; try exact Hrun.
    destruct (Z.eqb_spec rc 0) as [-> | Hrc]; [exact Hrun|].
    set (tr2 := (tr ++ [ERun argv]) ++ [ECreateErrorFixFile (error_fix_content err out)]).
    assert (Hstep2 : in_step argv env (S attempt) tr2).
    { unfold tr2. split; [|split; [|split]].
      - rewrite commands_run_snoc, app_nil_r. exact Hcmd1.
      - rewrite executions_snoc. cbn [is_run]. lia.
      - rewrite error_files_snoc, Hfiles1, length_app. cbn [length]. lia.
      - intros i content. rewrite error_files_snoc, Hfiles1.
        intros Hi. apply lookup_app_Some in Hi as [Hi | [Hge Hi]]; [apply Hfiles, Hi|].
        destruct (i - length (error_files tr)) as [|d] eqn:Hd; [|destruct d; discriminate Hi].
        injection Hi as <-. replace i with attempt by lia.
        exists rc, out, err. split; [exact E|]. split; [exact Hrc|].
        apply error_fix_content_holds. }
    assert (Hout : ∀ tr3, commands_run tr3 = commands_run tr2 →
                          executions tr3 = executions tr2 →
                          error_files tr3 = error_files tr2 →
                          in_step argv env (S attempt) tr3).
    { intros tr3 Hc He Hf. destruct Hstep2 as (H1 & H2 & H3 & H4).
      unfold in_step. rewrite Hc, He, Hf. auto. }
    assert (Hdone : ∀ tr3, in_step argv env (S attempt) tr3 →
                      Forall (fun argv' => argv' = argv) (commands_run tr3) ∧
                      length (error_files tr3) ≤ executions tr3 ∧
                      ∀ i content, error_files tr3 !! i = Some content →
                        ∃ returncode stdout stderr,
                          run (env i) = Completed returncode stdout stderr ∧
                          returncode ≠ 0%Z ∧ holds_output content stderr stdout).
    { intros tr3 (H1 & H2 & H3 & H4). split; [exact H1|]. split; [lia | exact H4]. }
    fold tr2. destruct (write_raises (env attempt)); [apply Hdone, Hstep2|].
    assert (Hstep3 : in_step argv env (S attempt) (tr2 ++ [EFixWithCopilot])).
    { apply Hout.
      - rewrite commands_run_snoc. apply app_nil_r.
      - rewrite executions_snoc. cbn [is_run]. lia.
      - rewrite error_files_snoc. apply app_nil_r. }
    destruct (fix_raises (env attempt)); [apply Hdone, Hstep3|].
    apply (IH (S attempt) argv env _ Hstep3).
Qed.

(** X5.  Whatever happens, every execution made by one call of [run_tests]
    runs the same words, those of the test command split at whitespace;
    there are at most as many error files as executions; and the error
    file number [i] holds the output of execution number [i], which
    exited non-zero: the standard error under its heading, then the
    standard output under its heading. *)
Theorem run_tests_events
    (lower : str → str) (project_path : path) (fs : filesystem) (test_command : str)
    (max_attempts : Z) (env : nat → attempt_env) :
  let tr := (run_tests lower project_path fs test_command max_attempts env).2 in
  Forall (fun argv => argv = split test_command) (commands_run tr) ∧
  length (error_files tr) ≤ executions tr ∧
  ∀ i content, error_files tr !! i = Some content →
    ∃ returncode stdout stderr,
      run (env i) = Completed returncode stdout stderr ∧ returncode ≠ 0%Z ∧
      holds_output content stderr stdout.
Proof.
  assert (Hnone : Forall (fun argv => argv = split test_command) (commands_run []) ∧
                  length (error_files []) ≤ executions [] ∧
                  ∀ i content, error_files [] !! i = Some content →
                    ∃ returncode stdout stderr,
                      run (env i) = Completed returncode stdout stderr ∧ returncode ≠ 0%Z ∧
                      holds_output content stderr stdout).
  { split; [constructor|]. split; [reflexivity|]. intros i content Hi. discriminate Hi. }
  cbn zeta. unfold run_tests. destruct test_command as [|c cmd]; [exact Hnone|].
  destruct (_ && _); [exact Hnone|].
  apply attempts_in_step. split; [constructor|]. split; [reflexivity|].
  split; [reflexivity|]. intros i content Hi. discriminate Hi.
Qed.

End TestRunnerLoop.

(* ===================================================================== *)
(** * More on [_sanitize_name] *)
(* ===================================================================== *)

Module SanitizeFacts.
Import StructureCreator Props FolderProps StructureCreatorFacts.

Lemma lstrip_by_nil p s : lstrip_by p s = [] ↔ Forall (fun c => p c = true) s.
Proof.
  induction s as [|c s IH]; cbn.
  - split; [constructor | reflexivity].
  - destruct (p c) eqn:Hc.
    + rewrite IH. split; [intros H; constructor; assumption | intros H; inversion H; assumption].
    + split; [discriminate | intros H; inversion H; congruence].
Qed.

Lemma strip_by_nil p s : strip_by p s = [] ↔ Forall (fun c => p c = true) s.
Proof.
  rewrite <- lstrip_by_nil. unfold strip_by, rstrip_by.
  destruct (lstrip_by p s) as [|a t] eqn:Ht; [split; reflexivity|].
  split; [|discriminate].
  assert (Ha : p a = false) by (apply (lstrip_by_head p s); rewrite Ht; reflexivity).
  cbn [rev]. rewrite (lstrip_by_snoc_keep p _ a Ha), rev_app_distr. cbn. discriminate.
Qed.

Lemma last_rev_head (l : str) : last (rev l) = head l.
Proof. destruct l as [|c l]; [reflexivity|]. cbn [rev]. apply last_snoc. Qed.

Lemma replace_illegal_legal_id name :
  Forall (fun c => is_illegal c = false) name → replace_illegal name = name.
Proof.
  unfold replace_illegal. induction 1 as [|c s Hc _ IH]; [reflexivity|].
  cbn [map]. rewrite Hc, IH. reflexivity.
Qed.

Lemma strip_by_last p s c : last (strip_by p s) = Some c → p c = false.
Proof.
  unfold strip_by, rstrip_by. rewrite last_rev_head. apply lstrip_by_head.
Qed.

Lemma strip_by_clean p s :
  (∀ c, head s = Some c → p c = false) →
  (∀ c, last s = Some c → p c = false) →
  strip_by p s = s.
Proof.
  intros Hh Hl. unfold strip_by, rstrip_by.
  assert (H1 : lstrip_by p s = s).
  { destruct s as [|c s']; [reflexivity|]. cbn. rewrite (Hh c eq_refl). reflexivity. }
  rewrite H1.
  assert (H2 : lstrip_by p (rev s) = rev s).
  { destruct (rev s) as [|c r] eqn:E; [reflexivity|]. cbn.
    rewrite (Hl c); [reflexivity|].
    rewrite <- (rev_involutive s), E, last_rev_head. reflexivity. }
  transitivity (rev (rev s)); [f_equal; exact H2 | apply rev_involutive].
Qed.

Lemma dot_or_space_spec c : dot_or_space c = true ↔ c = 46 ∨ c = 32.
Proof.
  unfold dot_or_space. cbn. rewrite !orb_true_iff, !N.eqb_eq. intuition discriminate.
Qed.

Lemma replace_illegal_dot_or_space name :
  Forall (fun c => dot_or_space c = true) (replace_illegal name) ↔
  Forall (fun c => dot_or_space c = true) name.
Proof.
  unfold replace_illegal. rewrite Forall_map.
  apply Forall_iff. intros c. cbv beta.
  destruct (is_illegal c) eqn:Hi; [|reflexivity].
  split; intros H; apply dot_or_space_spec in H.
  - destruct H; discriminate.
  - destruct H as [-> | ->]; vm_compute in Hi; discriminate.
Qed.

(** X6.  The sanitized name is empty exactly for the topics made of dots and
    spaces only (the empty topic included). *)
Theorem sanitize_name_empty_iff (name : str) :
  _sanitize_name name = [] ↔ Forall (fun c => c = 46 ∨ c = 32) name.
Proof.
  transitivity (Forall (fun c => dot_or_space c = true) name);
    [|apply Forall_iff, dot_or_space_spec].
  unfold _sanitize_name, strip_chars. fold dot_or_space.
  rewrite <- replace_illegal_dot_or_space, <- strip_by_nil.
  destruct (strip_by dot_or_space (replace_illegal name)); cbn; split; congruence.
Qed.

Lemma sanitize_name_fixed (name : str) :
  replace_illegal name = name →
  strip_by dot_or_space name = name →
  (length name ≤ 50)%nat →
  _sanitize_name name = name.
Proof.
  intros Hrep Hstrip Hlen. unfold _sanitize_name, strip_chars. fold dot_or_space.
  rewrite Hrep, Hstrip. apply take_ge. lia.
Qed.

Lemma not_dot_or_space c : c ≠ 46 ∧ c ≠ 32 → dot_or_space c = false.
Proof.
  intros H. destruct (dot_or_space c) eqn:E; [|reflexivity].
  apply dot_or_space_spec in E. tauto.
Qed.

(** X7.  A name that needs no change gets none: without replaced characters,
    without a dot or a space at either end, and with at most 50
    characters, it is returned as it is. *)
Theorem sanitize_name_clean (name : str) :
  Forall (fun c => is_illegal c = false) name →
  (∀ c, head name = Some c → c ≠ 46 ∧ c ≠ 32) →
  (∀ c, last name = Some c → c ≠ 46 ∧ c ≠ 32) →
  (length name ≤ 50)%nat →
  _sanitize_name name = name.
Proof.
  intros Hlegal Hhead Hlast Hlen. apply sanitize_name_fixed.
  - apply replace_illegal_legal_id, Hlegal.
  - apply strip_by_clean; intros c Hc; apply not_dot_or_space; auto.
  - exact Hlen.
Qed.

Lemma sanitize_name_clean_witness : _sanitize_name (py "todo app") = py "todo app".
Proof.
  apply sanitize_name_clean.
  - repeat constructor.
  - intros c [= <-]. split; discriminate.
  - intros c [= <-]. split; discriminate.
  - cbn. lia.
Defined.

Lemma strip_by_length p s : (length (strip_by p s) ≤ length s)%nat.
Proof.
  unfold strip_by, rstrip_by. rewrite length_rev.
  etransitivity; [apply ParserFacts.lstrip_by_length|].
  rewrite length_rev. apply ParserFacts.lstrip_by_length.
Qed.

(** X8.  For a topic of at most 50 characters the truncation cuts nothing:
    the sanitized name has no dot or space at its end, and sanitizing it
    again returns it unchanged. *)
Theorem sanitize_name_short (name : str) :
  (length name ≤ 50)%nat →
  (∀ c, last (_sanitize_name name) = Some c → c ≠ 46 ∧ c ≠ 32) ∧
  _sanitize_name (_sanitize_name name) = _sanitize_name name.
Proof.
  intros Hlen.
  assert (Hcut : _sanitize_name name = strip_chars (py ". ") (replace_illegal name)).
  { unfold _sanitize_name. apply take_ge. unfold strip_chars.
    etransitivity; [apply strip_by_length|]. unfold replace_illegal.
    rewrite length_map. exact Hlen. }
  assert (Hlast : ∀ c, last (_sanitize_name name) = Some c → c ≠ 46 ∧ c ≠ 32).
  { intros c Hc. rewrite Hcut in Hc. unfold strip_chars in Hc. fold dot_or_space in Hc.
    apply strip_by_last in Hc.
    split; intros ->; discriminate. }
  split; [exact Hlast|].
  destruct (sanitize_name_guarantees name) as (Hl & Hlegal & Hhead).
  apply sanitize_name_fixed.
  - apply replace_illegal_legal_id, Hlegal.
  - apply strip_by_clean; intros c Hc; apply not_dot_or_space; auto.
  - exact Hl.
Qed.

Lemma sanitize_name_short_witness :
  (∀ c, last (_sanitize_name (py " my: app. ")) = Some c → c ≠ 46 ∧ c ≠ 32) ∧
  _sanitize_name (_sanitize_name (py " my: app. ")) = _sanitize_name (py " my: app. ").
Proof. apply sanitize_name_short. cbn. lia. Defined.

End SanitizeFacts.

(* ===================================================================== *)
(** * More on the project folder *)
(* ===================================================================== *)

Module FolderFacts.
Import StructureCreator Props FolderProps StructureCreatorFacts SanitizeFacts.

#[local] Open Scope nat_scope.

Lemma split_slash_no_slash s : ∀ cur,
  Forall (fun c => c ≠ 47%N) s → split_slash s cur = [rev cur ++ s].
Proof.
  induction s as [|c s IH]; intros cur H; cbn [split_slash].
  - rewrite app_nil_r. reflexivity.
  - apply Forall_cons in H as [Hc Hs].
    destruct (N.eqb_spec c 47); [contradiction|].
    rewrite IH by exact Hs. cbn [rev]. rewrite <- app_assoc. reflexivity.
Qed.

(** A sanitized name that is not empty is one path component: the
    project path is the desktop path with the name appended. *)
Lemma div_sanitized (desktop_path : path) topic :
  _sanitize_name topic ≠ [] →
  div desktop_path (_sanitize_name topic) = desktop_path ++ [_sanitize_name topic].
Proof.
  intros Hne. destruct (sanitize_name_guarantees topic) as (_ & Hlegal & Hhead).
  assert (Hslash : Forall (fun c => c ≠ 47%N) (_sanitize_name topic)).
  { eapply Forall_impl; [exact Hlegal|]. intros c Hc ->. discriminate. }
  unfold div, parts.
  destruct (_sanitize_name topic) as [|c s] eqn:E; [contradiction|].
  assert (Hc47 : c ≠ 47%N) by (apply Forall_cons in Hslash; tauto).
  cbn [startswith]. destruct (N.eqb_spec 47 c); [subst; contradiction|]. cbn [andb].
  rewrite split_slash_no_slash by exact Hslash. cbn [rev app].
  destruct (Hhead c eq_refl) as [Hdot _].
  rewrite filter_cons, filter_nil, decide_True; [reflexivity|].
  split; [discriminate|]. intros [= -> _]. contradiction.
Qed.

Lemma prefix_same_length (p q : path) : p `prefix_of` q → length q ≤ length p → p = q.
Proof. apply prefix_length_eq. Qed.

(** [mkdir] with [parents=True], when no file is in the way: every
    directory on the way exists afterwards and nothing else changes. *)
Lemma mkdir_from_full rest : ∀ (base : path) (fs : filesystem),
  (∀ q, q `prefix_of` (base ++ rest) → length base < length q →
        ∀ content, fs !! q ≠ Some (File content)) →
  ∃ fs', mkdir_from base rest fs = Ok fs' ∧
         (∀ q, q `prefix_of` (base ++ rest) → length base < length q →
               fs' !! q = Some Dir) ∧
         (∀ q, ¬ (q `prefix_of` (base ++ rest) ∧ length base < length q) →
               fs' !! q = fs !! q).
Proof.
  induction rest as [|c rest IH]; intros base fs Hfree.
  - exists fs. split; [reflexivity|]. split; [|auto].
    intros q Hq Hlen. rewrite app_nil_r in Hq. apply prefix_length in Hq. lia.
  - cbn [mkdir_from]. rewrite kind_snoc.
    assert (Happ : (base ++ [c]) ++ rest = base ++ c :: rest)
      by (rewrite <- app_assoc; reflexivity).
    assert (Hq0 : (base ++ [c]) `prefix_of` (base ++ c :: rest))
      by (exists rest; symmetry; exact Happ).
    assert (Hlen0 : length (base ++ [c]) = S (length base))
      by (rewrite length_app; cbn; lia).
    assert (Hsame : ∀ q, q `prefix_of` (base ++ c :: rest) → length base < length q →
                         ¬ (length (base ++ [c]) < length q) → q = base ++ [c]).
    { intros q Hq Hl Hn. symmetry. apply prefix_same_length; [|lia].
      apply (prefix_of_snoc_lt base q c rest Hq Hl). }
    destruct (fs !! (base ++ [c])) as [[|content]|] eqn:E.
    + destruct (IH (base ++ [c]) fs) as (fs' & Hok & Hdirs & Hframe).
      { intros q Hq Hlen. apply Hfree; [rewrite <- Happ; exact Hq | lia]. }
      exists fs'. split; [exact Hok|]. rewrite Happ in *. split.
      * intros q Hq Hl.
        destruct (decide (length (base ++ [c]) < length q)) as [Hlt | Hn];
          [apply Hdirs; assumption|].
        rewrite (Hsame q Hq Hl Hn), Hframe, E; [reflexivity|]. intros [_ H]. lia.
      * intros q Hq. apply Hframe. intros [H1 H2]. apply Hq. split; [exact H1 | lia].
    + exfalso. apply (Hfree _ Hq0 ltac:(lia) content E).
    + destruct (IH (base ++ [c]) (<[base ++ [c] := Dir]> fs)) as (fs' & Hok & Hdirs & Hframe).
      { intros q Hq Hlen content. rewrite lookup_insert_ne.
        - apply Hfree; [rewrite <- Happ; exact Hq | lia].
        - intros Heq. rewrite <- Heq in Hlen. lia. }
      exists fs'. split; [exact Hok|]. rewrite Happ in *. split.
      * intros q Hq Hl.
        destruct (decide (length (base ++ [c]) < length q)) as [Hlt | Hn];
          [apply Hdirs; assumption|].
        rewrite (Hsame q Hq Hl Hn), Hframe, lookup_insert_eq; [reflexivity|].
        intros [_ H]. lia.
      * intros q Hq. rewrite Hframe.
        -- apply lookup_insert_ne. intros Heq. apply Hq. rewrite <- Heq. split; [exact Hq0 | lia].
        -- intros [H1 H2]. apply Hq. split; [exact H1 | lia].
Qed.

Lemma prefix_of_snoc_cases (q l : path) (x : str) :
  q `prefix_of` (l ++ [x]) → q `prefix_of` l ∨ q = l ++ [x].
Proof.
  intros [k Hk]. destruct k as [|y k _] using rev_ind.
  - right. rewrite app_nil_r in Hk. symmetry. exact Hk.
  - left. rewrite app_assoc in Hk. apply app_inj_tail in Hk as [-> _].
    exists k. reflexivity.
Qed.

(** The checker is sound. *)
Lemma fs_wfb_sound fs : fs_wfb fs = true → fs_wf fs.
Proof.
  unfold fs_wfb, fs_wf. intros H q n Hq p Hp Hpq Hne.
  rewrite forallb_forall in H.
  specialize (H (q, n)). cbn [fst] in H.
  assert (Hin : In (q, n) (map_to_list fs)).
  { apply list_elem_of_In, elem_of_map_to_list. exact Hq. }
  specialize (H Hin). rewrite forallb_forall in H.
  assert (Hlen : length p < length q).
  { pose proof (prefix_length _ _ Hp).
    destruct (decide (length p = length q)) as [E|]; [|lia].
    exfalso. apply Hpq. apply prefix_same_length; [exact Hp | lia]. }
  assert (Htake : p = take (length p) q).
  { destruct Hp as [k ->]. rewrite take_app_length. reflexivity. }
  assert (Hpos : 0 < length p) by (destruct p; [contradiction | cbn; lia]).
  specialize (H (length p) ltac:(apply in_seq; lia)).
  rewrite <- Htake in H.
  destruct (fs !! p) as [[|?]|]; [reflexivity | discriminate H | discriminate H].
Qed.

Section Folder.
Variable desktop_path : path.
Variable topic : str.
Variable fs : filesystem.

#[local] Abbreviation project_path := (desktop_path ++ [_sanitize_name topic]).

Hypothesis fs_ok : fs_wf fs.
Hypothesis desktop_ok : kind fs desktop_path = Some Dir.
Hypothesis name_ok : _sanitize_name topic ≠ [].
Hypothesis name_fits : os_name_error (_sanitize_name topic) = None.

Lemma ancestors_are_dirs q :
  q `prefix_of` project_path → q ≠ project_path → q ≠ [] → fs !! q = Some Dir.
Proof.
  intros Hq Hne Hnil.
  assert (Hd : q `prefix_of` desktop_path).
  { destruct (prefix_of_snoc_cases _ _ _ Hq) as [H | H]; [exact H | contradiction]. }
  destruct (decide (q = desktop_path)) as [-> | Hqd].
  - destruct desktop_path; [contradiction | exact desktop_ok].
  - destruct desktop_path as [|d ds] eqn:E; [destruct Hd as [k Hk]; destruct q; [contradiction | discriminate]|].
    apply (fs_ok (d :: ds) Dir desktop_ok q Hd Hqd Hnil).
Qed.

Lemma not_below_ancestor q :
  q `prefix_of` project_path → q ≠ project_path → ¬ project_path `prefix_of` q.
Proof.
  intros Hq Hne Hp. apply Hne. apply prefix_same_length; [exact Hq|].
  apply prefix_length, Hp.
Qed.

(** The state between the removal and [mkdir]: nothing is left at or
    below the project path, and nothing else has changed. *)
Lemma removal_spec :
  (∀ content, fs !! project_path ≠ Some (File content)) →
  ∃ fs1, (if exists_ fs project_path then rmtree project_path fs else Ok fs) = Ok fs1 ∧
         (∀ q, project_path `prefix_of` q → fs1 !! q = None) ∧
         (∀ q, ¬ project_path `prefix_of` q → fs1 !! q = fs !! q).
Proof.
  intros Hfile. unfold exists_, rmtree. rewrite kind_snoc.
  destruct (fs !! (desktop_path ++ [_sanitize_name topic])) as [[|content]|] eqn:E.
  - eexists. split; [reflexivity|]. split.
    + intros q Hq. apply map_lookup_filter_None. right. intros x _ Hn. apply Hn. exact Hq.
    + intros q Hq. destruct (fs !! q) as [x|] eqn:Eq.
      * apply map_lookup_filter_Some. split; [exact Eq | exact Hq].
      * apply map_lookup_filter_None. left. exact Eq.
  - exfalso. apply (Hfile content). reflexivity.
  - exists fs. split; [reflexivity|]. split; [|reflexivity].
    intros q Hq. destruct (fs !! q) as [x|] eqn:Eq; [|reflexivity].
    destruct (decide (desktop_path ++ [_sanitize_name topic] = q)) as [<- | Hne];
      [congruence|].
    rewrite (fs_ok q x Eq _ Hq Hne) in E; [discriminate|].
    intros H. apply app_eq_nil in H as [_ H]. discriminate H.
Qed.

(** The whole step, entry by entry. *)
Lemma create_project_folder_spec :
  (∀ content, fs !! project_path ≠ Some (File content)) →
  ∃ fs', create_project_folder desktop_path topic fs = Ok (project_path, fs') ∧
         fs' !! project_path = Some Dir ∧
         (∀ q, project_path `prefix_of` q → q ≠ project_path → fs' !! q = None) ∧
         (∀ q, ¬ project_path `prefix_of` q → fs' !! q = fs !! q).
Proof.
  intros Hfile. unfold create_project_folder.
  rewrite (div_sanitized desktop_path topic name_ok).
  destruct (removal_spec Hfile) as (fs1 & -> & Hgone & Hkept).
  cbn [mbind result_bind]. rewrite name_fits. unfold mkdir_parents.
  destruct (mkdir_from_full project_path [] fs1) as (fs' & -> & Hdirs & Hframe).
  { cbn [app]. intros q Hq Hlen content.
    destruct (decide (q = project_path)) as [-> | Hne].
    - rewrite Hgone by reflexivity. discriminate.
    - rewrite Hkept by (apply not_below_ancestor; assumption).
      rewrite ancestors_are_dirs; [discriminate | exact Hq | exact Hne |].
      intros ->. cbn in Hlen. lia. }
  cbn [app] in Hdirs, Hframe. cbn [length] in Hdirs, Hframe.
  assert (Hpos : 0 < length project_path).
  { rewrite length_app. cbn. lia. }
  exists fs'. split; [reflexivity|]. split; [|split].
  - apply Hdirs; [reflexivity | exact Hpos].
  - intros q Hq Hne. rewrite Hframe.
    + apply Hgone, Hq.
    + intros [Hp _]. apply Hne. apply prefix_same_length; [exact Hp|].
      apply prefix_length, Hq.
  - intros q Hq. destruct (decide (q `prefix_of` project_path ∧ 0 < length q)) as [[Hp Hl] | Hn].
    + rewrite Hdirs by assumption. symmetry. apply ancestors_are_dirs; [exact Hp | |].
      * intros ->. apply Hq. reflexivity.
      * intros ->. cbn in Hl. lia.
    + rewrite Hframe by exact Hn. apply Hkept, Hq.
Qed.

(** What the step guarantees keeps the file system well formed and the
    desktop folder in place. *)
Lemma spec_keeps_wf fs' :
  fs' !! project_path = Some Dir →
  (∀ q, project_path `prefix_of` q → q ≠ project_path → fs' !! q = None) →
  (∀ q, ¬ project_path `prefix_of` q → fs' !! q = fs !! q) →
  fs_wf fs' ∧ kind fs' desktop_path = Some Dir.
Proof.
  intros Hdir Hgone Hkept. split.
  - intros q n Hq p Hp Hpq Hnil.
    destruct (decide (project_path `prefix_of` q)) as [Hb | Hb].
    + destruct (decide (q = project_path)) as [-> | Hne].
      * rewrite Hkept by (apply not_below_ancestor; assumption).
        apply ancestors_are_dirs; assumption.
      * rewrite Hgone in Hq by assumption. discriminate.
    + rewrite Hkept in Hq by exact Hb.
      rewrite Hkept; [apply (fs_ok q n Hq p Hp Hpq Hnil)|].
      intros H. apply Hb. etransitivity; eassumption.
  - assert (Hk : fs' !! desktop_path = fs !! desktop_path).
    { apply Hkept. intros H. apply prefix_length in H.
      rewrite length_app in H. cbn in H. lia. }
    unfold kind in *. destruct desktop_path; [reflexivity|].
    rewrite Hk. exact desktop_ok.
Qed.

End Folder.

(** X9.  With a name that is not empty and that the operating system takes,
    and no file in the way, the step succeeds; the
    project folder exists afterwards and is empty, and every entry that is
    not at or below the project path is what it was before. *)
Theorem create_project_folder_replaces (desktop_path : path) (topic : str) (fs : filesystem) :
  fs_wf fs →
  kind fs desktop_path = Some Dir →
  _sanitize_name topic ≠ [] →
  os_name_error (_sanitize_name topic) = None →
  (∀ content, fs !! div desktop_path (_sanitize_name topic) ≠ Some (File content)) →
  ∃ fs', create_project_folder desktop_path topic fs
           = Ok (div desktop_path (_sanitize_name topic), fs') ∧
         fs' !! div desktop_path (_sanitize_name topic) = Some Dir ∧
         (∀ q, div desktop_path (_sanitize_name topic) `prefix_of` q →
               q ≠ div desktop_path (_sanitize_name topic) → fs' !! q = None) ∧
         (∀ q, ¬ div desktop_path (_sanitize_name topic) `prefix_of` q →
               fs' !! q = fs !! q).
Proof.
  intros Hwf Hdesk Hname Hfits. rewrite (div_sanitized desktop_path topic Hname).
  apply create_project_folder_spec; assumption.
Qed.

Lemma create_project_folder_replaces_witness :
  ∃ fs', create_project_folder [py "home"; py "Desktop"] (py "todo app") desktop_with_project
           = Ok (div [py "home"; py "Desktop"] (_sanitize_name (py "todo app")), fs') ∧
         fs' !! div [py "home"; py "Desktop"] (_sanitize_name (py "todo app")) = Some Dir ∧
         (∀ q, div [py "home"; py "Desktop"] (_sanitize_name (py "todo app")) `prefix_of` q →
               q ≠ div [py "home"; py "Desktop"] (_sanitize_name (py "todo app")) →
               fs' !! q = None) ∧
         (∀ q, ¬ div [py "home"; py "Desktop"] (_sanitize_name (py "todo app")) `prefix_of` q →
               fs' !! q = desktop_with_project !! q).
Proof.
  apply create_project_folder_replaces.
  - apply fs_wfb_sound. vm_compute. reflexivity.
  - vm_compute. reflexivity.
  - vm_compute. discriminate.
  - vm_compute. reflexivity.
  - intros content. vm_compute. discriminate.
Defined.

(** X10.  Under the same conditions the file system is still well formed
    afterwards: every entry lies in directories that exist. *)
Theorem create_project_folder_keeps_wf (desktop_path : path) (topic : str) (fs : filesystem) :
  fs_wf fs →
  kind fs desktop_path = Some Dir →
  _sanitize_name topic ≠ [] →
  os_name_error (_sanitize_name topic) = None →
  (∀ content, fs !! div desktop_path (_sanitize_name topic) ≠ Some (File content)) →
  ∃ project_path fs',
    create_project_folder desktop_path topic fs = Ok (project_path, fs') ∧ fs_wf fs'.
Proof.
  intros Hwf Hdesk Hname Hfits. rewrite (div_sanitized desktop_path topic Hname). intros Hfile.
  destruct (create_project_folder_spec desktop_path topic fs Hwf Hdesk Hname Hfits Hfile)
    as (fs' & Hok & Hdir & Hgone & Hkept).
  exists (desktop_path ++ [_sanitize_name topic]), fs'. split; [exact Hok|].
  apply (spec_keeps_wf desktop_path topic fs Hwf Hdesk fs' Hdir Hgone Hkept).
Qed.

Lemma create_project_folder_keeps_wf_witness :
  ∃ project_path fs',
    create_project_folder [py "home"; py "Desktop"] (py "todo app") desktop_with_project
      = Ok (project_path, fs') ∧ fs_wf fs'.
Proof.
  apply create_project_folder_keeps_wf.
  - apply fs_wfb_sound. vm_compute. reflexivity.
  - vm_compute. reflexivity.
  - vm_compute. discriminate.
  - vm_compute. reflexivity.
  - intros content. vm_compute. discriminate.
Defined.

(** X11.  The step is idempotent: run again on its own result, it returns
    the same path and the same file system. *)
Theorem create_project_folder_idempotent (desktop_path : path) (topic : str) (fs : filesystem) :
  fs_wf fs →
  kind fs desktop_path = Some Dir →
  _sanitize_name topic ≠ [] →
  os_name_error (_sanitize_name topic) = None →
  (∀ content, fs !! div desktop_path (_sanitize_name topic) ≠ Some (File content)) →
  ∃ project_path fs',
    create_project_folder desktop_path topic fs = Ok (project_path, fs') ∧
    create_project_folder desktop_path topic fs' = Ok (project_path, fs').
Proof.
  intros Hwf Hdesk Hname Hfits. rewrite (div_sanitized desktop_path topic Hname). intros Hfile.
  destruct (create_project_folder_spec desktop_path topic fs Hwf Hdesk Hname Hfits Hfile)
    as (fs' & Hok & Hdir & Hgone & Hkept).
  destruct (spec_keeps_wf desktop_path topic fs Hwf Hdesk fs' Hdir Hgone Hkept)
    as [Hwf' Hdesk'].
  destruct (create_project_folder_spec desktop_path topic fs' Hwf' Hdesk' Hname Hfits)
    as (fs2 & Hok2 & Hdir2 & Hgone2 & Hkept2).
  { intros content. rewrite Hdir. discriminate. }
  exists (desktop_path ++ [_sanitize_name topic]), fs'. split; [exact Hok|].
  rewrite Hok2. do 2 f_equal. apply map_eq. intros q.
  destruct (decide ((desktop_path ++ [_sanitize_name topic]) `prefix_of` q)) as [Hb | Hb].
  - destruct (decide (q = desktop_path ++ [_sanitize_name topic])) as [-> | Hne].
    + transitivity (Some Dir); [exact Hdir2 | symmetry; exact Hdir].
    + transitivity (@None node); [apply Hgone2 | symmetry; apply Hgone]; assumption.
  - apply Hkept2, Hb.
Qed.

Lemma create_project_folder_idempotent_witness :
  ∃ project_path fs',
    create_project_folder [py "home"; py "Desktop"] (py "todo app") desktop_with_project
      = Ok (project_path, fs') ∧
    create_project_folder [py "home"; py "Desktop"] (py "todo app") fs'
      = Ok (project_path, fs').
Proof.
  apply create_project_folder_idempotent.
  - apply fs_wfb_sound. vm_compute. reflexivity.
  - vm_compute. reflexivity.
  - vm_compute. discriminate.
  - vm_compute. reflexivity.
  - intros content. vm_compute. discriminate.
Defined.

(** X12.  A file that has the project's name is not replaced: the step ends
    with [OSError] (raised by [shutil.rmtree]). *)
Theorem create_project_folder_file_in_the_way (desktop_path : path) (topic : str)
    (fs : filesystem) (content : str) :
  _sanitize_name topic ≠ [] →
  fs !! div desktop_path (_sanitize_name topic) = Some (File content) →
  create_project_folder desktop_path topic fs = Raise OSError.
Proof.
  intros Hname Hfile.
  assert (Hk : kind fs (div desktop_path (_sanitize_name topic)) = Some (File content)).
  { rewrite (div_sanitized desktop_path topic Hname) in *. rewrite kind_snoc. exact Hfile. }
  unfold create_project_folder, exists_, rmtree. rewrite Hk. reflexivity.
Qed.

Lemma create_project_folder_file_in_the_way_witness :
  create_project_folder [py "home"; py "Desktop"] (py "todo app")
    desktop_with_file_in_the_way = Raise OSError.
Proof.
  apply (create_project_folder_file_in_the_way _ _ _ (py "notes")).
  - vm_compute. discriminate.
  - vm_compute. reflexivity.
Defined.

(** A name that the operating system cannot take (a NUL or a surrogate
    that cannot be encoded in it): no such path exists, so nothing is
    removed, and [mkdir] raises. *)
Lemma create_project_folder_rejected_name (desktop_path : path) (topic : str)
    (fs : filesystem) (e : exn) :
  os_name_error (_sanitize_name topic) = Some e →
  exists_ fs (div desktop_path (_sanitize_name topic)) = false →
  create_project_folder desktop_path topic fs = Raise e.
Proof.
  intros He Hex. unfold create_project_folder. rewrite Hex.
  cbn [mbind result_bind]. rewrite He. reflexivity.
Qed.

End FolderFacts.

(* ===================================================================== *)
(** * The decoder with the limits of the interpreter *)
(* ===================================================================== *)

Module RuntimeFacts.
Import MistralPlanner Runtime PlannerProps ParserFacts.

#[local] Open Scope nat_scope.

Section Decoder.
Variable max_digits : nat.

Lemma scan_scalar_shorter s v r :
  scan_scalar max_digits s = Scanned v r → length r < length s.
Proof.
  unfold scan_scalar.
  destruct (match_constant s) as [[v0 r0]|] eqn:E; [|discriminate].
  apply match_constant_shorter in E.
  destruct v0; try (intros [= _ <-]; exact E).
  destruct (match_integer s) as [[[neg ds] r1]|]; [|intros [= _ <-]; exact E].
  destruct (too_many max_digits (length ds)); [discriminate | intros [= _ <-]; exact E].
Qed.

Lemma scan_scalar_total s : scan_scalar max_digits s ≠ Exhausted.
Proof.
  unfold scan_scalar.
  destruct (match_constant s) as [[v0 r0]|]; [|discriminate].
  destruct v0; try discriminate.
  destruct (match_integer s) as [[[neg ds] r1]|]; [|discriminate].
  destruct (too_many max_digits (length ds)); discriminate.
Qed.

(** ** The loops over the items of a container *)

Section Items.
Variable inner : str → scan_result.
Hypothesis inner_shorter : ∀ s v r, inner s = Scanned v r → length r < length s.
Hypothesis inner_total : ∀ s, inner s ≠ Exhausted.

Lemma skip_ws_tail (r : str) c r' : skip_ws r = c :: r' → length r' < length r.
Proof.
  intros H. pose proof (skip_ws_length r) as Hl. rewrite H in Hl. cbn in Hl. lia.
Qed.

Lemma array_items_ok budget : ∀ s acc,
  length s < budget →
  array_items inner budget s acc ≠ Exhausted ∧
  ∀ v r, array_items inner budget s acc = Scanned v r → length r < length s.
Proof.
  induction budget as [|budget IH]; intros s acc Hlen; [lia|].
  cbn [array_items].
  destruct (inner s) as [v0 r0| | | |] eqn:E;
    try (split; [discriminate | intros v r; discriminate]).
  - pose proof (inner_shorter s v0 r0 E) as Hr0.
    destruct (skip_ws r0) as [|c r'] eqn:Ews; [split; [discriminate | intros v r; discriminate]|].
    pose proof (skip_ws_tail r0 c r' Ews) as Hr'.
    destruct (c =? 93)%N; [split; [discriminate | intros v r [= _ <-]; lia]|].
    destruct (c =? 44)%N; [|split; [discriminate | intros v r; discriminate]].
    pose proof (skip_ws_length r') as Hws.
    destruct (IH (skip_ws r') (acc ++ [v0]) ltac:(lia)) as [Htot Hshort].
    split; [exact Htot|]. intros v r H. apply Hshort in H. lia.
  - exfalso. apply (inner_total s E).
Qed.

Lemma object_members_ok budget : ∀ s acc,
  length s < budget →
  object_members inner budget s acc ≠ Exhausted ∧
  ∀ v r, object_members inner budget s acc = Scanned v r → length r < length s.
Proof.
  induction budget as [|budget IH]; intros s acc Hlen; [lia|].
  cbn [object_members].
  destruct s as [|q r0]; [split; [discriminate | intros v r; discriminate]|].
  destruct (q =? 34)%N; [|split; [discriminate | intros v r; discriminate]].
  destruct (scanstring r0 []) as [[k r1]|] eqn:Ek;
    [|split; [discriminate | intros v r; discriminate]].
  apply (scanstring_shorter (length r0) r0 (le_n _)) in Ek.
  destruct (skip_ws r1) as [|colon r2] eqn:Ews1;
    [split; [discriminate | intros v r; discriminate]|].
  pose proof (skip_ws_tail r1 colon r2 Ews1) as Hr2.
  destruct (colon =? 58)%N; [|split; [discriminate | intros v r; discriminate]].
  pose proof (skip_ws_length r2) as Hws2.
  destruct (inner (skip_ws r2)) as [v0 r3| | | |] eqn:E;
    try (split; [discriminate | intros v r; discriminate]).
  - pose proof (inner_shorter _ v0 r3 E) as Hr3.
    destruct (skip_ws r3) as [|c r4] eqn:Ews3;
      [split; [discriminate | intros v r; discriminate]|].
    pose proof (skip_ws_tail r3 c r4 Ews3) as Hr4.
    cbn [length] in *.
    destruct (c =? 125)%N; [split; [discriminate | intros v r [= _ <-]; lia]|].
    destruct (c =? 44)%N; [|split; [discriminate | intros v r; discriminate]].
    pose proof (skip_ws_length r4) as Hws4.
    destruct (IH (skip_ws r4) (dict_set k v0 acc) ltac:(lia)) as [Htot Hshort].
    split; [exact Htot|]. intros v r H. apply Hshort in H. lia.
  - exfalso. apply (inner_total _ E).
Qed.

Lemma scan_array_ok r :
  scan_array inner r ≠ Exhausted ∧
  ∀ v r', scan_array inner r = Scanned v r' → length r' < length r.
Proof.
  unfold scan_array.
  destruct (skip_ws r) as [|c r0] eqn:Ews; [split; [discriminate | intros v r'; discriminate]|].
  pose proof (skip_ws_tail r c r0 Ews) as Hr0.
  destruct (c =? 93)%N; [split; [discriminate | intros v r' [= _ <-]; exact Hr0]|].
  destruct (array_items_ok (S (length r)) (c :: r0) []) as [Htot Hshort].
  { pose proof (skip_ws_length r) as Hl. rewrite Ews in Hl. lia. }
  split; [exact Htot|]. intros v r' H. apply Hshort in H.
  pose proof (skip_ws_length r) as Hl. rewrite Ews in Hl. lia.
Qed.

Lemma scan_object_ok r :
  scan_object inner r ≠ Exhausted ∧
  ∀ v r', scan_object inner r = Scanned v r' → length r' < length r.
Proof.
  unfold scan_object.
  destruct (skip_ws r) as [|c r0] eqn:Ews; [split; [discriminate | intros v r'; discriminate]|].
  pose proof (skip_ws_tail r c r0 Ews) as Hr0.
  destruct (c =? 125)%N; [split; [discriminate | intros v r' [= _ <-]; exact Hr0]|].
  destruct (object_members_ok (S (length r)) (c :: r0) []) as [Htot Hshort].
  { pose proof (skip_ws_length r) as Hl. rewrite Ews in Hl. lia. }
  split; [exact Htot|]. intros v r' H. apply Hshort in H.
  pose proof (skip_ws_length r) as Hl. rewrite Ews in Hl. lia.
Qed.

End Items.

(** ** One value *)

Lemma scan_level_ok nested :
  (∀ inner, nested = Some inner →
            (∀ s v r, inner s = Scanned v r → length r < length s) ∧
            (∀ s, inner s ≠ Exhausted)) →
  ∀ s, scan_level max_digits nested s ≠ Exhausted ∧
       ∀ v r, scan_level max_digits nested s = Scanned v r → length r < length s.
Proof.
  intros Hnested s. unfold scan_level.
  destruct s as [|c r0]; [split; [discriminate | intros v r; discriminate]|].
  destruct (c =? 34)%N.
  { destruct (scanstring r0 []) as [[x r1]|] eqn:Ex;
      [|split; [discriminate | intros v r; discriminate]].
    apply (scanstring_shorter (length r0) r0 (le_n _)) in Ex.
    split; [discriminate|]. intros v r [= _ <-]. cbn. lia. }
  destruct (c =? 123)%N.
  { destruct nested as [inner|]; [|split; [discriminate | intros v r; discriminate]].
    destruct (Hnested inner eq_refl) as [Hshort Htot].
    destruct (scan_object_ok inner Hshort Htot r0) as [Ht Hs].
    split; [exact Ht|]. intros v r H. apply Hs in H. cbn. lia. }
  destruct (c =? 91)%N.
  { destruct nested as [inner|]; [|split; [discriminate | intros v r; discriminate]].
    destruct (Hnested inner eq_refl) as [Hshort Htot].
    destruct (scan_array_ok inner Hshort Htot r0) as [Ht Hs].
    split; [exact Ht|]. intros v r H. apply Hs in H. cbn. lia. }
  split; [apply scan_scalar_total | apply scan_scalar_shorter].
Qed.

Lemma scan_value_ok depth : ∀ s,
  scan_value max_digits depth s ≠ Exhausted ∧
  ∀ v r, scan_value max_digits depth s = Scanned v r → length r < length s.
Proof.
  induction depth as [|depth IH]; cbn [scan_value]; apply scan_level_ok.
  - intros inner [=].
  - intros inner [= <-]. split; [intros s v r; apply IH | intros s; apply IH].
Qed.

(** The loops over the items of a container never run out of steps:
    every outcome of the decoder is one of [json.loads]. *)
Lemma scan_value_total depth s : scan_value max_digits depth s ≠ Exhausted.
Proof. apply scan_value_ok. Qed.

End Decoder.

(** A text that does not begin with a value is malformed, whatever the
    limits are: the decoder stops at its first character. *)
Lemma json_loads_backquote rt r : json_loads rt (96%N :: r) = Raise JSONDecodeError.
Proof.
  unfold json_loads. change (startswith [65279%N] (96%N :: r)) with false. cbv iota.
  change (skip_ws (96%N :: r)) with (96%N :: r).
  destruct (recursion_left rt); reflexivity.
Qed.

Lemma json_loads_empty rt : json_loads rt [] = Raise JSONDecodeError.
Proof. unfold json_loads. cbn. destruct (recursion_left rt); reflexivity. Qed.

(** What [parse_structure] does on a text that [json.loads] finds
    malformed: the two messages of the handler, then the exception. *)
Lemma parse_structure_malformed rt text :
  json_loads rt (clean_response text) = Raise JSONDecodeError →
  parse_structure rt text =
  (_ ← print rt (WithError (py "Error parsing JSON: "));
   _ ← print rt (Text (py "Raw response: " ++ clean_response text));
   Raise JSONDecodeError).
Proof. intros H. unfold parse_structure. cbv zeta. rewrite H. reflexivity. Qed.

(** ** The decoder with limits and the decoder without *)

(** More fuel changes no result of the decoder without limits. *)
Lemma parse_more_fuel f :
  (∀ s x, parse_value f s = Some x → parse_value (S f) s = Some x) ∧
  (∀ s acc x, parse_elems f s acc = Some x → parse_elems (S f) s acc = Some x) ∧
  (∀ s acc x, parse_members f s acc = Some x → parse_members (S f) s acc = Some x).
Proof.
  induction f as [|f (IHv & IHe & IHm)].
  { repeat split; intros; discriminate. }
  repeat split.
  - intros s x H. destruct s as [|c r]; [discriminate H|].
    cbn [parse_value] in H |- *.
    destruct (c =? 34)%N; [exact H|].
    destruct (c =? 123)%N.
    { destruct (skip_ws r) as [|c' r']; [exact H|].
      destruct (c' =? 125)%N; [exact H|]. apply IHm, H. }
    destruct (c =? 91)%N; [|exact H].
    destruct (skip_ws r) as [|c' r']; [exact H|].
    destruct (c' =? 93)%N; [exact H|]. apply IHe, H.
  - intros s acc x H. cbn [parse_elems] in H |- *.
    destruct (parse_value f s) as [[v r]|] eqn:Ev; [|discriminate].
    rewrite (IHv _ _ Ev).
    destruct (skip_ws r) as [|c r']; [exact H|].
    destruct (c =? 93)%N; [exact H|].
    destruct (c =? 44)%N; [|exact H]. apply IHe, H.
  - intros s acc x H. cbn [parse_members] in H |- *.
    destruct s as [|q r]; [exact H|].
    destruct (q =? 34)%N; [|exact H].
    destruct (scanstring r []) as [[k r1]|]; [|exact H].
    destruct (skip_ws r1) as [|colon r2]; [exact H|].
    destruct (colon =? 58)%N; [|exact H].
    destruct (parse_value f (skip_ws r2)) as [[v r3]|] eqn:Ev; [|discriminate].
    rewrite (IHv _ _ Ev).
    destruct (skip_ws r3) as [|c r4]; [exact H|].
    destruct (c =? 125)%N; [exact H|].
    destruct (c =? 44)%N; [|exact H]. apply IHm, H.
Qed.

Lemma parse_value_fuel_le f f' s x :
  f ≤ f' → parse_value f s = Some x → parse_value f' s = Some x.
Proof.
  induction 1 as [|f' _ IH]; [tauto|]. intros H. apply parse_more_fuel, IH, H.
Qed.

Lemma parse_elems_fuel_le f f' s acc x :
  f ≤ f' → parse_elems f s acc = Some x → parse_elems f' s acc = Some x.
Proof.
  induction 1 as [|f' _ IH]; [tauto|]. intros H. apply parse_more_fuel, IH, H.
Qed.

Lemma parse_members_fuel_le f f' s acc x :
  f ≤ f' → parse_members f s acc = Some x → parse_members f' s acc = Some x.
Proof.
  induction 1 as [|f' _ IH]; [tauto|]. intros H. apply parse_more_fuel, IH, H.
Qed.

Section Decoder.
Variable max_digits : nat.

Lemma scan_scalar_reads_alike s v r :
  scan_scalar max_digits s = Scanned v r → match_constant s = Some (v, r).
Proof.
  unfold scan_scalar.
  destruct (match_constant s) as [[v0 r0]|]; [|discriminate].
  destruct v0; try (intros [= <- <-]; reflexivity).
  destruct (match_integer s) as [[[neg ds] r1]|]; [|intros [= <- <-]; reflexivity].
  destruct (too_many max_digits (length ds)); [discriminate | intros [= <- <-]; reflexivity].
Qed.

Lemma array_items_reads_alike inner (Hinner : reads_alike inner) budget : ∀ s acc v r,
  array_items inner budget s acc = Scanned v r →
  ∃ f, parse_elems f s acc = Some (v, r).
Proof.
  induction budget as [|budget IH]; intros s acc v r; [discriminate|].
  cbn [array_items].
  destruct (inner s) as [v0 r0| | | |] eqn:Ei; try discriminate.
  destruct (Hinner _ _ _ Ei) as [f1 Hf1].
  destruct (skip_ws r0) as [|c r'] eqn:Ews; [discriminate|].
  destruct (c =? 93)%N eqn:E93.
  - intros [= <- <-]. exists (S f1). cbn [parse_elems]. rewrite Hf1, Ews, E93. reflexivity.
  - destruct (c =? 44)%N eqn:E44; [|discriminate].
    intros H. apply IH in H as [f2 Hf2]. exists (S (max f1 f2)). cbn [parse_elems].
    rewrite (parse_value_fuel_le f1 (max f1 f2) _ _ (Nat.le_max_l _ _) Hf1), Ews, E93, E44.
    exact (parse_elems_fuel_le f2 _ _ _ _ (Nat.le_max_r _ _) Hf2).
Qed.

Lemma object_members_reads_alike inner (Hinner : reads_alike inner) budget : ∀ s acc v r,
  object_members inner budget s acc = Scanned v r →
  ∃ f, parse_members f s acc = Some (v, r).
Proof.
  induction budget as [|budget IH]; intros s acc v r; [discriminate|].
  cbn [object_members].
  destruct s as [|q r0]; [discriminate|].
  destruct (q =? 34)%N eqn:E34; [|discriminate].
  destruct (scanstring r0 []) as [[k r1]|] eqn:Ek; [|discriminate].
  destruct (skip_ws r1) as [|colon r2] eqn:Ews1; [discriminate|].
  destruct (colon =? 58)%N eqn:E58; [|discriminate].
  destruct (inner (skip_ws r2)) as [v0 r3| | | |] eqn:Ei; try discriminate.
  destruct (Hinner _ _ _ Ei) as [f1 Hf1].
  destruct (skip_ws r3) as [|c r4] eqn:Ews3; [discriminate|].
  destruct (c =? 125)%N eqn:E125.
  - intros [= <- <-]. exists (S f1). cbn [parse_members].
    rewrite E34, Ek, Ews1, E58, Hf1, Ews3, E125. reflexivity.
  - destruct (c =? 44)%N eqn:E44; [|discriminate].
    intros H. apply IH in H as [f2 Hf2]. exists (S (max f1 f2)). cbn [parse_members].
    rewrite E34, Ek, Ews1, E58.
    rewrite (parse_value_fuel_le f1 (max f1 f2) _ _ (Nat.le_max_l _ _) Hf1), Ews3, E125, E44.
    exact (parse_members_fuel_le f2 _ _ _ _ (Nat.le_max_r _ _) Hf2).
Qed.

Lemma scan_level_reads_alike nested :
  (∀ inner, nested = Some inner → reads_alike inner) →
  reads_alike (scan_level max_digits nested).
Proof.
  intros Hnested s v r. unfold scan_level.
  destruct s as [|c r0]; [discriminate|].
  destruct (c =? 34)%N eqn:E34.
  { destruct (scanstring r0 []) as [[x r']|] eqn:Ex; [|discriminate].
    intros [= <- <-]. exists 1. cbn [parse_value]. rewrite E34, Ex. reflexivity. }
  destruct (c =? 123)%N eqn:E123.
  { destruct nested as [inner|]; [|discriminate]. unfold scan_object.
    destruct (skip_ws r0) as [|c' r'] eqn:Ews; [discriminate|].
    destruct (c' =? 125)%N eqn:E125.
    - intros [= <- <-]. exists 1. cbn [parse_value]. rewrite E34, E123, Ews, E125. reflexivity.
    - intros H. apply (object_members_reads_alike inner (Hnested inner eq_refl)) in H as [f Hf].
      exists (S f). cbn [parse_value]. rewrite E34, E123, Ews, E125. exact Hf. }
  destruct (c =? 91)%N eqn:E91.
  { destruct nested as [inner|]; [|discriminate]. unfold scan_array.
    destruct (skip_ws r0) as [|c' r'] eqn:Ews; [discriminate|].
    destruct (c' =? 93)%N eqn:E93.
    - intros [= <- <-]. exists 1. cbn [parse_value]. rewrite E34, E123, E91, Ews, E93. reflexivity.
    - intros H. apply (array_items_reads_alike inner (Hnested inner eq_refl)) in H as [f Hf].
      exists (S f). cbn [parse_value]. rewrite E34, E123, E91, Ews, E93. exact Hf. }
  intros H. apply scan_scalar_reads_alike in H. exists 1. cbn [parse_value].
  rewrite E34, E123, E91. exact H.
Qed.

Lemma scan_value_reads_alike depth : reads_alike (scan_value max_digits depth).
Proof.
  induction depth as [|depth IH]; cbn [scan_value]; apply scan_level_reads_alike.
  - intros inner [=].
  - intros inner [= <-]. exact IH.
Qed.

End Decoder.

(** What [json.loads] returns within the limits of the interpreter is
    what the decoder without limits returns: the limits only add
    exceptions. *)
Lemma json_loads_within_limits rt s v :
  json_loads rt s = Ok v → loads s = Ok v.
Proof.
  unfold json_loads, loads. destruct (startswith _ s); [discriminate|].
  destruct (scan_value _ _ _) as [v0 r| | | |] eqn:E; try discriminate.
  destruct (skip_ws r) as [|c r'] eqn:Ews; [|discriminate]. intros [= ->].
  destruct (scan_value_reads_alike _ _ _ _ _ E) as [f Hf].
  pose proof (skip_ws_length s) as Hlen.
  rewrite (proj1 (parse_fuel_enough (length s)) (skip_ws s) Hlen
             (loads_fuel s) (max f (loads_fuel s)))
    by (unfold loads_fuel; lia).
  rewrite (parse_value_fuel_le f _ _ _ (Nat.le_max_l _ _) Hf), Ews. reflexivity.
Qed.

(** A blueprint that [parse_structure] returns with its messages and the
    limits of the interpreter is the one that it returns without them. *)
Lemma parse_structure_within_limits rt text structure :
  Runtime.parse_structure rt text = Ok structure →
  MistralPlanner.parse_structure text = Ok structure.
Proof.
  unfold Runtime.parse_structure, MistralPlanner.parse_structure. cbv zeta.
  destruct (json_loads rt (clean_response text)) as [v|e] eqn:E.
  - rewrite (json_loads_within_limits _ _ _ E). cbn [mbind result_bind].
    destruct (validate v) as [v'|e']; [tauto|].
    intros H. exfalso.
    destruct e'; cbv [mbind result_bind print] in H;
      repeat match type of H with
             | context [print_error rt ?m] => destruct (print_error rt m)
             end; discriminate H.
  - intros H. exfalso.
    destruct e; cbv [mbind result_bind print] in H;
      repeat match type of H with
             | context [print_error rt ?m] => destruct (print_error rt m)
             end; discriminate H.
Qed.

End RuntimeFacts.

(* ===================================================================== *)
(** * More on [parse_structure] *)
(* ===================================================================== *)

Module ParseFacts.
Import MistralPlanner Props ParseProps PlannerProps ValidationFacts JsonFacts StructureCreatorFacts.

#[local] Arguments py : simpl never.
#[local] Open Scope nat_scope.

(** ** Validation *)

Lemma with_default_has key value (d : list (str * json)) :
  dict_has key (with_default key value d) = true.
Proof. unfold dict_has. rewrite dict_get_with_default_eq. reflexivity. Qed.

Lemma with_default_keeps k key value (d : list (str * json)) :
  dict_has k d = true → dict_has k (with_default key value d) = true.
Proof.
  intros H. destruct (PyStr.eqb k key) eqn:E.
  - apply eqb_eq in E as ->. apply with_default_has.
  - unfold dict_has. rewrite dict_get_with_default_ne; [exact H|].
    apply eqb_neq. exact E.
Qed.

Lemma with_default_prefix key value (d : list (str * json)) :
  d `prefix_of` with_default key value d.
Proof.
  unfold with_default. destruct (dict_has key d); [reflexivity|].
  exists [(key, value)]. reflexivity.
Qed.

Lemma with_default_present key value (d : list (str * json)) :
  dict_has key d = true → with_default key value d = d.
Proof. unfold with_default. intros ->. reflexivity. Qed.

Lemma filled_has key d : In key defaulted_keys → dict_has key (filled d) = true.
Proof.
  unfold filled. intros [<- | [<- | [<- | []]]].
  - apply with_default_keeps, with_default_keeps, with_default_has.
  - apply with_default_keeps, with_default_has.
  - apply with_default_has.
Qed.

Lemma filled_prefix d : d `prefix_of` filled d.
Proof.
  unfold filled.
  etransitivity; [|apply with_default_prefix].
  etransitivity; [|apply with_default_prefix].
  apply with_default_prefix.
Qed.

Lemma filled_filled d : filled (filled d) = filled d.
Proof.
  unfold filled at 1.
  rewrite (with_default_present (py "folders")) by (apply filled_has; cbn; auto).
  rewrite (with_default_present (py "files")) by (apply filled_has; cbn; auto).
  apply with_default_present, filled_has. cbn. auto.
Qed.

(** A value that is not an object cannot take the defaults. *)
Lemma validate_other v : ¬ is_object v → validate v = Raise TypeError.
Proof.
  intros Hv. destruct v as [| b | z | lit | s | l | d]; try reflexivity.
  - unfold validate, default_if_missing. cbn [py_in mbind result_bind].
    repeat (match goal with |- context [contains ?a ?b] => destruct (contains a b) end;
            cbn [py_in py_setitem py_getitem mbind result_bind]; try reflexivity).
  - unfold validate, default_if_missing. cbn [py_in mbind result_bind].
    repeat (match goal with |- context [existsb ?a ?b] => destruct (existsb a b) end;
            cbn [py_in py_setitem py_getitem mbind result_bind]; try reflexivity).
  - exfalso. apply Hv. exists d. reflexivity.
Qed.

Lemma validate_ok_inv v v' :
  validate v = Ok v' → ∃ d, v = JDict d ∧ v' = JDict (filled d).
Proof.
  intros H. destruct v as [| b | z | lit | s | l | d];
    try (rewrite validate_other in H; [discriminate | intros [d [=]]]).
  exists d. split; [reflexivity|]. rewrite validate_dict in H.
  destruct (py_iter _) as [file_objs|e]; [|discriminate].
  cbn [mbind result_bind] in H.
  destruct (validate_files file_objs) as [[]|e]; [|discriminate].
  cbn [mbind result_bind] in H. congruence.
Qed.

Lemma with_default_app key value (d : list (str * json)) :
  ∃ extra, with_default key value d = d ++ extra ∧
           (extra = [] ∨ extra = [(key, value)]).
Proof.
  unfold with_default. destruct (dict_has key d).
  - exists []. rewrite app_nil_r. auto.
  - exists [(key, value)]. auto.
Qed.

Lemma filled_app d :
  ∃ extra, filled d = d ++ extra ∧ Forall (fun kv => In kv default_entries) extra.
Proof.
  unfold filled.
  destruct (with_default_app (py "folders") (JList []) d) as (e1 & -> & H1).
  destruct (with_default_app (py "files") (JList []) (d ++ e1)) as (e2 & -> & H2).
  destruct (with_default_app (py "interactions") (JStr []) ((d ++ e1) ++ e2)) as (e3 & -> & H3).
  exists (e1 ++ e2 ++ e3). split; [rewrite <- !app_assoc; reflexivity|].
  rewrite !Forall_app. unfold default_entries.
  assert (Hone : ∀ kv e, In kv default_entries → e = [] ∨ e = [kv] →
                        Forall (fun kv => In kv default_entries) e).
  { intros kv e Hin [-> | ->]; [constructor | constructor; [exact Hin | constructor]]. }
  repeat split; eapply Hone; try eassumption; cbn; auto.
Qed.

Lemma validate_files_objects files :
  Forall is_object files →
  (Forall complete_file files ∧ validate_files files = Ok tt) ∨
  (Exists incomplete_file files ∧ validate_files files = Raise ValueError).
Proof.
  induction 1 as [|x files [f ->] _ IH].
  - left. split; [constructor | reflexivity].
  - cbn [validate_files]. rewrite all_keys_in_dict. fold (has_required_keys f).
    destruct (has_required_keys f) eqn:Hf; cbn [mbind result_bind].
    + destruct IH as [[Hall Hok] | [Hex Hraise]].
      * left. split; [|exact Hok]. constructor; [|exact Hall]. exists f. auto.
      * right. split; [|exact Hraise]. apply Exists_cons_tl, Hex.
    + right. split; [|reflexivity]. apply Exists_cons_hd. exists f. auto.
Qed.

(** X13.  Validation succeeds on JSON objects only, and all it ever does to
    one is to append missing defaults: the result is the given object,
    entries and order unchanged, followed by the entries for [folders],
    [files] and [interactions] that were missing, so that the three keys
    are present afterwards. *)
Theorem validate_only_appends_defaults (v v' : json) :
  validate v = Ok v' →
  ∃ d extra, v = JDict d ∧ v' = JDict (d ++ extra) ∧
             Forall (fun kv => In kv default_entries) extra ∧
             (∀ key, In key defaulted_keys → dict_has key (d ++ extra) = true).
Proof.
  intros H. destruct (validate_ok_inv v v' H) as (d & -> & ->).
  destruct (filled_app d) as (extra & Heq & Hextra).
  exists d, extra. split; [reflexivity|]. split; [f_equal; exact Heq|].
  split; [exact Hextra|]. intros key Hkey. rewrite <- Heq. apply filled_has, Hkey.
Qed.

Lemma validate_only_appends_defaults_witness :
  ∃ d extra, JDict [ (py "files", JList []) ] = JDict d ∧
             JDict [ (py "files", JList []); (py "folders", JList []);
                     (py "interactions", JStr []) ] = JDict (d ++ extra) ∧
             Forall (fun kv => In kv default_entries) extra ∧
             (∀ key, In key defaulted_keys → dict_has key (d ++ extra) = true).
Proof. apply validate_only_appends_defaults. reflexivity. Defined.

(** X14.  Validation is idempotent: a blueprint that came out of it passes
    again and comes out unchanged. *)
Theorem validate_idempotent (v v' : json) :
  validate v = Ok v' → validate v' = Ok v'.
Proof.
  intros H. destruct (validate_ok_inv v v' H) as (d & -> & ->).
  rewrite validate_dict in H. rewrite validate_dict, dict_get_files_filled, filled_filled.
  destruct (py_iter _) as [file_objs|e]; [|discriminate].
  cbn [mbind result_bind] in *.
  destruct (validate_files file_objs) as [[]|e]; [reflexivity | discriminate].
Qed.

Lemma validate_idempotent_witness :
  validate (JDict [ (py "files", JList []); (py "folders", JList []);
                    (py "interactions", JStr []) ])
  = Ok (JDict [ (py "files", JList []); (py "folders", JList []);
                (py "interactions", JStr []) ]).
Proof. apply (validate_idempotent (JDict [ (py "files", JList []) ])). reflexivity. Defined.

(** When the [files] entry is a list of JSON objects, validation has
    two outcomes only: every file object has the three required keys and
    the blueprint is returned with its defaults, or one of them lacks a
    key and the exception is [ValueError]. *)
Theorem validate_objects_dichotomy (d : list (str * json)) (files : list json) :
  dict_get (py "files") d = Some (JList files) →
  Forall is_object files →
  (Forall complete_file files ∧ validate (JDict d) = Ok (JDict (filled d))) ∨
  (Exists incomplete_file files ∧ validate (JDict d) = Raise ValueError).
Proof.
  intros Hfiles Hobj. rewrite validate_dict, Hfiles. cbn [py_iter mbind result_bind].
  destruct (validate_files_objects files Hobj) as [[Hall ->] | [Hex ->]]; auto.
Qed.

Lemma validate_objects_dichotomy_witness :
  (Forall complete_file [ JDict [ (py "path", JStr (py "a.py")) ] ] ∧
   validate (JDict [ (py "files", JList [ JDict [ (py "path", JStr (py "a.py")) ] ]) ])
   = Ok (JDict (filled [ (py "files", JList [ JDict [ (py "path", JStr (py "a.py")) ] ]) ]))) ∨
  (Exists incomplete_file [ JDict [ (py "path", JStr (py "a.py")) ] ] ∧
   validate (JDict [ (py "files", JList [ JDict [ (py "path", JStr (py "a.py")) ] ]) ])
   = Raise ValueError).
Proof.
  apply validate_objects_dichotomy.
  - reflexivity.
  - constructor; [|constructor]. eexists. reflexivity.
Defined.

(** ** Cleaning of the response *)

Lemma lstrip_by_app p s : ∀ t,
  lstrip_by p (s ++ t) =
  match lstrip_by p s with [] => lstrip_by p t | _ :: _ => lstrip_by p s ++ t end.
Proof.
  induction s as [|c s IH]; intros t; cbn [app lstrip_by]; [reflexivity|].
  destruct (p c); [apply IH | reflexivity].
Qed.

Lemma lstrip_by_all p ws : Forall (fun c => p c = true) ws → lstrip_by p ws = [].
Proof. apply SanitizeFacts.lstrip_by_nil. Qed.

Lemma rstrip_by_app_all p s ws :
  Forall (fun c => p c = true) ws → rstrip_by p (s ++ ws) = rstrip_by p s.
Proof.
  intros H. unfold rstrip_by. rewrite rev_app_distr, lstrip_by_app.
  rewrite lstrip_by_all; [reflexivity|]. apply Forall_rev, H.
Qed.

(** Whitespace around a text does not survive [strip]. *)
Lemma strip_by_outer p ws1 s ws2 :
  Forall (fun c => p c = true) ws1 → Forall (fun c => p c = true) ws2 →
  strip_by p (ws1 ++ s ++ ws2) = strip_by p s.
Proof.
  intros H1 H2. unfold strip_by.
  rewrite lstrip_by_app, (lstrip_by_all p ws1 H1), lstrip_by_app.
  destruct (lstrip_by p s) as [|c r] eqn:E.
  - rewrite (lstrip_by_all p ws2 H2). reflexivity.
  - apply rstrip_by_app_all, H2.
Qed.

Lemma strip_by_cons_keep p c t :
  p c = false → strip_by p (c :: t) = c :: rstrip_by p t.
Proof.
  intros Hc. unfold strip_by, rstrip_by. cbn [lstrip_by]. rewrite Hc.
  cbn [rev]. rewrite lstrip_by_snoc_keep by exact Hc.
  rewrite rev_app_distr. reflexivity.
Qed.

Lemma rstrip_by_prefix p t : ∃ post, t = rstrip_by p t ++ post.
Proof.
  unfold rstrip_by. destruct (lstrip_by_suffix p (rev t)) as [pre H].
  exists (rev pre). rewrite <- rev_app_distr, <- H, rev_involutive. reflexivity.
Qed.

Lemma startswith_app p : ∀ s t, startswith p s = true → startswith p (s ++ t) = true.
Proof.
  induction p as [|a p IH]; intros [|b s] t; cbn; try reflexivity; try discriminate.
  intros H. apply andb_true_iff in H as [-> H]. cbn. apply IH, H.
Qed.

Lemma clean_response_fenced body : clean_response (fenced body) = body.
Proof.
  unfold clean_response.
  assert (Hstrip : strip (fenced body) = fenced body).
  { apply (strip_by_keep isspace 96%N ([96; 96; 106; 115; 111; 110]%N ++ body ++ py "```") 96%N
             eq_refl eq_refl (py "```json" ++ body ++ [96; 96]%N)).
    change (py "```json") with [96; 96; 96; 106; 115; 111; 110]%N.
    change (py "```") with ([96; 96] ++ [96])%N.
    cbn [app]. rewrite <- app_assoc. reflexivity. }
  rewrite Hstrip.
  change (startswith (py "```json") (fenced body)) with true. cbv iota.
  change (skipn 7 (fenced body)) with (body ++ py "```").
  assert (Hend : endswith (py "```") (body ++ py "```") = true).
  { unfold endswith. rewrite rev_app_distr. reflexivity. }
  rewrite Hend, length_app. change (length (py "```")) with 3.
  replace (length body + 3 - 3) with (length body) by lia.
  apply take_app_length.
Qed.

(** X15.  A response in a fence labelled [json] is read as what stands
    between the fence markers, whatever that is, and blank space around
    the fence makes no difference. *)
Theorem parse_structure_fenced (ws1 body ws2 : str) :
  Forall (fun c => isspace c = true) ws1 →
  Forall (fun c => isspace c = true) ws2 →
  parse_structure (ws1 ++ fenced body ++ ws2) = (structure ← loads body; validate structure).
Proof.
  intros H1 H2. unfold parse_structure.
  replace (clean_response (ws1 ++ fenced body ++ ws2)) with (clean_response (fenced body)).
  - rewrite clean_response_fenced. reflexivity.
  - unfold clean_response, strip. rewrite strip_by_outer by assumption. reflexivity.
Qed.

Lemma parse_structure_fenced_witness :
  parse_structure (py " " ++ fenced (py "{}") ++ [10%N])
  = (structure ← loads (py "{}"); validate structure).
Proof.
  apply parse_structure_fenced; repeat constructor.
Defined.

(** Blank space before and after the response is ignored. *)
Theorem parse_structure_outer_whitespace (ws1 s ws2 : str) :
  Forall (fun c => isspace c = true) ws1 →
  Forall (fun c => isspace c = true) ws2 →
  parse_structure (ws1 ++ s ++ ws2) = parse_structure s.
Proof.
  intros H1 H2. unfold parse_structure, clean_response, strip.
  rewrite strip_by_outer by assumption. reflexivity.
Qed.

Lemma parse_structure_outer_whitespace_witness :
  parse_structure ([10; 32]%N ++ py "{}" ++ [9; 10]%N) = parse_structure (py "{}").
Proof.
  apply parse_structure_outer_whitespace; repeat constructor.
Defined.

(** The cleaning leaves nothing, or a text that still begins with the
    backquote. *)
Lemma clean_response_backquote (t : str) :
  startswith (py "```json") (96%N :: t) = false →
  clean_response (96%N :: t) = [] ∨ ∃ r, clean_response (96%N :: t) = 96%N :: r.
Proof.
  intros Hstart. unfold clean_response, strip.
  rewrite strip_by_cons_keep by reflexivity. cbv zeta.
  destruct (rstrip_by_prefix isspace t) as [post Ht].
  match goal with
  | |- context [startswith ?a ?b] => assert (Hs : startswith a b = false)
  end.
  { match goal with |- ?x = false => destruct x eqn:E end; [|reflexivity].
    apply (startswith_app _ _ post) in E. cbn [app] in E. rewrite <- Ht in E.
    exact (eq_trans (eq_sym E) Hstart). }
  rewrite Hs.
  destruct (endswith _ _); [|right; eexists; reflexivity].
  cbn [length]. destruct (S (length (rstrip_by isspace t)) - 3) as [|n].
  - left. reflexivity.
  - right. cbn [firstn]. eexists. reflexivity.
Qed.

(** X16.  Only the label [json] is recognised.  A response that begins with
    a backquote but not with the labelled fence marker, as one in an
    unlabelled fence does, is never parsed: [json.loads] raises
    [JSONDecodeError] on what the cleaning leaves, whatever the limits of
    the interpreter are, and [parse_structure] ends with an exception:
    that [JSONDecodeError], or the exception with which a [print] of
    its handler ended; it is the [JSONDecodeError] when the console takes
    every message. *)
Theorem parse_structure_bare_fence (rt : Runtime.runtime) (t : str) :
  startswith (py "```json") (96%N :: t) = false →
  Runtime.json_loads rt (clean_response (96%N :: t)) = Raise JSONDecodeError ∧
  ∃ e, Runtime.parse_structure rt (96%N :: t) = Raise e ∧
       (e = JSONDecodeError ∨ ∃ m, Runtime.print_error rt m = Some e) ∧
       (quiet rt → e = JSONDecodeError).
Proof.
  intros Hstart.
  assert (Hloads : Runtime.json_loads rt (clean_response (96%N :: t)) = Raise JSONDecodeError).
  { destruct (clean_response_backquote t Hstart) as [-> | [r ->]].
    - apply RuntimeFacts.json_loads_empty.
    - apply RuntimeFacts.json_loads_backquote. }
  split; [exact Hloads|].
  apply AcquisitionFacts.parse_structure_decode_failure, Hloads.
Qed.

Lemma parse_structure_bare_fence_witness :
  Runtime.json_loads usual_runtime (clean_response (96%N :: py "``{}```"))
  = Raise JSONDecodeError ∧
  ∃ e, Runtime.parse_structure usual_runtime (96%N :: py "``{}```") = Raise e ∧
       (e = JSONDecodeError ∨ ∃ m, Runtime.print_error usual_runtime m = Some e) ∧
       (quiet usual_runtime → e = JSONDecodeError).
Proof. apply parse_structure_bare_fence. reflexivity. Defined.

(** X17.  A response that [json.loads] decodes, within the limits of the
    interpreter, to a value that is not a JSON object ends in
    [TypeError], an exception that neither handler of [parse_structure]
    names; nothing is printed. *)
Theorem parse_structure_not_object (rt : Runtime.runtime) (s : str) (v : json) :
  Runtime.json_loads rt (clean_response s) = Ok v →
  ¬ is_object v →
  Runtime.parse_structure rt s = Raise TypeError.
Proof.
  intros Hl Hv. unfold Runtime.parse_structure. cbv zeta. rewrite Hl.
  rewrite (validate_other v Hv). reflexivity.
Qed.

Lemma parse_structure_not_object_witness :
  Runtime.parse_structure usual_runtime (py "[1, 2]") = Raise TypeError.
Proof.
  apply (parse_structure_not_object _ _ (JList [JInt 1; JInt 2])).
  - vm_compute. reflexivity.
  - intros [d H]. discriminate H.
Defined.

(** ** Reading back a blueprint written by [json.dumps] *)

Lemma scalar_spec c : scalar c = true → (c < 1114112 ∧ ¬ (55296 ≤ c ≤ 57343))%N.
Proof.
  unfold scalar. intros H. apply orb_true_iff in H as [H | H].
  - apply N.ltb_lt in H. lia.
  - apply andb_true_iff in H as [H1 H2]. apply N.ltb_lt in H1, H2. lia.
Qed.

Lemma recode_plain s : forallb scalar s = true → recode s = s.
Proof.
  intros H. apply recode_scalar. rewrite forallb_forall in H.
  apply List.Forall_forall. intros c Hc. apply scalar_spec, H, Hc.
Qed.

Lemma plain_str_tree v : plain v = true → str_tree v = true.
Proof.
  induction v as [| | | | s | l IHl | d IHd] using json_nested_ind;
    cbn [plain str_tree]; try discriminate; try reflexivity.
  - induction IHl as [|x l Hx _ IH]; [reflexivity|]. cbn [forallb].
    intros H. apply andb_true_iff in H as [H1 H2]. rewrite Hx, IH by assumption. reflexivity.
  - intros H. apply andb_true_iff in H as [H _].
    induction IHd as [|[k x] d Hx _ IH]; [reflexivity|]. cbn [forallb fst snd] in *.
    apply andb_true_iff in H as [H1 H2]. apply andb_true_iff in H1 as [_ H1].
    rewrite Hx, IH by assumption. reflexivity.
Qed.

Lemma dict_has_snoc (k k' : str) (x : json) acc :
  dict_has k acc = false → k ≠ k' → dict_has k (acc ++ [(k', x)]) = false.
Proof.
  unfold dict_has. intros Hacc Hne. apply eqb_neq in Hne.
  induction acc as [|[k0 x0] acc IH]; cbn [app dict_get] in *.
  - rewrite Hne. reflexivity.
  - destruct (PyStr.eqb k k0); [discriminate | exact (IH Hacc)].
Qed.

Lemma existsb_eqb_false k (keys : list str) :
  existsb (PyStr.eqb k) keys = false → ∀ k', In k' keys → k' ≠ k.
Proof.
  intros H k' Hin ->. apply not_true_iff_false in H. apply H.
  apply existsb_exists. exists k. split; [exact Hin | apply eqb_eq; reflexivity].
Qed.

(** Entries with distinct new keys are added one after the other. *)
Lemma fold_dict_set_plain (d : list (str * json)) : ∀ acc,
  Forall (fun kv => recode kv.1 = kv.1 ∧ norm kv.2 = kv.2) d →
  distinct (map fst d) = true →
  (∀ k, In k (map fst d) → dict_has k acc = false) →
  fold_left (fun acc kv => dict_set (recode (fst kv)) (norm (snd kv)) acc) d acc = acc ++ d.
Proof.
  induction d as [|[k x] d IH]; intros acc Hd Hdist Hacc; cbn [fold_left].
  - rewrite app_nil_r. reflexivity.
  - apply Forall_cons in Hd as [[Hk Hx] Hd]. cbn [fst snd map distinct] in *.
    apply andb_true_iff in Hdist as [Hnew Hdist]. apply negb_true_iff in Hnew.
    rewrite Hk, Hx, dict_set_missing by (apply Hacc; left; reflexivity).
    rewrite IH; [rewrite <- app_assoc; reflexivity | exact Hd | exact Hdist |].
    intros k' Hk'. apply dict_has_snoc; [apply Hacc; right; exact Hk'|].
    apply (existsb_eqb_false k (map fst d) Hnew k' Hk').
Qed.

Lemma norm_plain v : plain v = true → norm v = v.
Proof.
  induction v as [| | | | s | l IHl | d IHd] using json_nested_ind;
    cbn [plain norm]; try discriminate.
  - intros H. rewrite recode_plain by exact H. reflexivity.
  - intros H. f_equal. induction IHl as [|x l Hx _ IH]; [reflexivity|].
    cbn [forallb map] in *. apply andb_true_iff in H as [H1 H2].
    rewrite Hx, IH by assumption. reflexivity.
  - intros H. apply andb_true_iff in H as [H Hdist]. f_equal.
    rewrite fold_dict_set_plain; [reflexivity | | exact Hdist | reflexivity].
    clear Hdist. induction IHd as [|[k x] d Hx _ IH]; [constructor|].
    cbn [forallb fst snd] in *. apply andb_true_iff in H as [H1 H2].
    apply andb_true_iff in H1 as [Hk H1].
    constructor; [split; [apply recode_plain, Hk | apply Hx, H1] | apply IH, H2].
Qed.

(** X18.  A blueprint written by [json.dumps(_, indent=2)] is read back by
    [parse_structure] as the blueprint itself: for a value made of
    strings, lists and dicts with distinct keys, the result is that of
    validating the value. *)
Theorem parse_structure_reads_dumps (v : json) :
  plain v = true → parse_structure (dumps_indent2 v) = validate v.
Proof.
  intros H. rewrite parse_structure_dumps by (apply plain_str_tree, H).
  rewrite norm_plain by exact H. reflexivity.
Qed.

Lemma parse_structure_reads_dumps_witness :
  parse_structure (dumps_indent2 blueprint_with_empty_path) = validate blueprint_with_empty_path.
Proof. apply parse_structure_reads_dumps. vm_compute. reflexivity. Defined.

End ParseFacts.

(* ===================================================================== *)
(** * The topic read by [main] *)
(* ===================================================================== *)

Module TopicFacts.
Import StructureCreatorFacts SanitizeFacts.

(** X19.  [main] stops for want of a topic exactly when the line read is
    blank, that is empty or made of whitespace only. *)
Theorem main_topic_none_iff (line : str) :
  main_topic line = None ↔ Forall (fun c => isspace c = true) line.
Proof.
  unfold main_topic, strip. rewrite <- strip_by_nil.
  destruct (strip_by isspace line); split; congruence.
Qed.

(** X20.  A topic that [main] goes on with is the line without the
    whitespace around it: it is not empty, it neither begins nor ends with
    whitespace, and reading it again gives the same topic. *)
Theorem main_topic_stripped (line topic : str) :
  main_topic line = Some topic →
  topic = strip line ∧ topic ≠ [] ∧
  (∀ c, head topic = Some c → isspace c = false) ∧
  (∀ c, last topic = Some c → isspace c = false) ∧
  main_topic topic = Some topic.
Proof.
  unfold main_topic. intros H.
  assert (Ht : topic = strip line ∧ topic ≠ []).
  { destruct (strip line) as [|c r]; [discriminate|]. injection H as <-. split; [reflexivity | discriminate]. }
  destruct Ht as [-> Hne].
  assert (Hhead : ∀ c, head (strip line) = Some c → isspace c = false)
    by (intros c; apply strip_by_head).
  assert (Hlast : ∀ c, last (strip line) = Some c → isspace c = false)
    by (intros c; apply strip_by_last).
  repeat split; try assumption.
  unfold strip at 1. rewrite (strip_by_clean isspace (strip line) Hhead Hlast).
  destruct (strip line); [contradiction | reflexivity].
Qed.

Lemma main_topic_stripped_witness :
  py "todo app" = strip (py "  todo app ") ∧ py "todo app" ≠ [] ∧
  (∀ c, head (py "todo app") = Some c → isspace c = false) ∧
  (∀ c, last (py "todo app") = Some c → isspace c = false) ∧
  main_topic (py "todo app") = Some (py "todo app").
Proof. apply main_topic_stripped. reflexivity. Defined.

End TopicFacts.

(* ===================================================================== *)
(** * More on [ask] and the acquisition of a blueprint *)
(* ===================================================================== *)

Module AskFacts.
Import MistralPlanner Props ParseProps PlannerProps AcquisitionFacts JsonFacts FallbackFacts ParseFacts.

#[local] Arguments py : simpl never.
#[local] Open Scope nat_scope.

Section WithLower.
Variable lower : str -> str.

(** X21.  [ask] calls the remote service at most three times, with the
    timeouts 30, 60 and 90 seconds: what the service would do on any
    other call does not matter. *)
Theorem ask_same_answers (self : t) (topic : str) (remote remote' : api) (h : heap) :
  same_answers remote remote' →
  ask lower self topic remote h = ask lower self topic remote' h.
Proof.
  intros (H1 & H2 & H3). unfold ask, timeouts. cbn [ask_loop length Nat.eqb].
  rewrite H1, H2, H3. reflexivity.
Qed.

(** X22.  [ask] never returns [None]: when it returns, it returns a text. *)
Theorem ask_returns_text (self : t) (topic : str) (remote : api) (h h' : heap)
    (response : option str) :
  ask lower self topic remote h = (Ok response, h') →
  ∃ text, response = Some text.
Proof.
  unfold ask, timeouts. cbn [ask_loop length Nat.eqb].
  assert (Hfall : ∀ r, (Some <$> _get_fallback_structure lower self topic) h = (Ok r, h') →
                       ∃ text, r = Some text).
  { intros r. unfold fmap, M_fmap.
    destruct (_get_fallback_structure lower self topic h) as [[text|e] h1]; intros [= <- _]; eauto. }
  destruct (remote 1 30%Z); [intros [= <- _]; eauto | | | | discriminate];
    (destruct (remote 2 60%Z); [intros [= <- _]; eauto | | | | discriminate]);
    (destruct (remote 3 90%Z); [intros [= <- _]; eauto | | | | discriminate]);
    apply Hfall.
Qed.

(** X23.  An exception that no handler of [ask] names ends the call and the
    acquisition at once: there is no further attempt, the fallback
    blueprint is not built and the heap is as it was. *)
Theorem ask_unhandled_exception (self : t) (topic : str) (remote : api) (h : heap)
    (k : nat) (e : exn) :
  k < 3 →
  (∀ j, j < k → handled_failure (remote (S j) (nth j timeouts 0%Z))) →
  remote (S k) (nth k timeouts 0%Z) = ApiOtherException e →
  ask lower self topic remote h = (Raise e, h) ∧
  acquire_blueprint lower self topic remote h = (Raise e, h).
Proof.
  intros Hk Hbefore He.
  assert (Hask : ask lower self topic remote h = (Raise e, h)).
  { unfold ask, timeouts.
    destruct k as [|[|[|k]]]; try lia.
    - cbn [ask_loop]. cbn in He. rewrite He. reflexivity.
    - rewrite ask_loop_handled by (apply (Hbefore 0); lia).
      cbn [length Nat.eqb ask_loop]. cbn in He. rewrite He. reflexivity.
    - rewrite ask_loop_handled by (apply (Hbefore 0); lia).
      cbn [length Nat.eqb].
      rewrite ask_loop_handled by (apply (Hbefore 1); lia).
      cbn [length Nat.eqb ask_loop]. cbn in He. rewrite He. reflexivity. }
  split; [exact Hask|]. unfold acquire_blueprint, mbind, M_bind. rewrite Hask. reflexivity.
Qed.

End WithLower.

Lemma ask_same_answers_witness :
  ask ascii_lower new_planner (py "todo app") remote_slow new_heap
  = ask ascii_lower new_planner (py "todo app")
      (fun attempt timeout => if (3 <? attempt) then ApiTimeout else remote_slow attempt timeout)
      new_heap.
Proof. apply ask_same_answers. repeat split. Defined.

Lemma ask_returns_text_witness : ∃ text, Some (py "{}") = Some text.
Proof.
  apply (ask_returns_text ascii_lower new_planner (py "todo app") remote_slow new_heap new_heap).
  reflexivity.
Defined.

Lemma ask_unhandled_exception_witness :
  ask ascii_lower new_planner (py "todo app") remote_malformed new_heap
  = (Raise TypeError, new_heap) ∧
  acquire_blueprint ascii_lower new_planner (py "todo app") remote_malformed new_heap
  = (Raise TypeError, new_heap).
Proof.
  apply (ask_unhandled_exception ascii_lower new_planner (py "todo app") remote_malformed
           new_heap 1 TypeError).
  - lia.
  - intros j Hj. assert (j = 0) as -> by lia. right. left. reflexivity.
  - reflexivity.
Defined.

(** ** The blueprint acquired when the service fails *)

Lemma scalar_topic_strings (topic : str) :
  forallb scalar topic = true →
  plain (web_structure topic) = true ∧ plain (api_structure topic) = true ∧
  plain (generic_structure topic) = true.
Proof.
  intros Ht.
  unfold web_structure, api_structure, generic_structure,
    generic_main_prompt, generic_interactions.
  cbn [plain forallb fst snd map]. unfold char, str in *.
  rewrite ?forallb_app, Ht. repeat split; vm_compute; reflexivity.
Qed.

Lemma fallback_blueprint_plain lower topic :
  forallb scalar topic = true → plain (fallback_blueprint lower topic) = true.
Proof.
  intros Ht. destruct (scalar_topic_strings topic Ht) as (Hw & Ha & Hg).
  unfold fallback_blueprint.
  destruct (existsb _ web_words); [exact Hw|].
  destruct (existsb _ api_words); [exact Ha | exact Hg].
Qed.

(** X24.  When every attempt ends in a handler, the blueprint that [main]
    gets from [ask] and [parse_structure] is the template of the fallback
    planner for the topic, entry for entry, whatever the planner was
    asked before (the topic being free of surrogate code points). *)
Theorem acquire_blueprint_fallback (lower : str → str) (history : list str)
    (topic : str) (remote : api) :
  forallb scalar topic = true →
  (∀ attempt timeout, handled_failure (remote attempt timeout)) →
  ∃ h', acquire_blueprint lower new_planner topic remote (heap_after lower history new_heap)
        = (Ok (fallback_blueprint lower topic), h').
Proof.
  intros Ht Hall. unfold acquire_blueprint, mbind, M_bind.
  rewrite (ask_all_handled lower new_planner topic remote _ Hall). unfold fmap, M_fmap.
  destruct (get_fallback_text lower history topic) as (h1 & ->).
  exists h1. f_equal.
  rewrite parse_structure_dumps by apply fallback_blueprint_tree.
  destruct (fallback_blueprint_accepted lower topic) as (Hv & _).
  rewrite norm_plain in Hv by (apply fallback_blueprint_plain, Ht).
  rewrite norm_plain by (apply fallback_blueprint_plain, Ht). exact Hv.
Qed.

Lemma acquire_blueprint_fallback_witness :
  ∃ h', acquire_blueprint ascii_lower new_planner (py "todo app") remote_down
          (heap_after ascii_lower [py "chess"] new_heap)
        = (Ok (fallback_blueprint ascii_lower (py "todo app")), h').
Proof.
  apply acquire_blueprint_fallback.
  - reflexivity.
  - intros attempt timeout. left. reflexivity.
Defined.

(** ** The shared file objects *)

(** X25.  The generic branch works on a shallow copy of the template.  The
    call adds one object to the heap, the copy, whose [interactions] is
    the text for the topic, and the template keeps its own
    [interactions]; but the file objects are shared, so the prompt of the
    main file is changed in the template itself. *)
Theorem generic_branch_shares_files (lower : str → str) (history : list str) (topic : str) :
  generic_topic lower topic →
  ∃ text h',
    _get_fallback_structure lower new_planner topic (heap_after lower history new_heap)
      = (Ok text, h') ∧
    length h' = S (length (heap_after lower history new_heap)) ∧
    getitem (PRef (length (heap_after lower history new_heap))) (py "interactions") h'
      = (Ok (PStr (generic_interactions topic)), h') ∧
    getitem (fallback_structure new_planner) (py "interactions") h'
      = (Ok (PStr template_interactions), h') ∧
    main_prompt_of (fallback_structure new_planner) h'
      = (Ok (PStr (generic_main_prompt topic)), h').
Proof.
  intros [Hweb Hapi].
  rewrite new_heap_base, <- (app_nil_r (base_heap initial_main_prompt)).
  destruct (heap_after_shape lower history initial_main_prompt []) as (p & e & ->).
  unfold _get_fallback_structure. rewrite Hweb, Hapi, generic_fallback_spec.
  eexists _, _. split; [reflexivity|]. split; [|split; [|split]].
  - rewrite !length_app. cbn [length base_heap]. lia.
  - rewrite app_assoc.
    replace (length (base_heap p ++ e))
      with (length (base_heap (generic_main_prompt topic) ++ e))
      by (rewrite !length_app; reflexivity).
    apply getitem_dict with (items := generic_copy_items topic);
      [apply lookup_last | reflexivity].
  - reflexivity.
  - reflexivity.
Qed.

Lemma generic_branch_shares_files_witness :
  ∃ text h',
    _get_fallback_structure ascii_lower new_planner (py "chess")
      (heap_after ascii_lower [] new_heap) = (Ok text, h') ∧
    length h' = S (length (heap_after ascii_lower [] new_heap)) ∧
    getitem (PRef (length (heap_after ascii_lower [] new_heap))) (py "interactions") h'
      = (Ok (PStr (generic_interactions (py "chess"))), h') ∧
    getitem (fallback_structure new_planner) (py "interactions") h'
      = (Ok (PStr template_interactions), h') ∧
    main_prompt_of (fallback_structure new_planner) h'
      = (Ok (PStr (generic_main_prompt (py "chess"))), h').
Proof. apply generic_branch_shares_files. split; reflexivity. Defined.

(** ** The text of the fallback blueprint *)

#[local] Open Scope N_scope.

Lemma land_15_lt x : N.land x 15 < 16.
Proof.
  change 15 with (N.ones 4). rewrite N.land_ones. apply N.mod_lt. discriminate.
Qed.

Lemma hexdigit_printable n : n < 16 → printable (hexdigit n).
Proof.
  intros Hn. right. unfold hexdigit. destruct (N.ltb_spec n 10); lia.
Qed.

(** Lists of characters given one by one. *)
Ltac printable_chars :=
  repeat (apply Forall_cons_2; [try (right; lia); try (left; reflexivity) |]);
  try apply Forall_nil_2.

Lemma u_escape_printable n : Forall printable (u_escape n).
Proof.
  unfold u_escape, hex4. cbn [app].
  printable_chars; apply hexdigit_printable, land_15_lt.
Qed.

Lemma escape_char_printable c : Forall printable (escape_char c).
Proof.
  unfold escape_char.
  destruct (c =? 92); [printable_chars|].
  destruct (c =? 34); [printable_chars|].
  destruct ((32 <=? c) && (c <=? 126)) eqn:E.
  { apply andb_true_iff in E as [H1 H2]. apply N.leb_le in H1, H2. printable_chars. }
  destruct (c =? 8); [printable_chars|].
  destruct (c =? 12); [printable_chars|].
  destruct (c =? 10); [printable_chars|].
  destruct (c =? 13); [printable_chars|].
  destruct (c =? 9); [printable_chars|].
  destruct (c <? 65536); [apply u_escape_printable|].
  cbv zeta. apply Forall_app. split; apply u_escape_printable.
Qed.

Lemma escape_printable s : Forall printable (escape s).
Proof.
  induction s as [|c s IH]; cbn [escape]; [constructor|].
  apply Forall_app. split; [apply escape_char_printable | exact IH].
Qed.

Lemma encode_printable s : Forall printable (encode_basestring_ascii s).
Proof.
  unfold encode_basestring_ascii. rewrite !Forall_app.
  repeat split; try apply escape_printable; printable_chars.
Qed.

Lemma newline_indent_printable lvl : Forall printable (newline_indent lvl).
Proof.
  unfold newline_indent. apply Forall_cons_2; [left; reflexivity|].
  induction (2 * lvl)%nat as [|k IH]; cbn [repeat]; [constructor|].
  apply Forall_cons_2; [right; lia | exact IH].
Qed.

Lemma dumps_at_printable v :
  str_tree v = true → ∀ lvl, Forall printable (dumps_at lvl v).
Proof.
  induction v as [| | | | s | l IHl | d IHd] using json_nested_ind;
    intros Htree lvl; try discriminate; cbn [str_tree] in Htree.
  - apply encode_printable.
  - destruct l as [|x xs]; [change (dumps_at lvl (JList [])) with [91; 93]; printable_chars|].
    cbn [forallb] in Htree. apply andb_true_iff in Htree as [Hx Hxs].
    apply Forall_cons in IHl as [IHx IHxs].
    cbn [dumps_at]. rewrite !Forall_app.
    repeat split; try apply newline_indent_printable; try (printable_chars; fail);
      [apply IHx, Hx|].
    induction IHxs as [|y ys Hy _ IH]; [constructor|].
    cbn [forallb] in Hxs. apply andb_true_iff in Hxs as [Hyt Hys].
    cbn [flat_map]. rewrite Forall_app. split; [|apply IH, Hys].
    apply Forall_cons_2; [right; lia|]. rewrite Forall_app.
    split; [apply newline_indent_printable | apply Hy, Hyt].
  - destruct d as [|[k x] xs]; [change (dumps_at lvl (JDict [])) with [123; 125]; printable_chars|].
    cbn [forallb fst snd] in Htree. apply andb_true_iff in Htree as [Hx Hxs].
    apply Forall_cons in IHd as [IHx IHxs]. cbn [fst snd] in IHx.
    cbn [dumps_at]. rewrite !Forall_app.
    repeat split; try apply newline_indent_printable; try apply encode_printable;
      try (printable_chars; fail); [apply IHx, Hx|].
    induction IHxs as [|[k' y] ys Hy _ IH]; [constructor|].
    cbn [forallb fst snd] in Hxs, Hy. apply andb_true_iff in Hxs as [Hyt Hys].
    cbn [flat_map fst snd]. rewrite Forall_app. split; [|apply IH, Hys].
    apply Forall_cons_2; [right; lia|]. rewrite !Forall_app.
    repeat split; try apply newline_indent_printable; try apply encode_printable.
    apply Forall_cons_2; [right; lia|]. apply Forall_cons_2; [right; lia|]. apply Hy, Hyt.
Qed.

(** X26.  Whatever the topic is made of, the text that the fallback planner
    returns consists of line feeds and printable ASCII characters only. *)
Theorem fallback_text_is_ascii (lower : str → str) (history : list str) (topic : str) :
  ∃ text h',
    _get_fallback_structure lower new_planner topic (heap_after lower history new_heap)
      = (Ok text, h') ∧
    Forall printable text.
Proof.
  destruct (get_fallback_text lower history topic) as (h1 & H1).
  eexists _, _. split; [exact H1|].
  apply dumps_at_printable, fallback_blueprint_tree.
Qed.

End AskFacts.

(* ===================================================================== *)
(** * Properties of the keystroke automation *)
(* ===================================================================== *)

Module CopilotFacts.
Import MistralPlanner StructureCreator CopilotAutomator Props CopilotProps.

#[local] Arguments py : simpl never.
#[local] Open Scope nat_scope.

Lemma G_bind_ok {A B} (m : G A) (k : A → G B) tr a tr' :
  m tr = (Ok a, tr') → (m ≫= k) tr = k a tr'.
Proof. intros H. unfold mbind, G_bind. rewrite H. reflexivity. Qed.

Lemma G_bind_raise {A B} (m : G A) (k : A → G B) tr e tr' :
  m tr = (Raise e, tr') → (m ≫= k) tr = (Raise e, tr').
Proof. intros H. unfold mbind, G_bind. rewrite H. reflexivity. Qed.

Section Calm.
Variable env : gui_env.
Hypothesis env_calm : calm env.

Lemma call_calm c tr : call env c tr = (Ok tt, tr ++ [c]).
Proof. unfold call. rewrite env_calm. reflexivity. Qed.

Lemma open_file_calm filename tr :
  _open_file env filename tr =
  (Ok tt, tr ++ [ Hotkey [py "ctrl"; py "p"]; Sleep 1000; Write (JStr filename); Sleep 1000;
                  Press (py "enter"); Sleep 2000 ]).
Proof.
  unfold _open_file.
  erewrite G_bind_ok by apply call_calm.
  erewrite G_bind_ok by reflexivity.
  erewrite G_bind_ok by apply call_calm.
  erewrite G_bind_ok by reflexivity.
  erewrite G_bind_ok by apply call_calm.
  unfold sleep. rewrite <- !app_assoc. reflexivity.
Qed.

Lemma process_file_before_prompt {B} f s (k : unit → G B) tr :
  dict_get (py "path") f = Some (JStr s) →
  (p ← lift (py_getitem (JDict f) (py "path"));
   p ← lift (as_path p);
   _ ← _open_file env (path_name p);
   _ ← call env (Hotkey [py "ctrl"; py "end"]);
   _ ← sleep 500;
   _ ← call env (Hotkey [py "ctrl"; py "i"]);
   sleep 2000 ≫= k) tr
  = k tt (tr ++ calls_before_prompt (path_name s)).
Proof.
  intros Hp.
  erewrite G_bind_ok by (unfold lift, py_getitem; rewrite Hp; reflexivity).
  erewrite G_bind_ok by reflexivity.
  erewrite G_bind_ok by apply open_file_calm.
  erewrite G_bind_ok by apply call_calm.
  erewrite G_bind_ok by reflexivity.
  erewrite G_bind_ok by apply call_calm.
  erewrite G_bind_ok by reflexivity.
  rewrite <- !app_assoc. reflexivity.
Qed.

Lemma process_file_calm f s prompt tr :
  dict_get (py "path") f = Some (JStr s) →
  dict_get (py "copilot_prompt") f = Some prompt →
  _process_file env (JDict f) tr =
  (Ok tt, tr ++ calls_before_prompt (path_name s) ++ calls_from_prompt prompt).
Proof.
  intros Hp Hprompt. unfold _process_file.
  rewrite (process_file_before_prompt f s _ tr Hp).
  erewrite G_bind_ok by (unfold lift, py_getitem; rewrite Hprompt; reflexivity).
  erewrite G_bind_ok by apply call_calm.
  erewrite G_bind_ok by reflexivity.
  erewrite G_bind_ok by apply call_calm.
  erewrite G_bind_ok by reflexivity.
  erewrite G_bind_ok by apply call_calm.
  erewrite G_bind_ok by reflexivity.
  erewrite G_bind_ok by apply call_calm.
  unfold sleep. rewrite <- !app_assoc. reflexivity.
Qed.

Lemma process_files_calm files : ∀ tr,
  Forall usable_file files →
  process_files env files tr = (Ok tt, tr ++ flat_map file_calls files).
Proof.
  induction files as [|x files IH]; intros tr Hall.
  - cbn [process_files flat_map]. rewrite app_nil_r. reflexivity.
  - apply Forall_cons in Hall as [(f & s & prompt & -> & Hp & Hprompt) Hall].
    cbn [process_files].
    erewrite G_bind_ok by (unfold lift, py_getitem; rewrite Hp; reflexivity).
    erewrite G_bind_ok by apply call_calm.
    erewrite G_bind_ok by (apply process_file_calm; eassumption).
    erewrite G_bind_ok by (unfold lift, py_getitem; rewrite Hp; reflexivity).
    erewrite G_bind_ok by apply call_calm.
    erewrite G_bind_ok by reflexivity.
    rewrite IH by exact Hall. cbn [flat_map file_calls]. rewrite Hp, Hprompt.
    rewrite <- !app_assoc. reflexivity.
Qed.

Lemma automate_copilot_calm d files :
  dict_get (py "files") d = Some (JList files) →
  Forall usable_file files →
  automate_copilot env (JDict d) [] =
  (Ok tt,
   [ Print (Runtime.Text (py "Starting Copilot automation...")); Sleep 2000;
     Hotkey [py "ctrl"; py "p"]; Sleep 1000; Write (JStr (py "README.md"));
     Sleep 1000; Press (py "enter"); Sleep 2000; Sleep 2000 ] ++ flat_map file_calls files).
Proof.
  intros Hfiles Hall. unfold automate_copilot.
  erewrite G_bind_ok by apply call_calm.
  erewrite G_bind_ok by reflexivity.
  erewrite G_bind_ok by apply open_file_calm.
  erewrite G_bind_ok by reflexivity.
  erewrite G_bind_ok by (unfold lift, py_getitem; rewrite Hfiles; reflexivity).
  erewrite G_bind_ok by reflexivity.
  rewrite process_files_calm by exact Hall. reflexivity.
Qed.

End Calm.

Lemma written_app tr tr' : written (tr ++ tr') = written tr ++ written tr'.
Proof. apply flat_map_app. Qed.

Lemma saves_app tr tr' : saves (tr ++ tr') = saves tr + saves tr'.
Proof. unfold saves. rewrite filter_app, length_app. reflexivity. Qed.

Lemma file_calls_usable files :
  Forall usable_file files →
  written (flat_map file_calls files) = flat_map typed_for files ∧
  saves (flat_map file_calls files) = length files.
Proof.
  induction 1 as [|x files (f & s & prompt & -> & Hp & Hprompt) _ [IHw IHs]].
  - split; reflexivity.
  - cbn [flat_map length]. rewrite written_app, saves_app, IHw, IHs.
    cbn [file_calls typed_for]. rewrite Hp, Hprompt. split; reflexivity.
Qed.

(** X27.  When no keystroke call and no [print] raises and every file
    object of the blueprint has a string as its path and a prompt,
    [automate_copilot] raises nothing; what it types is [README.md] and then, for each file
    object in the order of the blueprint, the name of the file followed by
    its prompt, and it saves once for every file object. *)
Theorem automate_copilot_types_every_prompt (env : gui_env) (d : list (str * json))
    (files : list json) :
  calm env →
  dict_get (py "files") d = Some (JList files) →
  Forall usable_file files →
  ∃ tr, automate_copilot env (JDict d) [] = (Ok tt, tr) ∧
        written tr = JStr (py "README.md") :: flat_map typed_for files ∧
        saves tr = length files.
Proof.
  intros Hcalm Hfiles Hall.
  rewrite (automate_copilot_calm env Hcalm d files Hfiles Hall).
  destruct (file_calls_usable files Hall) as [Hw Hs].
  eexists. split; [reflexivity|].
  rewrite written_app, saves_app, Hw, Hs. split; reflexivity.
Qed.

Lemma automate_copilot_types_every_prompt_witness :
  ∃ tr, automate_copilot never_raises
          (JDict [ (py "files", JList [two_init_files.1; two_init_files.2]) ]) []
        = (Ok tt, tr) ∧
        written tr = JStr (py "README.md") ::
                     flat_map typed_for [two_init_files.1; two_init_files.2] ∧
        saves tr = length [two_init_files.1; two_init_files.2].
Proof.
  apply automate_copilot_types_every_prompt.
  - intros tr c. reflexivity.
  - reflexivity.
  - repeat constructor; eexists _, _, _; repeat split; reflexivity.
Defined.

(** A path that the console cannot print ends the loop before the file
    is opened: nothing is typed for the file object. *)
Lemma process_files_unprintable_path (env : gui_env) (f : list (str * json))
    (rest : list json) (p : json) (e : exn) (tr : list gui) :
  dict_get (py "path") f = Some p →
  env tr (Print (Runtime.WithValue (py "Processing file: ") p)) = Some e →
  process_files env (JDict f :: rest) tr
  = (Raise e, tr ++ [Print (Runtime.WithValue (py "Processing file: ") p)]).
Proof.
  intros Hp He. cbn [process_files].
  erewrite G_bind_ok by (unfold lift, py_getitem; rewrite Hp; reflexivity).
  apply G_bind_raise. unfold call. rewrite He. reflexivity.
Qed.

(** ** The name typed into quick open *)





(** X29.  The prompt of a file object is looked up only after its file was
    opened and the inline chat was called up.  On a file object without
    [copilot_prompt], [_process_file] ends with [KeyError] after these
    keystrokes were sent. *)
Theorem process_file_missing_prompt (env : gui_env) (f : list (str * json)) (s : str)
    (tr : list gui) :
  calm env →
  dict_get (py "path") f = Some (JStr s) →
  dict_get (py "copilot_prompt") f = None →
  _process_file env (JDict f) tr = (Raise KeyError, tr ++ calls_before_prompt (path_name s)).
Proof.
  intros Hcalm Hp Hprompt. unfold _process_file.
  rewrite (process_file_before_prompt env Hcalm f s _ tr Hp).
  apply G_bind_raise. unfold lift, py_getitem. rewrite Hprompt. reflexivity.
Qed.

Lemma process_file_missing_prompt_witness :
  _process_file never_raises (JDict [ (py "path", JStr (py "src/main.py")) ]) []
  = (Raise KeyError, [] ++ calls_before_prompt (path_name (py "src/main.py"))).
Proof.
  apply process_file_missing_prompt.
  - intros tr c. reflexivity.
  - reflexivity.
  - reflexivity.
Defined.

(** ** [launch_vscode] *)

(** X30.  [launch_vscode] returns [False] exactly when it opened the folder
    in the file explorer, which it does whether or not that raises; it
    returns [True] only after an editor command that succeeded, and it
    tries [code.cmd] only when [code] ended with one of the two
    exceptions it catches. *)
Theorem launch_vscode_outcomes (e : launch_env) :
  ((launch_vscode e).1 = Ok false ↔ In EOpenExplorer (launch_vscode e).2) ∧
  ((launch_vscode e).1 = Ok true →
   ∃ cmd, last (launch_vscode e).2 = Some (ERunEditor cmd) ∧ run_editor e cmd = Launched) ∧
  (In (ERunEditor (py "code.cmd")) (launch_vscode e).2 →
   run_editor e (py "code") = CalledProcessError ∨
   run_editor e (py "code") = FileNotFoundError).
Proof.
  unfold launch_vscode, try_commands.
  destruct (run_editor e (py "code")) eqn:E1;
    try destruct (run_editor e (py "code.cmd")) eqn:E2;
    try destruct (explorer_raises e);
    cbn [fst snd app In last];
    (split; [split; [try discriminate; auto | intros H; try reflexivity;
                     repeat (destruct H as [H | H]; try discriminate H); try contradiction]
            | split; [intros H; try discriminate H; eauto | auto]]).
  all: try (intros H; repeat (destruct H as [H | H]; try (vm_compute in H; discriminate H));
            try contradiction; auto).
Qed.

End CopilotFacts.
